(** * Shovel: output extraction, validation and batch scheduling

    A shallow embedding of the orchestration code of Shovel
    ([shovel/agent.py], [shovel/cli.py], [shovel/utils.py],
    [shovel/prompt.py]), the properties its specification states
    about it, and further properties of the code.

    Conventions of the embedding.
    - A Python [str] is a Rocq [string]; a character is a code point
      below 256.  On that alphabet [str.isspace], the [\s] class of [re]
      and case-insensitive matching of ASCII pattern letters are the
      functions written out in [PyStr].
    - A Python [dict] is an association list in insertion order with
      unique keys ([PyDict]); a JSON value is a [pyval].
    - A call that may raise returns an [outcome]; an exception is an
      instance of [Exception] or not, and a cancellation reaches a
      task where it waits for the agent's stream.  What the program
      does to files and processes is recorded, oldest first, in a
      [world]; what files and processes answer is given by a [Host].
    - The libraries [json] and [unidiff] are parameters ([JsonDecoder],
      [Unidiff]); the examples run with the decoder [Json] and the
      header reader [HeaderReader].
    - The tasks of a run are put one after the other in the order in
      which they complete.
    - The [logging] calls are diagnostics and are not part of the model;
      wall-clock readings ([time.time]) are left out of the log records.

    The file has four parts: the embedding, the vocabulary in which the
    properties are stated, sample inputs, and the properties: first
    those of the specification, then the further ones. *)

From Stdlib Require Import List String Ascii ZArith Lia Bool Arith PeanoNat Permutation.
Import ListNotations.
Local Open Scope string_scope.
Local Open Scope list_scope.
Local Open Scope nat_scope.

(* ================================================================== *)
(** ** Python strings *)

Module PyStr.

(** [str.isspace] on one character, which is also what [\s] matches
    for a [str] pattern: TAB..CR, FS..US, SPACE, NEL and NBSP. *)
Definition isspace (c : ascii) : bool :=
  let n := nat_of_ascii c in
  ((9 <=? n) && (n <=? 13)) || ((28 <=? n) && (n <=? 32))
  || (n =? 133) || (n =? 160).

(** Simple lower-casing of the ASCII letters. *)
Definition lower (c : ascii) : ascii :=
  let n := nat_of_ascii c in
  if (65 <=? n) && (n <=? 90) then ascii_of_nat (n + 32) else c.

Fixpoint lstrip (s : string) : string :=
  match s with
  | String c s' => if isspace c then lstrip s' else s
  | EmptyString => EmptyString
  end.

Fixpoint rstrip (s : string) : string :=
  match s with
  | EmptyString => EmptyString
  | String c s' =>
      match rstrip s' with
      | EmptyString => if isspace c then EmptyString else String c EmptyString
      | r => String c r
      end
  end.

(** [s.strip()] *)
Definition strip (s : string) : string := lstrip (rstrip s).

(** [s.startswith(p)] *)
Definition startswith (p s : string) : bool := String.prefix p s.

(** [s[n:]] for [n >= 0] *)
Fixpoint from (n : nat) (s : string) : string :=
  match n, s with
  | O, _ => s
  | S n', String _ s' => from n' s'
  | S _, EmptyString => EmptyString
  end.

(** [s[:n]] for [n >= 0] *)
Fixpoint upto (n : nat) (s : string) : string :=
  match n, s with
  | O, _ => EmptyString
  | S n', String c s' => String c (upto n' s')
  | S _, EmptyString => EmptyString
  end.

(** [s.endswith(p)] *)
Definition endswith (p s : string) : bool :=
  (String.length p <=? String.length s)
  && String.eqb (from (String.length s - String.length p) s) p.

(** [needle in hay] for two strings *)
Fixpoint contains (needle hay : string) : bool :=
  if String.prefix needle hay then true
  else match hay with
       | String _ hay' => contains needle hay'
       | EmptyString => false
       end.

(** [s.replace(a, b)] for a one-character [a] *)
Fixpoint replace_char (a : ascii) (b : string) (s : string) : string :=
  match s with
  | EmptyString => EmptyString
  | String c s' =>
      if Ascii.eqb c a then b ++ replace_char a b s'
      else String c (replace_char a b s')
  end%string.

(** [sep.join(parts)] *)
Fixpoint join (sep : string) (parts : list string) : string :=
  match parts with
  | [] => EmptyString
  | [p] => p
  | p :: ps => (p ++ sep ++ join sep ps)%string
  end.

(** The character at position [i], if any. *)
Fixpoint at_ (i : nat) (s : string) : option ascii :=
  match s, i with
  | EmptyString, _ => None
  | String c _, O => Some c
  | String _ s', S i' => at_ i' s'
  end.

(** [s.lower()] on the ASCII letters *)
Fixpoint lower_str (s : string) : string :=
  match s with
  | EmptyString => EmptyString
  | String c s' => String (lower c) (lower_str s')
  end.

(** Every character of [s] is white space. *)
Fixpoint all_space (s : string) : bool :=
  match s with
  | EmptyString => true
  | String c s' => isspace c && all_space s'
  end.

End PyStr.

(** The line feed and the double quote, as strings. *)
Definition nl : string := String (ascii_of_nat 10) EmptyString.
Definition dq : string := String (ascii_of_nat 34) EmptyString.

(* ================================================================== *)
(** ** The two patterns of the extraction, and a backtracking matcher

    The patterns of [_parse_output_from_final_assistant_text] use
    literals, [\s*], one lazy [.*?] and one capturing group.  [Lit] is a
    literal under [re.IGNORECASE]; [LazyAny] is [.*?] under [re.DOTALL]
    (the dot matches every character). *)

Module Re.

Inductive atom : Type :=
| Lit (c : ascii)
| Spaces
| LazyAny
| GroupOpen
| GroupClose.

Definition pattern := list atom.

(** State of capturing group 1 along one path of the matcher. *)
Inductive capture : Type :=
| Before
| Inside (acc : string)
| After (g : string).

Definition push (c : ascii) (cap : capture) : capture :=
  match cap with
  | Inside acc => Inside (acc ++ String c EmptyString)%string
  | _ => cap
  end.

Definition open_group (cap : capture) : capture :=
  match cap with Before => Inside EmptyString | _ => cap end.

Definition close_group (cap : capture) : capture :=
  match cap with Inside acc => After acc | _ => cap end.

Definition lit_matches (p c : ascii) : bool :=
  Ascii.eqb (PyStr.lower c) (PyStr.lower p).

(** Match [p] at the start of [s], trying alternatives in the order a
    backtracking engine does: a greedy star takes as much as it can
    and gives back, a lazy star takes as little as it can and
    extends. *)
Fixpoint match_here (p : pattern) (s : string) (cap : capture)
  {struct p} : option capture :=
  match p with
  | [] => Some cap
  | Lit a :: p' =>
      match s with
      | String c s' =>
          if lit_matches a c then match_here p' s' (push c cap) else None
      | EmptyString => None
      end
  | Spaces :: p' =>
      (fix spaces (s : string) (cap : capture) {struct s} : option capture :=
         match s with
         | String c s' =>
             if PyStr.isspace c then
               match spaces s' (push c cap) with
               | Some r => Some r
               | None => match_here p' s cap
               end
             else match_here p' s cap
         | EmptyString => match_here p' s cap
         end) s cap
  | LazyAny :: p' =>
      (fix lazy (s : string) (cap : capture) {struct s} : option capture :=
         match match_here p' s cap with
         | Some r => Some r
         | None =>
             match s with
             | String c s' => lazy s' (push c cap)
             | EmptyString => None
             end
         end) s cap
  | GroupOpen :: p' => match_here p' s (open_group cap)
  | GroupClose :: p' => match_here p' s (close_group cap)
  end.

Definition group1 (cap : capture) : option string :=
  match cap with After g => Some g | _ => None end.

(** [re.search(p, s)] followed by [.group(1)]: the leftmost start
    position at which the pattern matches. *)
Fixpoint search (p : pattern) (s : string) : option string :=
  match match_here p s Before with
  | Some cap => group1 cap
  | None =>
      match s with
      | String _ s' => search p s'
      | EmptyString => None
      end
  end.

Definition lits (s : string) : pattern :=
  map Lit (list_ascii_of_string s).

(** [```json\s*(\{.*?\})\s*```] *)
Definition fenced_re : pattern :=
  lits "```json"
    ++ [Spaces; GroupOpen; Lit "{"%char; LazyAny; Lit "}"%char; GroupClose; Spaces]
    ++ lits "```".

(** [<SHOVEL_OUTPUT_JSON>\s*```json\s*(\{.*?\})\s*```\s*</SHOVEL_OUTPUT_JSON>] *)
Definition marker_re : pattern :=
  lits "<SHOVEL_OUTPUT_JSON>" ++ [Spaces]
    ++ fenced_re
    ++ [Spaces] ++ lits "</SHOVEL_OUTPUT_JSON>".

(** *** What the patterns mean

    [matches p s cap rest cap']: the pattern [p] matches a prefix of
    [s] and leaves [rest], taking the capture from [cap] to [cap'].
    This is the language of the pattern; the order in which a
    backtracking engine finds a match plays no part in it. *)
Inductive matches : pattern -> string -> capture -> string -> capture -> Prop :=
| matches_end (s : string) (cap : capture) :
    matches [] s cap s cap
| matches_lit (a c : ascii) (p : pattern) (s : string) (cap : capture)
    (rest : string) (cap' : capture) :
    lit_matches a c = true ->
    matches p s (push c cap) rest cap' ->
    matches (Lit a :: p) (String c s) cap rest cap'
| matches_space (c : ascii) (p : pattern) (s : string) (cap : capture)
    (rest : string) (cap' : capture) :
    PyStr.isspace c = true ->
    matches (Spaces :: p) s (push c cap) rest cap' ->
    matches (Spaces :: p) (String c s) cap rest cap'
| matches_spaces_end (p : pattern) (s : string) (cap : capture)
    (rest : string) (cap' : capture) :
    matches p s cap rest cap' ->
    matches (Spaces :: p) s cap rest cap'
| matches_any (c : ascii) (p : pattern) (s : string) (cap : capture)
    (rest : string) (cap' : capture) :
    matches (LazyAny :: p) s (push c cap) rest cap' ->
    matches (LazyAny :: p) (String c s) cap rest cap'
| matches_any_end (p : pattern) (s : string) (cap : capture)
    (rest : string) (cap' : capture) :
    matches p s cap rest cap' ->
    matches (LazyAny :: p) s cap rest cap'
| matches_open (p : pattern) (s : string) (cap : capture)
    (rest : string) (cap' : capture) :
    matches p s (open_group cap) rest cap' ->
    matches (GroupOpen :: p) s cap rest cap'
| matches_close (p : pattern) (s : string) (cap : capture)
    (rest : string) (cap' : capture) :
    matches p s (close_group cap) rest cap' ->
    matches (GroupClose :: p) s cap rest cap'.

(** The capture after the characters of [m] have gone by. *)
Definition pushes (m : string) (cap : capture) : capture :=
  match cap with
  | Inside acc => Inside (acc ++ m)%string
  | _ => cap
  end.

(** [block] is a fenced block labeled json, in any letter case, that
    holds the braced text [g] between optional white space. *)
Definition fenced_block (block g : string) : Prop :=
  exists fence ws1 body ws2,
    block = (fence ++ ws1 ++ g ++ ws2 ++ "```")%string
    /\ PyStr.lower_str fence = "```json"
    /\ PyStr.all_space ws1 = true
    /\ g = ("{" ++ body ++ "}")%string
    /\ PyStr.all_space ws2 = true.

(** [block] is the wrapper tag, in any letter case, around a fenced
    block that holds [g], with optional white space inside the tag. *)
Definition wrapped_block (block g : string) : Prop :=
  exists opening ws0 inner ws3 closing,
    block = (opening ++ ws0 ++ inner ++ ws3 ++ closing)%string
    /\ PyStr.lower_str opening = "<shovel_output_json>"
    /\ PyStr.all_space ws0 = true
    /\ fenced_block inner g
    /\ PyStr.all_space ws3 = true
    /\ PyStr.lower_str closing = "</shovel_output_json>".

(** [text] has a block of the given kind somewhere in it. *)
Definition occurs (kind : string -> string -> Prop) (text g : string) : Prop :=
  exists before block after,
    text = (before ++ block ++ after)%string /\ kind block g.

End Re.

(* ================================================================== *)
(** ** Python values and dictionaries *)

#[warnings="-register-all"]
Inductive pyval : Type :=
| PNone
| PBool (b : bool)
| PInt (z : Z)
| PFloat (literal : string)
| PStr (s : string)
| PList (l : list pyval)
| PDict (d : list (string * pyval)).

(** A [dict] with [str] keys, in insertion order. *)
Definition dict := list (string * pyval).

Module PyDict.
Section Generic.
Context {V : Type}.

(** [d.get(k)] *)
Fixpoint get (k : string) (d : list (string * V)) : option V :=
  match d with
  | [] => None
  | (k', v) :: d' => if String.eqb k' k then Some v else get k d'
  end.

(** [k in d] *)
Definition mem (k : string) (d : list (string * V)) : bool :=
  match get k d with Some _ => true | None => false end.

(** [d[k] = v]: an existing key keeps its place, a new one goes last. *)
Fixpoint set (k : string) (v : V) (d : list (string * V))
  : list (string * V) :=
  match d with
  | [] => [(k, v)]
  | (k', v') :: d' =>
      if String.eqb k' k then (k', v) :: d' else (k', v') :: set k v d'
  end.

(** [list(d.keys())] *)
Definition keys (d : list (string * V)) : list string := map fst d.

(** [list(d.values())] *)
Definition values (d : list (string * V)) : list V := map snd d.

(** [{k: v for k, v in d.items() if p(k)}] *)
Definition filter_keys (p : string -> bool) (d : list (string * V))
  : list (string * V) :=
  filter (fun kv => p (fst kv)) d.
End Generic.
End PyDict.

(* ================================================================== *)
(** ** Exceptions *)

(** An exception: its class and the text [str(exc)] gives.  [Exn] is
    an instance of [Exception], which [except Exception] catches;
    [BaseExn] is one that is not ([asyncio.CancelledError],
    [KeyboardInterrupt], [SystemExit]), which it lets through. *)
Inductive exn : Type :=
| Exn (class_name message : string)
| BaseExn (class_name message : string).

Definition str_exn (e : exn) : string :=
  match e with
  | Exn _ message => message
  | BaseExn _ message => message
  end.

Definition KeyError (key : string) : exn :=
  Exn "KeyError" ("'" ++ key ++ "'").

Inductive outcome (A : Type) : Type :=
| Ok (a : A)
| Raise (e : exn).
Arguments Ok {A} a.
Arguments Raise {A} e.

(* ================================================================== *)
(** ** External libraries

    [json] and [unidiff] are libraries the program calls; the embedding
    is parametric in them.  A call that raises gives [None]: every call
    site catches [Exception] and does not look at it. *)

Class JsonDecoder : Type := {
  (** [json.loads(s)] *)
  json_loads : string -> option pyval;
  (** [json.JSONDecoder().raw_decode(s)]: the value and the end index *)
  raw_decode : string -> option (pyval * nat)
}.

(* ================================================================== *)
(** ** Output extraction ([shovel/agent.py]) *)

Section Extraction.
Context {json : JsonDecoder}.

(** The candidate list of [_parse_output_from_final_assistant_text],
    built by the three [append]s in the order of the source. *)
Definition extraction_candidates (text : string) : list string :=
  let marker_match := Re.search Re.marker_re text in
  let candidates : list string := [] in
  let candidates :=
    match marker_match with
    | Some g => candidates ++ [g]
    | None => candidates
    end in
  let fenced_match := Re.search Re.fenced_re text in
  let candidates :=
    match fenced_match with
    | Some g => candidates ++ [g]
    | None => candidates
    end in
  candidates ++ [PyStr.strip text].

(** [for candidate in candidates]: [json.loads], [continue] on an
    exception, [return] on a [dict]. *)
Fixpoint try_candidates (candidates : list string) : option dict :=
  match candidates with
  | [] => None
  | candidate :: rest =>
      match json_loads candidate with
      | None => try_candidates rest
      | Some (PDict parsed) => Some parsed
      | Some _ => try_candidates rest
      end
  end.

(** [for idx, ch in enumerate(text)]: the loop is run over the
    characters still to visit, [idx] being the index of the first. *)
Fixpoint scan_braces (text : string) (todo : string) (idx : nat)
  : option dict :=
  match todo with
  | EmptyString => None
  | String ch todo' =>
      if negb (Ascii.eqb ch "{") then scan_braces text todo' (S idx)
      else
        match raw_decode (PyStr.from idx text) with
        | None => scan_braces text todo' (S idx)
        | Some (PDict parsed, _) => Some parsed
        | Some _ => scan_braces text todo' (S idx)
        end
  end.

Definition _parse_output_from_final_assistant_text (text : string)
  : option dict :=
  match try_candidates (extraction_candidates text) with
  | Some parsed => Some parsed
  | None => scan_braces text text 0
  end.

End Extraction.

(* ================================================================== *)
(** ** Instance filtering ([shovel/cli.py]) *)

(** An instance descriptor: the fields of one dataset record. *)
Definition instance := list (string * string).

(** [RunConfig] *)
Record RunConfig : Type := {
  cfg_input : string;
  cfg_output : string;
  cfg_repo_dir : string;
  cfg_model : string;
  cfg_max_workers : nat;
  cfg_max_turns : nat;
  cfg_split : option string;
  cfg_instance_ids : option (list string);
  cfg_start : option Z;
  cfg_end : option Z;
  cfg_log_dir : option string;
  cfg_resume : bool;
  cfg_project_dir : string
}.

Module PySlice.

(** How a slice bound is fitted to a sequence of length [len]: a
    negative bound counts from the end, and the result is clipped to
    [0 .. len]. *)
Definition adjust (i : Z) (len : nat) : nat :=
  let l := Z.of_nat len in
  let i := if (i <? 0)%Z then (i + l)%Z else i in
  if (i <? 0)%Z then 0
  else if (l <? i)%Z then len
  else Z.to_nat i.

(** [xs[lo:hi]] *)
Definition slice {A : Type} (xs : list A) (lo hi : Z) : list A :=
  let a := adjust lo (List.length xs) in
  let b := adjust hi (List.length xs) in
  firstn (b - a) (skipn a xs).

End PySlice.

Section Filter.
Context {V : Type}.

(** [{k: selected[k] for k in selected_keys}]; the keys come from
    [selected] itself, so every lookup finds its entry. *)
Definition restrict_to (selected_keys : list string)
  (selected : list (string * V)) : list (string * V) :=
  flat_map (fun k => match PyDict.get k selected with
                     | Some v => [(k, v)]
                     | None => []
                     end) selected_keys.

Definition _filter_instances (instances : list (string * V))
  (cfg : RunConfig) : list (string * V) :=
  let selected := instances in
  let selected :=
    match cfg_instance_ids cfg with
    | Some (id :: ids') =>
        let ids := id :: ids' in
        PyDict.filter_keys (fun k => existsb (String.eqb k) ids) selected
    | _ => selected
    end in
  match cfg_start cfg, cfg_end cfg with
  | None, None => selected
  | start, end_ =>
      let all_keys := PyDict.keys selected in
      let start_idx :=
        match start with Some s => (s - 1)%Z | None => 0%Z end in
      let end_idx :=
        match end_ with
        | Some e => e
        | None => Z.of_nat (List.length all_keys)
        end in
      let selected_keys := PySlice.slice all_keys start_idx end_idx in
      restrict_to selected_keys selected
  end.

End Filter.

(* ================================================================== *)
(** ** Patch parsing and language detection ([shovel/utils.py]) *)

(** What the program reads of a [unidiff.PatchedFile]. *)
Record PatchedFile : Type := {
  source_file : string;
  target_file : string
}.

Class Unidiff : Type := {
  (** [list(PatchSet(patch))], or [None] when the library raises *)
  PatchSet : string -> option (list PatchedFile)
}.

Definition is_empty (s : string) : bool :=
  match s with EmptyString => true | _ => false end.

Section Utils.
Context {unidiff : Unidiff}.

Definition get_modified_files (patch : string) : list string :=
  if is_empty patch || is_empty (PyStr.strip patch) then []
  else
    match PatchSet patch with
    | None => []
    | Some files =>
        let source_files :=
          map source_file
            (filter (fun file_obj =>
                       negb (String.eqb (source_file file_obj) "/dev/null"))
               files) in
        map (PyStr.from 2) (filter (PyStr.startswith "a/") source_files)
    end.

End Utils.

Definition EXTENSION_TO_LANGUAGE : list (string * string) :=
  [ (".py", "python"); (".js", "javascript"); (".ts", "typescript");
    (".jsx", "javascript"); (".tsx", "typescript"); (".java", "java");
    (".go", "go"); (".rs", "rust"); (".rb", "ruby"); (".php", "php");
    (".c", "c"); (".cpp", "cpp"); (".h", "c"); (".hpp", "cpp");
    (".cs", "csharp"); (".swift", "swift"); (".kt", "kotlin");
    (".scala", "scala") ].

(** [max(counts, key=counts.get)]: the first key, in insertion order,
    that carries the largest count. *)
Fixpoint max_by_count (best : string) (best_n : nat)
  (counts : list (string * nat)) : string :=
  match counts with
  | [] => best
  | (lang, n) :: rest =>
      if best_n <? n then max_by_count lang n rest
      else max_by_count best best_n rest
  end.

Definition detect_language (files : list string) : string :=
  let lang_counts :=
    fold_left
      (fun (lang_counts : list (string * nat)) (file_path : string) =>
         match find (fun el => PyStr.endswith (fst el) file_path)
                 EXTENSION_TO_LANGUAGE with
         | Some (_, lang) =>
             let n := match PyDict.get lang lang_counts with
                      | Some n => n
                      | None => 0
                      end in
             PyDict.set lang (n + 1) lang_counts
         | None => lang_counts
         end)
      files [] in
  match lang_counts with
  | [] => "python"
  | (lang, n) :: rest => max_by_count lang n rest
  end.

(* ================================================================== *)
(** ** The prompts ([shovel/prompt.py]) *)

Definition SYSTEM_PROMPT : string :=
  "You are an expert DevOps engineer specializing in Docker environments for software testing. Your task is to analyze a GitHub repository and generate Docker configuration files that can build and test the repository.

## Your Workflow

### Phase 1: Analyze the Repository
1. Check build/config files: setup.py, setup.cfg, pyproject.toml, package.json, pom.xml, Cargo.toml, go.mod, Makefile, tox.ini, etc.
2. Read CI configuration: .github/workflows/*.yml, .travis.yml, tox.ini, Makefile, etc. to understand the official build and test process.
3. Analyze the test_patch to identify test files, test framework, and test commands.
4. Determine language version, dependency management tools, and any special build requirements.
5. Check if there are any special system dependencies needed (e.g., C libraries, database servers, etc.).

### Phase 2: Generate Docker Configuration
Based on your analysis, generate three outputs:

#### 2a. setup_repo.sh
A bash script that sets up the repository in the Docker container:
- MUST start with `#!/bin/bash` and `set -uxo pipefail`
- MUST clone the repo: `git clone -o origin https://github.com/{repo} /testbed/`
- MUST set permissions: `chmod -R 777 /testbed/`
- MUST cd: `cd /testbed/`
- MUST reset: `git reset --hard {base_commit}`
- MUST remove origin: `git remote remove origin`
- Then install dependencies and build the project
- For Python projects: use pip install with appropriate extras, or follow setup.py/pyproject.toml
- For Node.js projects: npm install or yarn install
- For Java projects: mvn install -DskipTests or gradle build -x test
- Install test dependencies too (pytest, jest, etc.)

#### 2b. eval_script
A bash script that runs the tests:
- MUST start with `#!/bin/bash`
- MUST include `set -uxo pipefail`
- MUST include `exec > >(tee -a /tmp/full.log) 2>&1`
- MUST include `git config --global --add safe.directory /testbed/`
- MUST cd to `/testbed/`
- MUST reset test files: `git checkout {base_commit} {test_files_space_separated}`
- MUST apply test_patch using heredoc: `git apply --verbose --reject - <<'EOF_114329324912'\n{test_patch}\nEOF_114329324912`
- MUST include test output markers: `: '>>>>> Start Test Output'` and `: '>>>>> End Test Output'`
- MUST capture exit code: `rc=$?` immediately after the test command
- MUST print: `echo "
  ++ dq ++ "OMNIGRIL_EXIT_CODE=$rc"
  ++ dq ++ "` (the evaluation framework uses this exact string!)
- MUST reset test files again at the end
- NEVER use parallel test flags: -n auto, --num-processes=auto, -p auto, -nauto
- Use -x flag for pytest to stop on first failure (faster feedback)

#### 2c. dockerfile
- MUST use: `FROM --platform=linux/x86_64 {base_image}`
- MUST include: `COPY ./setup_repo.sh /root/`
- MUST include: `RUN /bin/bash /root/setup_repo.sh`
- MUST include: `WORKDIR /testbed/`
- Keep it minimal - all setup logic goes in setup_repo.sh

### Phase 3: Self-Validation in Docker (CRITICAL!)
Before outputting the final result, validate your configuration by actually building and running Docker containers.

**Step 1: Write files to a build directory**
```bash
mkdir -p {build_dir}
```
Write the Dockerfile and setup_repo.sh into this directory using the Write tool:
- `{build_dir}/Dockerfile`
- `{build_dir}/setup_repo.sh`

**Step 2: Build the Docker image**
```bash
cd {build_dir} && docker build -t test_{instance_id} .
```
If the build fails, diagnose and fix:
- Wrong base image -> change it
- Missing system dependencies -> add `apt-get install` to setup_repo.sh
- Dependency install failures -> fix the install commands
- Then rebuild

**Step 3: Test WITHOUT fix patch (should FAIL)**
Run the eval_script inside the container:
```bash
docker run --rm test_{instance_id} /bin/bash -c '<eval_script_content>'
```
Or write the eval_script to a file and mount it:
```bash
docker run --rm -v {build_dir}/eval.sh:/tmp/eval.sh test_{instance_id} /bin/bash /tmp/eval.sh
```
Check the output for `OMNIGRIL_EXIT_CODE=`. It should be non-zero (tests fail because fix patch is not applied).

**Step 4: Test WITH fix patch (should PASS)**
Create a modified eval_script that also applies the fix patch after the test_patch, then run tests:
```bash
docker run --rm test_{instance_id} /bin/bash -c '
cd /testbed/
git checkout {base_commit} {test_files}
git apply --verbose --reject - <<'"
  ++ dq ++ "'"
  ++ dq ++ "'EOF_114329324912'"
  ++ dq ++ "'"
  ++ dq ++ "'
{test_patch}
EOF_114329324912
git apply --verbose --reject - <<'"
  ++ dq ++ "'"
  ++ dq ++ "'EOF_FIX_PATCH'"
  ++ dq ++ "'"
  ++ dq ++ "'
{fix_patch}
EOF_FIX_PATCH
{test_command}
echo "
  ++ dq ++ "EXIT_CODE=$?"
  ++ dq ++ "
'
```
The exit code should be 0 (tests pass with fix applied).

**Step 5: Iterate if needed**
If validation fails at any step, diagnose and fix your configuration:
- Build failure -> fix setup_repo.sh (wrong deps, wrong versions)
- Tests don't fail without fix -> wrong test command or test files
- Tests don't pass with fix -> missing dependencies, wrong environment
- Then repeat from Step 2

**Step 6: Cleanup**
```bash
docker rmi test_{instance_id} 2>/dev/null || true
rm -rf {build_dir}
```

### Phase 4: Output Final Result
After validation passes, your FINAL assistant message MUST contain the output JSON in this exact wrapper format:

<SHOVEL_OUTPUT_JSON>
```json
{
  "
  ++ dq ++ "dockerfile"
  ++ dq ++ ": "
  ++ dq ++ "..."
  ++ dq ++ ",
  "
  ++ dq ++ "eval_script"
  ++ dq ++ ": "
  ++ dq ++ "..."
  ++ dq ++ ",
  "
  ++ dq ++ "setup_scripts"
  ++ dq ++ ": {
    "
  ++ dq ++ "setup_repo.sh"
  ++ dq ++ ": "
  ++ dq ++ "..."
  ++ dq ++ "
  }
}
```
</SHOVEL_OUTPUT_JSON>

Rules for final message:
- The final message must contain exactly one JSON object in that wrapper.
- Do not output analysis, explanations, or any extra text outside the wrapper.
- JSON keys must include: dockerfile, eval_script, setup_scripts.setup_repo.sh

## Important Rules
- Always prefer the SIMPLEST working solution
- Match the project's actual CI/test configuration as closely as possible
- For Python: check if the project uses pytest, unittest, nose, tox, etc.
- For Python: check pyproject.toml [tool.pytest.ini_options] or setup.cfg [tool:pytest] for test configuration
- Include ALL necessary system-level dependencies (build-essential, libffi-dev, etc.)
- If a project needs a specific Python version, use that version's Docker image
- For the test command, be specific: use the exact test file paths from test_patch
- The heredoc delimiter for test_patch in eval_script MUST be EOF_114329324912
".

Definition USER_PROMPT_TEMPLATE : string :=
  "## Task
Analyze this repository and generate Docker environment configuration for testing.

## Repository Information
- **Repository**: {repo}
- **Instance ID**: {instance_id}
- **Base Commit**: {base_commit}
- **Language**: {language} (detected from test files)

## Problem Statement
{problem_statement}

## Test Patch (to be applied in eval_script)
```diff
{test_patch}
```

## Test Files (extracted from test_patch)
{test_files_list}

## Fix Patch (for validation - apply after test_patch to verify tests pass)
```diff
{patch}
```

## Instructions
1. Analyze the repository structure, build files, and CI configuration
2. Generate the Docker configuration (dockerfile, eval_script, setup_repo.sh)
3. Self-validate by building a Docker image and running eval_script inside the container
   - Write Dockerfile + setup_repo.sh to {build_dir}/
   - `docker build` the image
   - `docker run` with eval_script -> tests should FAIL (no fix patch)
   - `docker run` with eval_script + fix patch -> tests should PASS
   - If any step fails, fix the config and retry
4. Output the final validated configuration

Remember:
- The eval_script MUST contain `echo "
  ++ dq ++ "OMNIGRIL_EXIT_CODE=$rc"
  ++ dq ++ "`
- The dockerfile MUST use `FROM --platform=linux/x86_64`
- NEVER use -n auto, --num-processes=auto, -p auto in test commands
- The heredoc delimiter MUST be EOF_114329324912
- Final answer format MUST be wrapped in `<SHOVEL_OUTPUT_JSON> ... </SHOVEL_OUTPUT_JSON>`
".

(** [template.format] with keyword arguments, for a template whose
    replacement fields are plain names: the text up to the closing brace names the
    argument, a doubled brace stands for itself.  [field] is the name
    being read, when inside a field. *)
Fixpoint format_from (template : string) (field : option string)
  (kwargs : list (string * string)) : outcome string :=
  match template with
  | EmptyString =>
      match field with
      | None => Ok EmptyString
      | Some _ => Raise (Exn "ValueError" "expected '}' before end of string")
      end
  | String c rest =>
      match field with
      | Some name =>
          if Ascii.eqb c "}" then
            match PyDict.get name kwargs with
            | None => Raise (KeyError name)
            | Some value =>
                match format_from rest None kwargs with
                | Ok text => Ok (value ++ text)%string
                | Raise exc => Raise exc
                end
            end
          else
            format_from rest (Some (name ++ String c EmptyString)%string)
              kwargs
      | None =>
          if Ascii.eqb c "{" then
            match rest with
            | String c' rest' =>
                if Ascii.eqb c' "{" then
                  match format_from rest' None kwargs with
                  | Ok text => Ok (String c text)
                  | Raise exc => Raise exc
                  end
                else format_from rest (Some EmptyString) kwargs
            | EmptyString =>
                Raise (Exn "ValueError" "Single '{' encountered")
            end
          else if Ascii.eqb c "}" then
            match rest with
            | String c' rest' =>
                if Ascii.eqb c' "}" then
                  match format_from rest' None kwargs with
                  | Ok text => Ok (String c text)
                  | Raise exc => Raise exc
                  end
                else Raise (Exn "ValueError" "Single '}' encountered")
            | EmptyString =>
                Raise (Exn "ValueError" "Single '}' encountered")
            end
          else
            match format_from rest None kwargs with
            | Ok text => Ok (String c text)
            | Raise exc => Raise exc
            end
      end
  end.

Definition py_format (template : string) (kwargs : list (string * string))
  : outcome string :=
  format_from template None kwargs.

(* ================================================================== *)
(** ** The agent SDK's messages ([claude_agent_sdk]) *)

Inductive ContentBlock : Type :=
| TextBlock (text : string)
| ThinkingBlock (thinking : string)
| ToolUseBlock (id name : string) (input : dict)
| ToolResultBlock (tool_use_id : string) (content : pyval)
    (is_error : option bool)
| OtherBlock (repr : string).

Record ResultMessage : Type := {
  subtype : string;
  is_error : bool;
  num_turns : Z;
  duration_ms : Z;
  duration_api_ms : Z;
  total_cost_usd : pyval;
  usage : pyval;
  session_id : string;
  result : pyval
}.

Inductive Message : Type :=
| AssistantMessage (model : string) (content : list ContentBlock)
| UserMessage (content : string + list ContentBlock)
| SystemMessage (subtype : string) (data : dict)
| Result (message : ResultMessage)
| OtherMessage.

(** What iterating [query(prompt, options)] gives: the messages it
    yields and, when the iteration ends by raising, the exception. *)
Record stream : Type := {
  yielded : list Message;
  raised : option exn
}.

Record ClaudeAgentOptions : Type := {
  opt_model : string;
  opt_system_prompt : string;
  opt_allowed_tools : list string;
  opt_permission_mode : string;
  opt_cwd : string;
  opt_max_turns : nat
}.

(* ================================================================== *)
(** ** The world outside the program *)

(** One line of a trajectory log.  The header and the footer also
    carry times, which the model leaves out. *)
Inductive log_record : Type :=
| Header (instance_id user_prompt : string)
| Entry (data : dict)
| Footer.

Inductive cmd_result : Type :=
| Exited (code : Z)
| TimedOut.

(** What the program did to the world, oldest first. *)
Inductive event : Type :=
| Makedirs (dir : string)
| Open (path : string)
| Write (path : string) (line : log_record)
| Close (path : string)
| Run (argv : list string) (cwd : option string) (timeout : nat)
    (r : cmd_result)
| Rmtree (dir : string)
| Dump (path : string) (all_results : dict).

Definition world := list event.

(** What [json.load] gives on a dataset file: an array of records, or
    an object that maps keys to records. *)
Inductive json_dataset : Type :=
| JsonArray (items : list instance)
| JsonObject (data : list (string * instance)).

(** What the world answers.  The dataset files are given as parsed; a
    subprocess is answered from the number of events before it, so the
    same command can end differently at different times;
    [stored_results] is the content of an output file that exists. *)
Record Host : Type := {
  abspath : string -> string;
  query : string -> ClaudeAgentOptions -> stream;
  makedirs_ok : string -> bool;
  open_ok : string -> bool;
  write_ok : string -> log_record -> bool;
  isdir : string -> bool;
  proc : nat -> list string -> cmd_result;
  json_file : string -> outcome json_dataset;
  jsonl_file : string -> outcome (list instance);
  hub_dataset : string -> option string -> outcome (list instance);
  stored_results : string -> option dict;
  completes_next : nat -> nat
}.

(** [os.path.join(a, b)] on POSIX paths *)
Definition path_join (a b : string) : string :=
  if PyStr.startswith "/" b then b
  else if is_empty a || PyStr.endswith "/" a then a ++ b
  else a ++ "/" ++ b.

(* ================================================================== *)
(** ** The session driver ([shovel/agent.py]) *)

Definition _serialize_content_block (block : ContentBlock) : dict :=
  match block with
  | TextBlock text => [("type", PStr "text"); ("text", PStr text)]
  | ThinkingBlock thinking =>
      [("type", PStr "thinking"); ("thinking", PStr thinking)]
  | ToolUseBlock id name input =>
      [("type", PStr "tool_use"); ("id", PStr id); ("name", PStr name);
       ("input", PDict input)]
  | ToolResultBlock tool_use_id content is_error =>
      [("type", PStr "tool_result"); ("tool_use_id", PStr tool_use_id);
       ("content", content);
       ("is_error", match is_error with
                    | Some b => PBool b
                    | None => PNone
                    end)]
  | OtherBlock repr => [("type", PStr "unknown"); ("repr", PStr repr)]
  end.

Definition _serialize_message (message : Message) : option dict :=
  match message with
  | AssistantMessage model content =>
      Some [("role", PStr "assistant"); ("model", PStr model);
            ("content",
             PList (map (fun b => PDict (_serialize_content_block b))
                      content))]
  | UserMessage content =>
      let content :=
        match content with
        | inl text => PStr text
        | inr blocks =>
            PList (map (fun b => PDict (_serialize_content_block b)) blocks)
        end in
      Some [("role", PStr "user"); ("content", content)]
  | SystemMessage subtype data =>
      Some [("role", PStr "system"); ("subtype", PStr subtype);
            ("data", PDict data)]
  | Result message =>
      Some [("role", PStr "result"); ("subtype", PStr (subtype message));
            ("is_error", PBool (is_error message));
            ("num_turns", PInt (num_turns message));
            ("duration_ms", PInt (duration_ms message));
            ("duration_api_ms", PInt (duration_api_ms message));
            ("total_cost_usd", total_cost_usd message);
            ("usage", usage message);
            ("session_id", PStr (session_id message))]
  | OtherMessage => None
  end.

(** [len(v)] *)
Definition py_len (v : pyval) : outcome nat :=
  match v with
  | PStr s => Ok (String.length s)
  | PList l => Ok (List.length l)
  | PDict d => Ok (List.length d)
  | _ => Raise (Exn "TypeError" "object has no len()")
  end.

(** [_summarize_tool_input].  The summary is text for the logger; the
    model keeps what the driver can observe of the call, which is
    whether it raises: [.strip()] needs a [str], [len] a sized value,
    [[:120]] a sequence. *)
Definition _summarize_tool_input (tool_name : string) (input_data : dict)
  : outcome unit :=
  let get (key : string) (default : pyval) : pyval :=
    match PyDict.get key input_data with
    | Some v => v
    | None => default
    end in
  let sized (v : pyval) : outcome unit :=
    match py_len v with Ok _ => Ok tt | Raise e => Raise e end in
  if String.eqb tool_name "Bash" then
    match get "command" (PStr "") with
    | PStr _ => Ok tt
    | _ => Raise (Exn "AttributeError" "object has no attribute 'strip'")
    end
  else if String.eqb tool_name "Read" then Ok tt
  else if String.eqb tool_name "Write" then sized (get "content" (PStr ""))
  else if String.eqb tool_name "Edit" then sized (get "old_string" (PStr ""))
  else if String.eqb tool_name "Glob" then Ok tt
  else if String.eqb tool_name "Grep" then Ok tt
  else if String.eqb tool_name "NotebookEdit" then Ok tt
  else if String.eqb tool_name "WebFetch" then
    match get "url" (PStr "") with
    | PStr _ | PList _ => Ok tt
    | _ => Raise (Exn "TypeError" "object is not subscriptable")
    end
  else if String.eqb tool_name "WebSearch" then Ok tt
  else if String.eqb tool_name "TodoWrite" then sized (get "todos" (PList []))
  else if String.eqb tool_name "BashOutput" then Ok tt
  else if String.eqb tool_name "KillBash" then Ok tt
  else Ok tt.

Section Driver.
Context {json : JsonDecoder} {unidiff : Unidiff}.
Variable host : Host.

Definition build_user_prompt (instance : instance) (build_dir : string)
  : outcome string :=
  let get (key default : string) : string :=
    match PyDict.get key instance with Some v => v | None => default end in
  let test_patch := get "test_patch" "" in
  let patch := get "patch" "" in
  let test_files := get_modified_files test_patch in
  let language := detect_language test_files in
  let problem_statement := get "problem_statement" "" in
  let test_files_list :=
    match test_files with
    | [] => "- (none detected)"
    | _ => PyStr.join nl (map (fun f => ("- `" ++ f ++ "`")%string) test_files)
    end in
  match PyDict.get "repo" instance with
  | None => Raise (KeyError "repo")
  | Some repo =>
      match PyDict.get "instance_id" instance with
      | None => Raise (KeyError "instance_id")
      | Some instance_id =>
          match PyDict.get "base_commit" instance with
          | None => Raise (KeyError "base_commit")
          | Some base_commit =>
              py_format USER_PROMPT_TEMPLATE
                [ ("repo", repo);
                  ("instance_id", instance_id);
                  ("base_commit", base_commit);
                  ("language", language);
                  ("problem_statement", problem_statement);
                  ("test_patch", test_patch);
                  ("test_files_list", test_files_list);
                  ("patch", patch);
                  ("build_dir", build_dir) ]
          end
      end
  end.

(** A log file is known by its path; [None] is the handle the driver
    holds when no log is kept. *)
Definition _open_trajectory_log (instance_id user_prompt : string)
  (log_dir : option string) (w : world) : outcome (option string) * world :=
  match log_dir with
  | None => (Ok None, w)
  | Some log_dir =>
      if negb (makedirs_ok host log_dir) then
        (Raise (Exn "OSError" log_dir), w)
      else
        let w := w ++ [Makedirs log_dir] in
        let safe_id := PyStr.replace_char "/" "__" instance_id in
        let log_path := path_join log_dir (safe_id ++ ".jsonl") in
        if negb (open_ok host log_path) then (Ok None, w)
        else
          let w := w ++ [Open log_path] in
          let header := Header instance_id user_prompt in
          if negb (write_ok host log_path header) then (Ok None, w)
          else (Ok (Some log_path), w ++ [Write log_path header])
  end.

Definition _append_to_log (log_file : option string) (data : dict)
  (w : world) : world :=
  match log_file with
  | None => w
  | Some path =>
      if write_ok host path (Entry data) then w ++ [Write path (Entry data)]
      else w
  end.

Definition _close_trajectory_log (log_file : option string) (w : world)
  : world :=
  match log_file with
  | None => w
  | Some path =>
      if write_ok host path Footer then w ++ [Write path Footer; Close path]
      else w
  end.

(** The variables of [run_agent] that the stream loop updates. *)
Record loop_state : Type := {
  result_message : option ResultMessage;
  last_assistant_text : option string;
  turn_count : nat
}.

(** [for block in message.content] of an assistant message: the texts
    are collected, a tool use is summarised for the logger. *)
Fixpoint assistant_content (content : list ContentBlock)
  (text_blocks : list string) : outcome (list string) :=
  match content with
  | [] => Ok text_blocks
  | TextBlock text :: rest => assistant_content rest (text_blocks ++ [text])
  | ToolUseBlock _ name input :: rest =>
      match _summarize_tool_input name input with
      | Raise exc => Raise exc
      | Ok _ => assistant_content rest text_blocks
      end
  | _ :: rest => assistant_content rest text_blocks
  end.

(** [async for message in sdk["query"](...)], lines 241 to 272: the
    messages still to come, then the way the iteration ends.  A
    [Raise] is an exception raised inside the [try] of line 240, which
    the [except] clause of line 273 catches or lets through. *)
Fixpoint consume (log_file : option string) (messages : list Message)
  (raised : option exn) (st : loop_state) (w : world)
  : outcome loop_state * world :=
  match messages with
  | [] =>
      match raised with
      | Some exc => (Raise exc, w)
      | None => (Ok st, w)
      end
  | message :: rest =>
      let w :=
        match _serialize_message message with
        | Some serialized => _append_to_log log_file serialized w
        | None => w
        end in
      match message with
      | Result message =>
          (Ok {| result_message := Some message;
                 last_assistant_text := last_assistant_text st;
                 turn_count := turn_count st |}, w)
      | AssistantMessage _ content =>
          let turn_count := S (turn_count st) in
          match assistant_content content [] with
          | Raise exc => (Raise exc, w)
          | Ok text_blocks =>
              let last_assistant_text :=
                match text_blocks with
                | [] => last_assistant_text st
                | _ => Some (PyStr.join nl text_blocks)
                end in
              consume log_file rest raised
                {| result_message := result_message st;
                   last_assistant_text := last_assistant_text;
                   turn_count := turn_count |} w
          end
      | _ => consume log_file rest raised st w
      end
  end.

(** [needle in container] for a [str] needle *)
Definition py_in (needle : string) (container : pyval) : outcome bool :=
  match container with
  | PStr s => Ok (PyStr.contains needle s)
  | PList l =>
      Ok (existsb (fun v => match v with
                            | PStr s => String.eqb s needle
                            | _ => false
                            end) l)
  | PDict d => Ok (PyDict.mem needle d)
  | _ => Raise (Exn "TypeError" "argument is not iterable")
  end.

Definition required_keys : list string :=
  ["dockerfile"; "eval_script"; "setup_scripts"].

(** The text appended to a test script that lacks the marker. *)
Definition marker_snippet : string :=
  nl ++ "rc=$?" ++ nl ++ "echo " ++ dq ++ "OMNIGRIL_EXIT_CODE=$rc" ++ dq ++ nl.

(** Lines 299 to 313 of [run_agent]: the checks on the extracted record
    and the repair of the test script. *)
Definition validate_output (output : dict) : outcome (option dict) :=
  if negb (forallb (fun key => PyDict.mem key output) required_keys) then
    Ok None
  else
    let setup_scripts :=
      match PyDict.get "setup_scripts" output with
      | Some v => v
      | None => PDict []
      end in
    match py_in "setup_repo.sh" setup_scripts with
    | Raise exc => Raise exc
    | Ok false => Ok None
    | Ok true =>
        match PyDict.get "eval_script" output with
        | None => Raise (KeyError "eval_script")
        | Some eval_script =>
            match py_in "OMNIGRIL_EXIT_CODE" eval_script with
            | Raise exc => Raise exc
            | Ok true => Ok (Some output)
            | Ok false =>
                match eval_script with
                | PStr script =>
                    Ok (Some (PyDict.set "eval_script"
                                (PStr (PyStr.rstrip script ++ marker_snippet))
                                output))
                | _ =>
                    Raise (Exn "AttributeError"
                             "object has no attribute 'rstrip'")
                end
            end
        end
    end.

(** Whether the stream ended with a result event flagged as an error. *)
Definition result_flags_error (st : loop_state) : bool :=
  match result_message st with
  | Some message => is_error message
  | None => false
  end.

(** The variable [output] after line 287: what the extraction gives on
    the last assistant text, if there is one. *)
Definition extracted_output (st : loop_state) : option dict :=
  match last_assistant_text st with
  | Some text => _parse_output_from_final_assistant_text text
  | None => None
  end.

(** Lines 281 to 332 of [run_agent]: what is returned once the stream
    has ended without an exception. *)
Definition finish (st : loop_state) : outcome (option dict) :=
  if result_flags_error st then Ok None
  else
    match extracted_output st with
    | None => Ok None
    | Some output => validate_output output
    end.

Definition allowed_tools : list string :=
  ["Bash"; "Read"; "Write"; "Edit"; "Glob"; "Grep"; "NotebookEdit";
   "WebFetch"; "WebSearch"; "TodoWrite"; "BashOutput"; "KillBash"].

(** Lines 206 to 279 of [run_agent]: the prompt, the log, the stream.
    [Raise] is an exception that leaves [run_agent]; [Ok None] is the
    [return None] of the [except Exception] clause; [Ok (Some st)] is
    the end of the stream, with the log closed.  An exception that is
    no [Exception] passes the clause: it leaves [run_agent] with the
    log as it is, without the footer and not closed. *)
Definition session (instance : instance) (repo_dir model : string)
  (max_turns : nat) (log_dir : option string) (project_dir : string)
  (w : world) : outcome (option loop_state) * world :=
  match PyDict.get "instance_id" instance with
  | None => (Raise (KeyError "instance_id"), w)
  | Some instance_id =>
      let build_dir :=
        path_join (path_join (abspath host project_dir) "tmp")
          ("docker_build_" ++ instance_id) in
      match build_user_prompt instance build_dir with
      | Raise exc => (Raise exc, w)
      | Ok user_prompt =>
          let options :=
            {| opt_model := model;
               opt_system_prompt := SYSTEM_PROMPT;
               opt_allowed_tools := allowed_tools;
               opt_permission_mode := "bypassPermissions";
               opt_cwd := repo_dir;
               opt_max_turns := max_turns |} in
          match _open_trajectory_log instance_id user_prompt log_dir w with
          | (Raise exc, w) => (Raise exc, w)
          | (Ok log_file, w) =>
              let messages := query host user_prompt options in
              let start :=
                {| result_message := None;
                   last_assistant_text := None;
                   turn_count := 0 |} in
              match consume log_file (yielded messages) (raised messages)
                      start w with
              | (Raise (Exn class_name message), w) =>
                  let exc := Exn class_name message in
                  let w :=
                    _append_to_log log_file
                      [("role", PStr "error"); ("error", PStr (str_exn exc))]
                      w in
                  let w := _close_trajectory_log log_file w in
                  (Ok None, w)
              | (Raise exc, w) => (Raise exc, w)
              | (Ok st, w) =>
                  let w := _close_trajectory_log log_file w in
                  (Ok (Some st), w)
              end
          end
      end
  end.

Definition run_agent (instance : instance) (repo_dir model : string)
  (max_turns : nat) (log_dir : option string) (project_dir : string)
  (w : world) : outcome (option dict) * world :=
  match session instance repo_dir model max_turns log_dir project_dir w with
  | (Raise exc, w) => (Raise exc, w)
  | (Ok None, w) => (Ok None, w)
  | (Ok (Some st), w) => (finish st, w)
  end.

End Driver.

(* ================================================================== *)
(** ** Repository preparation ([shovel/utils.py]) and the pipeline
    ([shovel/cli.py]) *)

Section Pipeline.
Context {json : JsonDecoder} {unidiff : Unidiff}.
Variable host : Host.

(** [subprocess.run(argv, cwd=cwd, check=True, capture_output=True,
    timeout=timeout)] *)
Definition subprocess_run (argv : list string) (cwd : option string)
  (timeout : nat) (w : world) : outcome unit * world :=
  let r := proc host (List.length w) argv in
  let w := w ++ [Run argv cwd timeout r] in
  match r with
  | Exited 0 => (Ok tt, w)
  | Exited _ => (Raise (Exn "CalledProcessError" "non-zero exit status"), w)
  | TimedOut => (Raise (Exn "TimeoutExpired" "timed out"), w)
  end.

Definition clone_repo (instance : instance) (repo_root_dir : string)
  (w : world) : outcome (option string) * world :=
  match PyDict.get "instance_id" instance with
  | None => (Raise (KeyError "instance_id"), w)
  | Some instance_id =>
  match PyDict.get "repo" instance with
  | None => (Raise (KeyError "repo"), w)
  | Some repo =>
  match PyDict.get "base_commit" instance with
  | None => (Raise (KeyError "base_commit"), w)
  | Some base_commit =>
      let repo_dir := path_join repo_root_dir instance_id in
      let reset := ["git"; "reset"; "--hard"; base_commit] in
      let clone (w : world) : outcome (option string) * world :=
        match subprocess_run
                ["git"; "clone"; "-o"; "origin";
                 ("https://github.com/" ++ repo)%string; repo_dir]
                None 300 w with
        | (Raise _, w) => (Ok None, w)
        | (Ok _, w) =>
            match subprocess_run reset (Some repo_dir) 120 w with
            | (Raise _, w) => (Ok None, w)
            | (Ok _, w) => (Ok (Some repo_dir), w)
            end
        end in
      if isdir host repo_dir then
        match subprocess_run reset (Some repo_dir) 120 w with
        | (Raise _, w) => clone (w ++ [Rmtree repo_dir])
        | (Ok _, w) =>
            match subprocess_run ["git"; "clean"; "-fd"] (Some repo_dir) 60 w
            with
            | (Raise _, w) => clone (w ++ [Rmtree repo_dir])
            | (Ok _, w) => (Ok (Some repo_dir), w)
            end
        end
      else clone w
  end end end.

(** The body of [process_instance].  The semaphore bounds how many
    bodies run at once and has no part in what one body returns. *)
Definition process_instance (instance : instance) (repo_root_dir model : string)
  (max_turns : nat) (log_dir : option string) (project_dir : string)
  (w : world) : outcome (string * option dict) * world :=
  match PyDict.get "instance_id" instance with
  | None => (Raise (KeyError "instance_id"), w)
  | Some instance_id =>
      match clone_repo instance repo_root_dir w with
      | (Raise exc, w) => (Raise exc, w)
      | (Ok None, w) =>
          (Ok (instance_id, Some [("instance_id", PStr instance_id)]), w)
      | (Ok (Some repo_dir), w) =>
          match run_agent host instance repo_dir model max_turns log_dir
                  project_dir w with
          | (Raise exc, w) => (Raise exc, w)
          | (Ok result, w) =>
              let result :=
                match result with
                | Some result => result
                | None => []
                end in
              let result :=
                PyDict.set "instance_id" (PStr instance_id) result in
              (Ok (instance_id, Some result), w)
          end
      end
  end.

(** The text after the last [c] of [s], when [s] has one. *)
Fixpoint after_last (c : ascii) (s : string) : option string :=
  match s with
  | EmptyString => None
  | String x s' =>
      match after_last c s' with
      | Some r => Some r
      | None => if Ascii.eqb x c then Some s' else None
      end
  end.

(** [s.split(c)] *)
Fixpoint split_on (c : ascii) (s : string) : list string :=
  match s with
  | EmptyString => [EmptyString]
  | String x s' =>
      match split_on c s' with
      | part :: parts =>
          if Ascii.eqb x c then EmptyString :: part :: parts
          else String x part :: parts
      | [] => [String x EmptyString]
      end
  end.

(** [Path(p).name]: the last component of [p], where the components
    are the parts between separators that are not empty and not [.]
    (so that trailing separators do not count); empty when there is no
    component. *)
Definition path_name (p : string) : string :=
  last (filter (fun part => negb (is_empty part || String.eqb part "."))
          (split_on "/" p))
    EmptyString.

(** [Path(p).suffix]: the name from its last dot on, unless that dot
    is its first or its last character. *)
Definition path_suffix (p : string) : string :=
  let name := path_name p in
  match after_last "." name with
  | Some ext =>
      if negb (is_empty ext) && (S (String.length ext) <? String.length name)
      then String "." ext
      else EmptyString
  | None => EmptyString
  end.

(** [{item["instance_id"]: item for item in items}] *)
Fixpoint by_instance_id (items : list instance)
  (instances : list (string * instance))
  : outcome (list (string * instance)) :=
  match items with
  | [] => Ok instances
  | item :: rest =>
      match PyDict.get "instance_id" item with
      | None => Raise (KeyError "instance_id")
      | Some id => by_instance_id rest (PyDict.set id item instances)
      end
  end.

Definition load_instances (dataset : string) (split : option string)
  : outcome (list (string * instance)) :=
  if String.eqb (path_suffix dataset) ".json" then
    match json_file host dataset with
    | Raise exc => Raise exc
    | Ok (JsonArray data) => by_instance_id data []
    | Ok (JsonObject data) => Ok data
    end
  else if String.eqb (path_suffix dataset) ".jsonl" then
    match jsonl_file host dataset with
    | Raise exc => Raise exc
    | Ok items => by_instance_id items []
    end
  else
    match hub_dataset host dataset split with
    | Raise exc => Raise exc
    | Ok ds => by_instance_id ds []
    end.

Definition _load_existing_results (cfg : RunConfig) : dict :=
  if negb (cfg_resume cfg) then []
  else
    match stored_results host (cfg_output cfg) with
    | None => []
    | Some existing => existing
    end.

(** The order in which [asyncio.as_completed] hands the tasks over: at
    each step the host names which of the pending tasks is done next. *)
Fixpoint completion_order {A : Type} (step n : nat) (pending : list A)
  : list A :=
  match n with
  | O => []
  | S n' =>
      let i := completes_next host step mod List.length pending in
      match nth_error pending i with
      | Some task =>
          task
          :: completion_order (S step) n'
               (firstn i pending ++ skipn (S i) pending)
      | None => []
      end
  end.

Definition as_completed {A : Type} (tasks : list A) : list A :=
  completion_order 0 (List.length tasks) tasks.

(** [for coro in asyncio.as_completed(tasks)], lines 140 to 153.  A
    task is run where it completes: its effects on the world are put
    at its place in the completion order. *)
Fixpoint collect (cfg : RunConfig) (completed : list instance)
  (all_results : dict) (w : world) : outcome dict * world :=
  match completed with
  | [] => (Ok all_results, w)
  | instance :: rest =>
      match process_instance instance (cfg_repo_dir cfg) (cfg_model cfg)
              (cfg_max_turns cfg) (cfg_log_dir cfg) (cfg_project_dir cfg) w
      with
      | (Raise exc, w) => (Raise exc, w)
      | (Ok (instance_id, None), w) => collect cfg rest all_results w
      | (Ok (instance_id, Some result), w) =>
          let all_results :=
            PyDict.set instance_id (PDict result) all_results in
          if negb (open_ok host (cfg_output cfg)) then
            (Raise (Exn "OSError" (cfg_output cfg)), w)
          else
            collect cfg rest all_results
              (w ++ [Dump (cfg_output cfg) all_results])
      end
  end.

(** The mapping [instances] of [run_pipeline] at line 119: what the
    filters and the resume step leave to be processed. *)
Definition work_set (cfg : RunConfig) : list (string * instance) :=
  match load_instances (cfg_input cfg) (cfg_split cfg) with
  | Raise _ => []
  | Ok instances =>
      let instances := _filter_instances instances cfg in
      let all_results := _load_existing_results cfg in
      match all_results with
      | [] => instances
      | _ =>
          PyDict.filter_keys (fun k => negb (PyDict.mem k all_results))
            instances
      end
  end.

(** Lines 156 to 161 of [run_pipeline]: the two counts of the closing
    summary, over every record of the mapping. *)
Definition summary_counts (all_results : dict) : outcome (nat * nat) :=
  let count (key : string) (default : pyval) (needle : string)
    : outcome nat :=
    fold_left
      (fun (acc : outcome nat) (val : pyval) =>
         match acc with
         | Raise exc => Raise exc
         | Ok n =>
             match val with
             | PDict record =>
                 let field :=
                   match PyDict.get key record with
                   | Some v => v
                   | None => default
                   end in
                 match py_in needle field with
                 | Raise exc => Raise exc
                 | Ok true => Ok (S n)
                 | Ok false => Ok n
                 end
             | _ => Raise (Exn "AttributeError" "object has no attribute 'get'")
             end
         end)
      (PyDict.values all_results) (Ok 0) in
  match count "eval_script" (PStr "") "OMNIGRIL_EXIT_CODE" with
  | Raise exc => Raise exc
  | Ok omnigril_count =>
      match count "setup_scripts" (PDict []) "setup_repo.sh" with
      | Raise exc => Raise exc
      | Ok setup_count => Ok (omnigril_count, setup_count)
      end
  end.

(** [run_pipeline]; the value is the mapping [all_results] it ends
    with, or [None] when it returns before there is one to write. *)
Definition run_pipeline (cfg : RunConfig) (w : world)
  : outcome (option dict) * world :=
  match load_instances (cfg_input cfg) (cfg_split cfg) with
  | Raise exc => (Raise exc, w)
  | Ok instances =>
  let instances := _filter_instances instances cfg in
  match instances with
  | [] => (Ok None, w)
  | _ =>
      if negb (makedirs_ok host (cfg_repo_dir cfg)) then
        (Raise (Exn "OSError" (cfg_repo_dir cfg)), w)
      else
      let w := w ++ [Makedirs (cfg_repo_dir cfg)] in
      let all_results := _load_existing_results cfg in
      let instances :=
        match all_results with
        | [] => instances
        | _ =>
            PyDict.filter_keys (fun k => negb (PyDict.mem k all_results))
              instances
        end in
      match instances with
      | [] => (Ok None, w)
      | _ =>
          let tasks := PyDict.values instances in
          match collect cfg (as_completed tasks) all_results w with
          | (Raise exc, w) => (Raise exc, w)
          | (Ok all_results, w) =>
              match summary_counts all_results with
              | Raise exc => (Raise exc, w)
              | Ok _ => (Ok (Some all_results), w)
              end
          end
      end
  end
  end.

End Pipeline.

(* ================================================================== *)
(** * The vocabulary of the specification *)

(** *** The vocabulary of the extraction's specification *)

Section ExtractionSpec.
Context {json : JsonDecoder}.

(** A candidate is taken when [json.loads] gives a mapping. *)
Definition accepted (candidate : string) (d : dict) : Prop :=
  json_loads candidate = Some (PDict d).

(** A strategy is passed over when it has no candidate, or its
    candidate does not load, or loads to something that is no mapping. *)
Definition passed_over (candidate : option string) : Prop :=
  forall g d, candidate = Some g -> ~ accepted g d.

(** Position [i] of [text] holds an opening brace and the decoder,
    started there, gives the mapping [d]. *)
Definition decodes_at (text : string) (i : nat) (d : dict) : Prop :=
  PyStr.at_ i text = Some "{"%char
  /\ exists stop, raw_decode (PyStr.from i text) = Some (PDict d, stop).

Definition first_decoding (text : string) (i : nat) (d : dict) : Prop :=
  decodes_at text i d /\ forall j d', j < i -> ~ decodes_at text j d'.

End ExtractionSpec.

(** *** The touched files as the two readings of the specification give them *)

(** Every entry whose source side is not [/dev/null], with its first two
    characters removed. *)
Definition touched_unconditionally (files : list PatchedFile) : list string :=
  map (PyStr.from 2)
    (filter (fun src => negb (String.eqb src "/dev/null"))
       (map source_file files)).

(** Every entry whose source side is not [/dev/null] and starts with
    [a/], with that prefix removed. *)
Definition touched_with_prefix (files : list PatchedFile) : list string :=
  flat_map
    (fun file_obj =>
       let src := source_file file_obj in
       if String.eqb src "/dev/null" then []
       else if PyStr.startswith "a/" src then [PyStr.from 2 src]
       else [])
    files.

(** *** The vocabulary of the validation's specification *)

(** A record lacks a required field, or its [setup_scripts] mapping
    lacks the entry [setup_repo.sh]. *)
Definition lacks_required (d : dict) : Prop :=
  (exists key, In key required_keys /\ PyDict.mem key d = false)
  \/ (exists scripts, PyDict.get "setup_scripts" d = Some (PDict scripts)
                      /\ PyDict.mem "setup_repo.sh" scripts = false).

(** A record passes the checks on its fields: the three fields are
    there and [setup_repo.sh] is found in [setup_scripts]. *)
Definition passes_field_validation (d : dict) : Prop :=
  (forall key, In key required_keys -> PyDict.mem key d = true)
  /\ exists scripts, PyDict.get "setup_scripts" d = Some scripts
                     /\ py_in "setup_repo.sh" scripts = Ok true.

(** The two fields that the validation reads have the types the output
    format gives them: [setup_scripts] is a container that [in] can
    search and [eval_script] is a string. *)
Definition typed_as_documented (d : dict) : Prop :=
  (forall v, PyDict.get "setup_scripts" d = Some v ->
             exists b, py_in "setup_repo.sh" v = Ok b)
  /\ (forall v, PyDict.get "eval_script" d = Some v -> exists s, v = PStr s).

(** *** The vocabulary of the driver's specification *)

(** The three fields that [run_agent] reads by subscript. *)
Definition has_required_fields (instance : instance) : Prop :=
  exists instance_id repo base_commit,
    PyDict.get "instance_id" instance = Some instance_id
    /\ PyDict.get "repo" instance = Some repo
    /\ PyDict.get "base_commit" instance = Some base_commit.

(** The stream ends by raising, before any result event. *)
Definition stream_fails (messages : stream) : Prop :=
  raised messages <> None
  /\ forall m, In m (yielded messages) -> forall r, m <> Result r.

(** The stream raises nothing but instances of [Exception]: the task
    is not cancelled and the process not interrupted while it waits
    for the agent. *)
Definition exceptions_only (messages : stream) : Prop :=
  forall class_name message,
    raised messages <> Some (BaseExn class_name message).


(** The path of the trajectory log of an instance. *)
Definition log_path_of (log_dir instance_id : string) : string :=
  path_join log_dir (PyStr.replace_char "/" "__" instance_id ++ ".jsonl").

(** *** The vocabulary of the pipeline's specification *)

(** No event of [new] writes the output file. *)
Definition no_dump (new : world) : Prop :=
  Forall (fun e => match e with Dump _ _ => False | _ => True end) new.

(** [w'] is [w] followed by events that do not write the output file. *)
Definition grows_quietly (w w' : world) : Prop :=
  exists new, w' = w ++ new /\ no_dump new.



(** The entry under [k] is a record whose [instance_id] is [k]. *)
Definition self_identified (k : string) (all_results : dict) : Prop :=
  exists r, PyDict.get k all_results = Some (PDict r)
            /\ PyDict.get "instance_id" r = Some (PStr k).

(** The placeholder stored for an instance that gave no result. *)
Definition placeholder (instance_id : string) : dict :=
  [("instance_id", PStr instance_id)].

(** The content of the output file [path] after the events [new] of a
    run: what the last [json.dump] wrote, or what was stored before. *)
Fixpoint last_dump (path : string) (new : world) (stored : option dict)
  : option dict :=
  match new with
  | [] => stored
  | Dump p all_results :: rest =>
      if String.eqb p path then last_dump path rest (Some all_results)
      else last_dump path rest stored
  | _ :: rest => last_dump path rest stored
  end.

(** Every instance is stored under its own [instance_id], as
    [load_instances] builds the mapping from a list of records. *)
Definition keyed_by_id (instances : list (string * instance)) : Prop :=
  forall k inst, In (k, inst) instances ->
                 PyDict.get "instance_id" inst = Some k.

(** The writes of the entries [entries] to the log at [path]. *)
Definition entry_writes (path : string) (entries : list dict) : world :=
  map (fun data => Write path (Entry data)) entries.

(** ** The vocabulary of the further properties *)

(** *** The vocabulary of the language detection *)

(** The language of a file: that of the first extension of the table,
    in its order, that ends the path. *)
Definition language_of (file_path : string) : option string :=
  match find (fun el => PyStr.endswith (fst el) file_path)
          EXTENSION_TO_LANGUAGE with
  | Some (_, lang) => Some lang
  | None => None
  end.

(** How many of the files have the language [lang]. *)
Definition files_in (lang : string) (files : list string) : nat :=
  List.length
    (filter (fun f => match language_of f with
                      | Some l => String.eqb l lang
                      | None => false
                      end) files).

(** The counting loop of [detect_language], from the counts
    [lang_counts] on. *)
Definition count_languages (files : list string)
  (lang_counts : list (string * nat)) : list (string * nat) :=
  fold_left
    (fun (lang_counts : list (string * nat)) (file_path : string) =>
       match find (fun el => PyStr.endswith (fst el) file_path)
               EXTENSION_TO_LANGUAGE with
       | Some (_, lang) =>
           let n := match PyDict.get lang lang_counts with
                    | Some n => n
                    | None => 0
                    end in
           PyDict.set lang (n + 1) lang_counts
       | None => lang_counts
       end)
    files lang_counts.

(** The counts agree with the files seen: the keys are distinct, and a
    language has an entry when a file seen has it, with their number. *)
Definition counts_of (seen : list string) (lang_counts : list (string * nat))
  : Prop :=
  NoDup (PyDict.keys lang_counts)
  /\ forall lang,
       PyDict.get lang lang_counts
       = if files_in lang seen =? 0 then None
         else Some (files_in lang seen).

(** *** The vocabulary of the dataset loader *)

(** The dataset is given as the records [items]: the elements of a JSON
    array, the lines of a JSONL file or the rows of a hub dataset. *)
Definition given_as_records (host : Host) (dataset : string)
  (split : option string) (items : list instance) : Prop :=
  if String.eqb (path_suffix dataset) ".json" then
    json_file host dataset = Ok (JsonArray items)
  else if String.eqb (path_suffix dataset) ".jsonl" then
    jsonl_file host dataset = Ok items
  else hub_dataset host dataset split = Ok items.

(** Whether the [instance_id] of [item] is [k]. *)
Definition has_id (k : string) (item : instance) : bool :=
  match PyDict.get "instance_id" item with
  | Some id => String.eqb id k
  | None => false
  end.

(** The last record of [items] whose [instance_id] is [k]. *)
Definition last_with_id (k : string) (items : list instance)
  : option instance :=
  find (has_id k) (rev items).

(** The [instance_id] of a record that has one. *)
Definition record_id (item : instance) : string :=
  match PyDict.get "instance_id" item with
  | Some id => id
  | None => EmptyString
  end.

(** *** The vocabulary of the repository preparation *)

(** The three commands of [clone_repo] for a checkout in [dir], each
    with the way it ended. *)
Definition git_reset (base_commit dir : string) (r : cmd_result) : event :=
  Run ["git"; "reset"; "--hard"; base_commit] (Some dir) 120 r.

Definition git_clean (dir : string) (r : cmd_result) : event :=
  Run ["git"; "clean"; "-fd"] (Some dir) 60 r.

Definition git_clone (repo dir : string) (r : cmd_result) : event :=
  Run ["git"; "clone"; "-o"; "origin";
       ("https://github.com/" ++ repo)%string; dir]
    None 300 r.

(** A host that answers as [host] does, with a directory at every path
    and subprocesses that end as [procs] says. *)
Definition with_checkouts (host : Host)
  (procs : nat -> list string -> cmd_result) : Host :=
  {| abspath := abspath host;
     query := query host;
     makedirs_ok := makedirs_ok host;
     open_ok := open_ok host;
     write_ok := write_ok host;
     isdir := fun _ => true;
     proc := procs;
     json_file := json_file host;
     jsonl_file := jsonl_file host;
     hub_dataset := hub_dataset host;
     stored_results := stored_results host;
     completes_next := completes_next host |}.

(** *** The vocabulary of the result records *)

(** Whether an event writes an output file. *)
Definition is_dump (e : event) : bool :=
  match e with Dump _ _ => true | _ => false end.

(** A record that went through the checks of [run_agent]: the three
    required fields are there, [setup_repo.sh] is found in
    [setup_scripts] and the marker is found in [eval_script]. *)
Definition complete_record (r : dict) : Prop :=
  (forall key, In key required_keys -> PyDict.mem key r = true)
  /\ (exists scripts, PyDict.get "setup_scripts" r = Some scripts
                      /\ py_in "setup_repo.sh" scripts = Ok true)
  /\ (exists script, PyDict.get "eval_script" r = Some script
                     /\ py_in "OMNIGRIL_EXIT_CODE" script = Ok true).

(** What a task hands over for the instance [k]: the placeholder, or a
    complete record, that carries the id. *)
Definition task_record (k : string) (r : dict) : Prop :=
  PyDict.get "instance_id" r = Some (PStr k)
  /\ (r = placeholder k \/ complete_record r).

(** *** The vocabulary of the stream loop *)

(** The messages that the loop of [run_agent] reads: those up to the
    first result event, or up to an assistant message on one of whose
    tool uses the summary raises, that message included. *)
Fixpoint read_messages (messages : list Message) : list Message :=
  match messages with
  | [] => []
  | message :: rest =>
      message
      :: match message with
         | Result _ => []
         | AssistantMessage _ content =>
             match assistant_content content [] with
             | Raise _ => []
             | Ok _ => read_messages rest
             end
         | _ => read_messages rest
         end
  end.

(** The log entries of the messages that serialise. *)
Definition log_entries (messages : list Message) : list dict :=
  flat_map (fun message => match _serialize_message message with
                           | Some serialized => [serialized]
                           | None => []
                           end) messages.

(** The texts of the text blocks of a message content. *)
Definition text_blocks_of (content : list ContentBlock) : list string :=
  flat_map (fun block => match block with
                         | TextBlock text => [text]
                         | _ => []
                         end) content.

(** The text of the last message of the list that is an assistant
    message with a text block, its text blocks joined by line feeds;
    [before] when there is none. *)
Definition final_text (messages : list Message) (before : option string)
  : option string :=
  fold_left
    (fun (text : option string) (message : Message) =>
       match message with
       | AssistantMessage _ content =>
           match text_blocks_of content with
           | [] => text
           | texts => Some (PyStr.join nl texts)
           end
       | _ => text
       end) messages before.

(** Every value of a tool input is a string, but for [todos], which
    may be a list. *)
Definition plain_tool_input (input_data : dict) : Prop :=
  forall key v, PyDict.get key input_data = Some v ->
    (exists s, v = PStr s) \/ (key = "todos" /\ exists l, v = PList l).

(** No message of the list is a result event. *)
Definition no_result (messages : list Message) : Prop :=
  forall m, In m messages -> forall r, m <> Result r.

(** The text that the system prompt asks the agent to end with, around
    the record text [record]. *)
Definition wrapped_answer (record : string) : string :=
  "<SHOVEL_OUTPUT_JSON>" ++ nl ++ "```json" ++ nl
  ++ record ++ nl ++ "```" ++ nl ++ "</SHOVEL_OUTPUT_JSON>".

(** What follows the lazy star of the wrapper pattern. *)
Definition after_star : Re.pattern :=
  Re.Lit "}" :: Re.GroupClose :: Re.Spaces
  :: Re.lits "```" ++ Re.Spaces :: Re.lits "</SHOVEL_OUTPUT_JSON>".

(** The host after a run: the output file holds [final], everything
    else is as [host] has it. *)
Definition with_stored (host : Host) (final : dict) : Host :=
  {| abspath := abspath host;
     query := query host;
     makedirs_ok := makedirs_ok host;
     open_ok := open_ok host;
     write_ok := write_ok host;
     isdir := isdir host;
     proc := proc host;
     json_file := json_file host;
     jsonl_file := jsonl_file host;
     hub_dataset := hub_dataset host;
     stored_results := fun _ => Some final;
     completes_next := completes_next host |}.

(** [cfg] with the resume flag set. *)
Definition with_resume (cfg : RunConfig) : RunConfig :=
  {| cfg_input := cfg_input cfg;
     cfg_output := cfg_output cfg;
     cfg_repo_dir := cfg_repo_dir cfg;
     cfg_model := cfg_model cfg;
     cfg_max_workers := cfg_max_workers cfg;
     cfg_max_turns := cfg_max_turns cfg;
     cfg_split := cfg_split cfg;
     cfg_instance_ids := cfg_instance_ids cfg;
     cfg_start := cfg_start cfg;
     cfg_end := cfg_end cfg;
     cfg_log_dir := cfg_log_dir cfg;
     cfg_resume := true;
     cfg_project_dir := cfg_project_dir cfg |}.

(* ================================================================== *)
(** * Sample inputs *)

(** A reader of the [---]/[+++] header pairs of a unified diff, used as
    the [unidiff] library in the examples. *)
Module HeaderReader.

Fixpoint split_nl (s : string) : list string :=
  match s with
  | EmptyString => [EmptyString]
  | String c s' =>
      match split_nl s' with
      | l :: ls =>
          if Ascii.eqb c (ascii_of_nat 10) then EmptyString :: l :: ls
          else String c l :: ls
      | [] => [String c EmptyString]
      end
  end.

Fixpoint until_tab (s : string) : string :=
  match s with
  | EmptyString => EmptyString
  | String c s' =>
      if Ascii.eqb c (ascii_of_nat 9) then EmptyString
      else String c (until_tab s')
  end.

Fixpoint scan_headers (lines : list string) : list PatchedFile :=
  match lines with
  | [] => []
  | l1 :: rest =>
      match rest with
      | l2 :: _ =>
          if String.prefix "--- " l1 && String.prefix "+++ " l2 then
            {| source_file := until_tab (PyStr.from 4 l1);
               target_file := until_tab (PyStr.from 4 l2) |}
            :: scan_headers rest
          else scan_headers rest
      | [] => []
      end
  end.

#[export] Instance reader : Unidiff :=
  {| PatchSet := fun patch => Some (scan_headers (split_nl patch)) |}.

End HeaderReader.

(** A diff of one modified file, written without the [a/] and [b/]
    prefixes (as [git diff --no-prefix] and [diff -u] write it). *)
Definition unprefixed_patch : string :=
  "--- foo.py" ++ nl ++ "+++ foo.py" ++ nl ++ "@@ -1 +1 @@" ++ nl
  ++ "-x" ++ nl ++ "+y" ++ nl.

(** A diff of one modified and one added file, in git's default form. *)
Definition git_patch : string :=
  "diff --git a/tests/test_x.py b/tests/test_x.py" ++ nl
  ++ "--- a/tests/test_x.py" ++ nl ++ "+++ b/tests/test_x.py" ++ nl
  ++ "@@ -1 +1 @@" ++ nl ++ "-x" ++ nl ++ "+y" ++ nl
  ++ "diff --git a/tests/new.py b/tests/new.py" ++ nl
  ++ "--- /dev/null" ++ nl ++ "+++ b/tests/new.py" ++ nl
  ++ "@@ -0,0 +1 @@" ++ nl ++ "+z" ++ nl.

(** The defaults of the command line ([build_parser]). *)
Definition default_cfg : RunConfig :=
  {| cfg_input := "instances.json";
     cfg_output := "docker_res.json";
     cfg_repo_dir := "./repo";
     cfg_model := "claude-sonnet-4-5-20250929";
     cfg_max_workers := 4;
     cfg_max_turns := 100;
     cfg_split := None;
     cfg_instance_ids := None;
     cfg_start := None;
     cfg_end := None;
     cfg_log_dir := Some "./logs";
     cfg_resume := false;
     cfg_project_dir := "." |}.

(** [cfg] with the two filters set as given. *)
Definition with_filters (cfg : RunConfig) (ids : option (list string))
  (start end_ : option Z) : RunConfig :=
  {| cfg_input := cfg_input cfg;
     cfg_output := cfg_output cfg;
     cfg_repo_dir := cfg_repo_dir cfg;
     cfg_model := cfg_model cfg;
     cfg_max_workers := cfg_max_workers cfg;
     cfg_max_turns := cfg_max_turns cfg;
     cfg_split := cfg_split cfg;
     cfg_instance_ids := ids;
     cfg_start := start;
     cfg_end := end_;
     cfg_log_dir := cfg_log_dir cfg;
     cfg_resume := cfg_resume cfg;
     cfg_project_dir := cfg_project_dir cfg |}.

(* ================================================================== *)
(** ** A JSON decoder for the examples

    A decoder that follows the grammar of Python's [json] module
    (whitespace, literals, numbers, strings with their escapes, arrays,
    objects with the last of two equal keys winning) on the alphabet of
    the model; a [\u] escape above U+00FF is outside that alphabet and
    is not decoded.  The properties below hold for every decoder; this
    one runs the examples. *)

Module Json.

Definition is_ws (c : ascii) : bool :=
  let n := nat_of_ascii c in
  (n =? 32) || (n =? 9) || (n =? 10) || (n =? 13).

Fixpoint skip_ws (s : string) : string :=
  match s with
  | String c s' => if is_ws c then skip_ws s' else s
  | EmptyString => s
  end.

Definition is_digit (c : ascii) : bool :=
  let n := nat_of_ascii c in (48 <=? n) && (n <=? 57).

Definition hex_value (c : ascii) : option nat :=
  let n := nat_of_ascii c in
  if (48 <=? n) && (n <=? 57) then Some (n - 48)
  else if (65 <=? n) && (n <=? 70) then Some (n - 55)
  else if (97 <=? n) && (n <=? 102) then Some (n - 87)
  else None.

Definition simple_escape (c : ascii) : option ascii :=
  let n := nat_of_ascii c in
  if n =? 34 then Some c                         (* quote *)
  else if n =? 92 then Some c                    (* backslash *)
  else if n =? 47 then Some c                    (* solidus *)
  else if n =? 98 then Some (ascii_of_nat 8)     (* b *)
  else if n =? 102 then Some (ascii_of_nat 12)   (* f *)
  else if n =? 110 then Some (ascii_of_nat 10)   (* n *)
  else if n =? 114 then Some (ascii_of_nat 13)   (* r *)
  else if n =? 116 then Some (ascii_of_nat 9)    (* t *)
  else None.

(** The characters of a string after its opening quote, up to the
    closing one: the decoded text and what follows the string. *)
Fixpoint scan_string (s : string) (acc : string) : option (string * string) :=
  match s with
  | EmptyString => None
  | String c s' =>
      if nat_of_ascii c =? 34 then Some (acc, s')
      else if nat_of_ascii c =? 92 then
        match s' with
        | EmptyString => None
        | String e s'' =>
            match simple_escape e with
            | Some ch => scan_string s'' (acc ++ String ch EmptyString)
            | None =>
                if nat_of_ascii e =? 117 then
                  match s'' with
                  | String h1 (String h2 (String h3 (String h4 rest))) =>
                      match hex_value h1, hex_value h2,
                            hex_value h3, hex_value h4 with
                      | Some 0, Some 0, Some a, Some b =>
                          scan_string rest
                            (acc ++ String (ascii_of_nat (16 * a + b))
                                      EmptyString)
                      | _, _, _, _ => None
                      end
                  | _ => None
                  end
                else None
            end
        end
      else if nat_of_ascii c <? 32 then None
      else scan_string s' (acc ++ String c EmptyString)
  end.

Fixpoint take_digits (s : string) : string * string :=
  match s with
  | String c s' =>
      if is_digit c then
        let (ds, rest) := take_digits s' in (String c ds, rest)
      else (EmptyString, s)
  | EmptyString => (EmptyString, s)
  end.

Fixpoint decimal (ds : string) (acc : Z) : Z :=
  match ds with
  | EmptyString => acc
  | String c ds' => decimal ds' (10 * acc + Z.of_nat (nat_of_ascii c - 48))%Z
  end.

(** A number at the start of [s]: an optional minus sign, an integer
    part without a leading zero, then an optional fraction and an
    optional exponent, each taken only when it has a digit. *)
Definition scan_number (s : string) : option (pyval * string) :=
  let (neg, s1) :=
    match s with
    | String c s' => if nat_of_ascii c =? 45 then (true, s') else (false, s)
    | EmptyString => (false, s)
    end in
  let int_part : option (string * string) :=
    match s1 with
    | String c s' =>
        if nat_of_ascii c =? 48 then Some (String c EmptyString, s')
        else if is_digit c then Some (take_digits s1)
        else None
    | EmptyString => None
    end in
  match int_part with
  | None => None
  | Some (ds, s2) =>
      let (frac, s3) :=
        match s2 with
        | String c s' =>
            if nat_of_ascii c =? 46 then
              match take_digits s' with
              | (EmptyString, _) => (EmptyString, s2)
              | (fs, rest) => (String c fs, rest)
              end
            else (EmptyString, s2)
        | EmptyString => (EmptyString, s2)
        end in
      let (exp, s4) :=
        match s3 with
        | String c s' =>
            if (nat_of_ascii c =? 101) || (nat_of_ascii c =? 69) then
              let (sign, s'') :=
                match s' with
                | String g r =>
                    if (nat_of_ascii g =? 43) || (nat_of_ascii g =? 45)
                    then (String g EmptyString, r)
                    else (EmptyString, s')
                | EmptyString => (EmptyString, s')
                end in
              match take_digits s'' with
              | (EmptyString, _) => (EmptyString, s3)
              | (es, rest) => (String c (sign ++ es), rest)
              end
            else (EmptyString, s3)
        | EmptyString => (EmptyString, s3)
        end in
      let sign := if neg then "-" else "" in
      match frac, exp with
      | EmptyString, EmptyString =>
          let n := decimal ds 0 in
          Some (PInt (if neg then (- n)%Z else n), s4)
      | _, _ => Some (PFloat (sign ++ ds ++ frac ++ exp), s4)
      end
  end.

Definition literal (word : string) (v : pyval) (s : string)
  : option (pyval * string) :=
  if String.prefix word s then Some (v, PyStr.from (String.length word) s)
  else None.

(** [scan_once]: one value at the start of [s], and what follows it.
    Every nested value starts at least one character later, so a fuel
    of the length of the text is never used up. *)
Fixpoint scan_once (fuel : nat) (s : string) : option (pyval * string) :=
  match fuel with
  | O => None
  | S fuel' =>
      match s with
      | EmptyString => None
      | String c s' =>
          let n := nat_of_ascii c in
          if n =? 34 then
            match scan_string s' EmptyString with
            | Some (text, rest) => Some (PStr text, rest)
            | None => None
            end
          else if n =? 123 then
            match skip_ws s' with
            | String c1 r1 =>
                if nat_of_ascii c1 =? 125 then Some (PDict [], r1)
                else
                  (fix members (k : nat) (s : string) (acc : dict)
                     : option (pyval * string) :=
                     match k with
                     | O => None
                     | S k' =>
                         match s with
                         | String q s1 =>
                             if negb (nat_of_ascii q =? 34) then None
                             else
                               match scan_string s1 EmptyString with
                               | None => None
                               | Some (key, s2) =>
                                   match skip_ws s2 with
                                   | String colon s3 =>
                                       if negb (nat_of_ascii colon =? 58)
                                       then None
                                       else
                                         match scan_once fuel' (skip_ws s3)
                                         with
                                         | None => None
                                         | Some (v, s4) =>
                                             let acc := PyDict.set key v acc in
                                             match skip_ws s4 with
                                             | String d s5 =>
                                                 if nat_of_ascii d =? 125
                                                 then Some (PDict acc, s5)
                                                 else if nat_of_ascii d =? 44
                                                 then members k' (skip_ws s5)
                                                        acc
                                                 else None
                                             | EmptyString => None
                                             end
                                         end
                                   | EmptyString => None
                                   end
                               end
                         | EmptyString => None
                         end
                     end) fuel' (String c1 r1) []
            | EmptyString => None
            end
          else if n =? 91 then
            match skip_ws s' with
            | String c1 r1 =>
                if nat_of_ascii c1 =? 93 then Some (PList [], r1)
                else
                  (fix items (k : nat) (s : string) (acc : list pyval)
                     : option (pyval * string) :=
                     match k with
                     | O => None
                     | S k' =>
                         match scan_once fuel' s with
                         | None => None
                         | Some (v, s1) =>
                             let acc := acc ++ [v] in
                             match skip_ws s1 with
                             | String d s2 =>
                                 if nat_of_ascii d =? 93
                                 then Some (PList acc, s2)
                                 else if nat_of_ascii d =? 44
                                 then items k' (skip_ws s2) acc
                                 else None
                             | EmptyString => None
                             end
                         end
                     end) fuel' (String c1 r1) []
            | EmptyString => None
            end
          else
            match literal "null" PNone s with
            | Some r => Some r
            | None =>
            match literal "true" (PBool true) s with
            | Some r => Some r
            | None =>
            match literal "false" (PBool false) s with
            | Some r => Some r
            | None =>
            match scan_number s with
            | Some r => Some r
            | None =>
            match literal "NaN" (PFloat "nan") s with
            | Some r => Some r
            | None =>
            match literal "Infinity" (PFloat "inf") s with
            | Some r => Some r
            | None => literal "-Infinity" (PFloat "-inf") s
            end end end end end end
      end
  end.

(** [JSONDecoder.raw_decode(s)] *)
Definition decode_prefix (s : string) : option (pyval * nat) :=
  match scan_once (S (String.length s)) s with
  | Some (v, rest) => Some (v, String.length s - String.length rest)
  | None => None
  end.

(** [json.loads(s)]: leading whitespace, one value, trailing whitespace
    and nothing else. *)
Definition loads (s : string) : option pyval :=
  let s := skip_ws s in
  match scan_once (S (String.length s)) s with
  | Some (v, rest) => if is_empty (skip_ws rest) then Some v else None
  | None => None
  end.

#[export] Instance decoder : JsonDecoder :=
  {| json_loads := loads; raw_decode := decode_prefix |}.

End Json.

(* ================================================================== *)
(** ** Sample sessions *)

Module Sample.

Definition q (s : string) : string := dq ++ s ++ dq.

(** A complete record, whose test script lacks the marker. *)
Definition record_text : string :=
  "{" ++ q "dockerfile" ++ ": " ++ q "FROM python:3.11" ++ ", "
  ++ q "eval_script" ++ ": " ++ q "pytest tests\n\n" ++ ", "
  ++ q "setup_scripts" ++ ": {" ++ q "setup_repo.sh" ++ ": "
  ++ q "pip install -e ." ++ "}, "
  ++ q "instance_id" ++ ": " ++ q "someone-else" ++ "}".

(** A complete record, whose test script carries the marker. *)
Definition marked_text : string :=
  "{" ++ q "dockerfile" ++ ": " ++ q "FROM python:3.11" ++ ", "
  ++ q "eval_script" ++ ": " ++ q "pytest; echo OMNIGRIL_EXIT_CODE=$?" ++ ", "
  ++ q "setup_scripts" ++ ": {" ++ q "setup_repo.sh" ++ ": "
  ++ q "pip install -e ." ++ "}}".

(** A record without the entry [setup_repo.sh]. *)
Definition no_setup_text : string :=
  "{" ++ q "dockerfile" ++ ": " ++ q "FROM python:3.11" ++ ", "
  ++ q "eval_script" ++ ": " ++ q "pytest" ++ ", "
  ++ q "setup_scripts" ++ ": {" ++ q "other.sh" ++ ": " ++ q "true" ++ "}}".

(** A record whose test script is a number. *)
Definition ill_typed_text : string :=
  "{" ++ q "dockerfile" ++ ": " ++ q "FROM python:3.11" ++ ", "
  ++ q "eval_script" ++ ": 5, "
  ++ q "setup_scripts" ++ ": {" ++ q "setup_repo.sh" ++ ": "
  ++ q "true" ++ "}}".

(** A record whose test script is a list of lines, none of which is
    the marker. *)
Definition list_script_text : string :=
  "{" ++ q "dockerfile" ++ ": " ++ q "FROM python:3.11" ++ ", "
  ++ q "eval_script" ++ ": [" ++ q "pytest tests" ++ "], "
  ++ q "setup_scripts" ++ ": {" ++ q "setup_repo.sh" ++ ": "
  ++ q "true" ++ "}}".

Definition wrapped (record : string) : string :=
  "Done." ++ nl ++ "<SHOVEL_OUTPUT_JSON>" ++ nl ++ "```json" ++ nl
  ++ record ++ nl ++ "```" ++ nl ++ "</SHOVEL_OUTPUT_JSON>".

Definition final_result (flagged : bool) : ResultMessage :=
  {| subtype := if flagged then "error_during_execution" else "success";
     is_error := flagged;
     num_turns := 2;
     duration_ms := 1000;
     duration_api_ms := 900;
     total_cost_usd := PFloat "0.01";
     usage := PNone;
     session_id := "s-1";
     result := PNone |}.

(** A session of two assistant turns that ends with a result event. *)
Definition answering (answer : string) (flagged : bool) : stream :=
  {| yielded :=
       [ SystemMessage "init" [];
         AssistantMessage "m"
           [ TextBlock "Looking at the repository.";
             ToolUseBlock "t1" "Bash" [("command", PStr "ls")] ];
         UserMessage (inr [ToolResultBlock "t1" (PStr "README.md") None]);
         AssistantMessage "m" [TextBlock answer];
         Result (final_result flagged) ];
     raised := None |}.

(** A session whose stream raises after the first assistant turn. *)
Definition failing : stream :=
  {| yielded := [AssistantMessage "m" [TextBlock "Looking."]];
     raised := Some (Exn "ProcessError" "agent runtime exited") |}.

(** A session whose task is cancelled after the first assistant
    turn. *)
Definition cancelled : stream :=
  {| yielded := [AssistantMessage "m" [TextBlock "Looking."]];
     raised := Some (BaseExn "CancelledError" "") |}.

(** A host on which files can be written; the agent answers with
    [messages], the [n]-th event being a subprocess decides its end by
    [procs], and the output file holds [stored]. *)
Definition host (messages : stream) (procs : nat -> list string -> cmd_result)
  (dataset : list instance) (stored : option dict) : Host :=
  {| abspath := fun p => if String.eqb p "." then "/work"
                         else path_join "/work" p;
     query := fun _ _ => messages;
     makedirs_ok := fun _ => true;
     open_ok := fun _ => true;
     write_ok := fun _ _ => true;
     isdir := fun _ => false;
     proc := procs;
     json_file := fun _ => Ok (JsonArray dataset);
     jsonl_file := fun _ => Ok dataset;
     hub_dataset := fun _ _ => Ok dataset;
     stored_results := fun _ => stored;
     completes_next := fun step => step |}.

Definition all_succeed : nat -> list string -> cmd_result :=
  fun _ _ => Exited 0.

Definition all_fail : nat -> list string -> cmd_result :=
  fun _ _ => Exited 128.

Definition descriptor (id : string) : instance :=
  [ ("instance_id", id); ("repo", "octo/demo");
    ("base_commit", "0123456789abcdef");
    ("problem_statement", "It crashes."); ("test_patch", git_patch);
    ("patch", "") ].

(** A descriptor without the field [repo]. *)
Definition bare_descriptor : instance :=
  [ ("instance_id", "demo-1"); ("base_commit", "0123456789abcdef") ].

Definition dataset (ids : list string) : list instance :=
  map descriptor ids.

(** A bare fenced block, then a wrapper-tagged one. *)
Definition both_blocks : string :=
  "```json" ++ nl ++ "{" ++ q "from" ++ ": " ++ q "bare" ++ "}" ++ nl ++ "```"
  ++ nl ++ "<shovel_output_json> ```JSON" ++ nl
  ++ "{" ++ q "from" ++ ": " ++ q "wrapper" ++ "}" ++ nl
  ++ "```" ++ nl ++ "</SHOVEL_OUTPUT_JSON>".

(** A record and nothing else, with white space around it. *)
Definition bare_record : string :=
  nl ++ "  {" ++ q "from" ++ ": " ++ q "whole" ++ "}  " ++ nl.

(** A record in the middle of prose that has a brace of its own. *)
Definition prose_with_record : string :=
  "The set {a, b} is not it; here it is: {" ++ q "from" ++ ": " ++ q "scan"
  ++ "} and that is all.".

(** An array around a record. *)
Definition array_of_record : string :=
  "[{" ++ q "from" ++ ": " ++ q "inside" ++ "}]".

(** The records that [record_text] and [no_setup_text] spell. *)
Definition record : dict :=
  [ ("dockerfile", PStr "FROM python:3.11");
    ("eval_script", PStr ("pytest tests" ++ nl ++ nl));
    ("setup_scripts", PDict [("setup_repo.sh", PStr "pip install -e .")]);
    ("instance_id", PStr "someone-else") ].

Definition no_setup_record : dict :=
  [ ("dockerfile", PStr "FROM python:3.11");
    ("eval_script", PStr "pytest");
    ("setup_scripts", PDict [("other.sh", PStr "true")]) ].

(** The record that [list_script_text] spells. *)
Definition list_script_record : dict :=
  [ ("dockerfile", PStr "FROM python:3.11");
    ("eval_script", PList [PStr "pytest tests"]);
    ("setup_scripts", PDict [("setup_repo.sh", PStr "true")]) ].

End Sample.

(** The driver run on a sample session, with a log kept under
    [./logs]. *)
Definition sample_run (messages : stream) (instance : instance)
  : outcome (option dict) * world :=
  run_agent (json := Json.decoder) (unidiff := HeaderReader.reader)
    (Sample.host messages Sample.all_succeed [] None)
    instance "./repo/demo-1" "claude-sonnet-4-5-20250929" 100
    (Some "./logs") "." [].




(** A run of the pipeline over the instances a, b and c, the agent
    answering each with [Sample.record_text]. *)
Definition sample_host (procs : nat -> list string -> cmd_result)
  (stored : option dict) : Host :=
  Sample.host (Sample.answering (Sample.wrapped Sample.record_text) false)
    procs (Sample.dataset ["a"; "b"; "c"]) stored.

Definition sample_pipeline (procs : nat -> list string -> cmd_result)
  (stored : option dict) (cfg : RunConfig) : outcome (option dict) * world :=
  run_pipeline (json := Json.decoder) (unidiff := HeaderReader.reader) (sample_host procs stored) cfg [].

Definition resume_cfg : RunConfig :=
  {| cfg_input := "instances.json";
     cfg_output := "docker_res.json";
     cfg_repo_dir := "./repo";
     cfg_model := "claude-sonnet-4-5-20250929";
     cfg_max_workers := 4;
     cfg_max_turns := 100;
     cfg_split := None;
     cfg_instance_ids := None;
     cfg_start := None;
     cfg_end := None;
     cfg_log_dir := Some "./logs";
     cfg_resume := true;
     cfg_project_dir := "." |}.

(** An output file that holds the result of instance a. *)
Definition stored_a : dict :=
  [ ("a", PDict [ ("dockerfile", PStr "FROM python:3.10");
                  ("eval_script", PStr "tox; echo OMNIGRIL_EXIT_CODE=$?");
                  ("setup_scripts", PDict [("setup_repo.sh", PStr "true")]);
                  ("instance_id", PStr "a") ]) ].

(** The extraction with the sample decoder. *)
Definition sample_parse : string -> option dict :=
  _parse_output_from_final_assistant_text (json := Json.decoder).

(** ** Further sample inputs *)

(** An output file that holds results for the instances a, b and c. *)
Definition stored_abc : dict :=
  [ ("a", PDict (placeholder "a")); ("b", PDict (placeholder "b"));
    ("c", PDict (placeholder "c")) ].

(** The state in which the stream loop starts. *)
Definition loop_start : loop_state :=
  {| result_message := None; last_assistant_text := None; turn_count := 0 |}.

(** A session in which a message comes after the result event. *)
Definition with_late_message : list Message :=
  yielded (Sample.answering "Done." false)
  ++ [AssistantMessage "m" [TextBlock "Too late."]].

(** A session whose agent calls the shell with a command that is a
    list, and answers with a complete record afterwards. *)
Definition with_list_command : stream :=
  {| yielded :=
       [ AssistantMessage "m"
           [ToolUseBlock "t1" "Bash" [("command", PList [PStr "ls"])]];
         AssistantMessage "m" [TextBlock (Sample.wrapped Sample.marked_text)];
         Result (Sample.final_result false) ];
     raised := None |}.

(** A descriptor whose problem statement has braces in it. *)
Definition braced_descriptor : instance :=
  [ ("instance_id", "demo-1"); ("repo", "octo/demo");
    ("base_commit", "0123456789abcdef");
    ("problem_statement", "Calling f({repo}) fails with {0} and }{");
    ("test_patch", git_patch) ].

(* ================================================================== *)
(** * Properties *)

(* ================================================================== *)
(** ** Facts about strings used below *)

Module PyStrFacts.
Import PyStr.

Lemma from_cons (i : nat) (text : string) (c : ascii) (rest : string) :
  from i text = String c rest ->
  at_ i text = Some c /\ from (S i) text = rest.
Proof.
  revert text. induction i as [|i IH]; intros text H.
  - simpl in H. subst text. simpl. split; reflexivity.
  - destruct text as [|c0 text']; simpl in H; [discriminate|].
    destruct (IH _ H) as [Ha Hf]. simpl. split; assumption.
Qed.

Lemma from_empty (i : nat) (text : string) :
  from i text = EmptyString -> forall j, i <= j -> at_ j text = None.
Proof.
  revert text. induction i as [|i IH]; intros text H j Hj.
  - simpl in H. subst text. destruct j; reflexivity.
  - destruct text as [|c0 text']; [destruct j; reflexivity|].
    destruct j as [|j]; [lia|]. simpl in *. apply IH; [assumption|lia].
Qed.

Lemma prefix_app (p s t : string) :
  String.prefix p s = true -> String.prefix p (s ++ t) = true.
Proof.
  revert s. induction p as [|a p IH]; intros s H.
  - destruct (s ++ t)%string; reflexivity.
  - destruct s as [|b s]; simpl in *; [discriminate|].
    destruct (ascii_dec a b); [apply IH; assumption|discriminate].
Qed.

Lemma contains_unfold (needle hay : string) :
  contains needle hay =
  if String.prefix needle hay then true
  else match hay with
       | String _ hay' => contains needle hay'
       | EmptyString => false
       end.
Proof. destruct hay; reflexivity. Qed.

Lemma contains_app_l (needle s t : string) :
  contains needle s = true -> contains needle (s ++ t) = true.
Proof.
  induction s as [|c s IH]; intros H; rewrite contains_unfold in H;
    rewrite contains_unfold.
  - destruct (String.prefix needle EmptyString) eqn:E; [|discriminate].
    rewrite (prefix_app _ _ t E). reflexivity.
  - destruct (String.prefix needle (String c s)) eqn:E.
    + rewrite (prefix_app _ _ t E). reflexivity.
    + destruct (String.prefix needle (String c s ++ t)); [reflexivity|].
      apply IH. assumption.
Qed.

Lemma contains_app_r (needle s t : string) :
  contains needle t = true -> contains needle (s ++ t) = true.
Proof.
  intros H. induction s as [|c s IH]; [assumption|].
  rewrite contains_unfold.
  destruct (String.prefix needle (String c s ++ t)); [reflexivity|].
  assumption.
Qed.

End PyStrFacts.

(* ================================================================== *)
(** ** The matcher and the language of a pattern *)

Module ReFacts.
Import Re.

Lemma append_assoc (a b c : string) : ((a ++ b) ++ c = a ++ (b ++ c))%string.
Proof. induction a as [|x a IH]; simpl; [reflexivity|rewrite IH; reflexivity]. Qed.

Lemma append_nil_r (a : string) : (a ++ "" = a)%string.
Proof. induction a as [|x a IH]; simpl; [reflexivity|rewrite IH; reflexivity]. Qed.

Lemma match_here_spaces (p : pattern) (s : string) (cap : capture) :
  match_here (Spaces :: p) s cap =
  match s with
  | String c s' =>
      if PyStr.isspace c then
        match match_here (Spaces :: p) s' (push c cap) with
        | Some r => Some r
        | None => match_here p s cap
        end
      else match_here p s cap
  | EmptyString => match_here p s cap
  end.
Proof. destruct s; reflexivity. Qed.

Lemma match_here_any (p : pattern) (s : string) (cap : capture) :
  match_here (LazyAny :: p) s cap =
  match match_here p s cap with
  | Some r => Some r
  | None =>
      match s with
      | String c s' => match_here (LazyAny :: p) s' (push c cap)
      | EmptyString => None
      end
  end.
Proof. destruct s; reflexivity. Qed.

(** What the matcher returns is a match of the pattern. *)
Lemma match_here_sound :
  forall (p : pattern) (s : string) (cap cap' : capture),
    match_here p s cap = Some cap' ->
    exists rest, matches p s cap rest cap'.
Proof.
  induction p as [|a p IH]; intros s cap cap' H.
  - simpl in H. injection H as <-. exists s. constructor.
  - destruct a as [c| | | |].
    + simpl in H. destruct s as [|x s]; [discriminate|].
      destruct (lit_matches c x) eqn:E; [|discriminate].
      destruct (IH _ _ _ H) as [rest Hm]. exists rest.
      constructor; assumption.
    + revert cap H. induction s as [|x s IHs]; intros cap H;
        rewrite match_here_spaces in H.
      * destruct (IH _ _ _ H) as [rest Hm]. exists rest.
        apply matches_spaces_end. exact Hm.
      * destruct (PyStr.isspace x) eqn:E.
        -- destruct (match_here (Spaces :: p) s (push x cap)) as [r|] eqn:Er.
           ++ injection H as <-. destruct (IHs _ Er) as [rest Hm].
              exists rest. apply matches_space; assumption.
           ++ destruct (IH _ _ _ H) as [rest Hm]. exists rest.
              apply matches_spaces_end. exact Hm.
        -- destruct (IH _ _ _ H) as [rest Hm]. exists rest.
           apply matches_spaces_end. exact Hm.
    + revert cap H. induction s as [|x s IHs]; intros cap H;
        rewrite match_here_any in H.
      * destruct (match_here p "" cap) as [r|] eqn:Er; [|discriminate].
        injection H as <-. destruct (IH _ _ _ Er) as [rest Hm].
        exists rest. apply matches_any_end. exact Hm.
      * destruct (match_here p (String x s) cap) as [r|] eqn:Er.
        -- injection H as <-. destruct (IH _ _ _ Er) as [rest Hm].
           exists rest. apply matches_any_end. exact Hm.
        -- destruct (IHs _ H) as [rest Hm]. exists rest.
           apply matches_any. exact Hm.
    + simpl in H. destruct (IH _ _ _ H) as [rest Hm]. exists rest.
      constructor. exact Hm.
    + simpl in H. destruct (IH _ _ _ H) as [rest Hm]. exists rest.
      constructor. exact Hm.
Qed.

(** Where the pattern has a match the matcher finds one. *)
Lemma match_here_complete :
  forall (p : pattern) (s : string) (cap : capture) (rest : string)
         (cap' : capture),
    matches p s cap rest cap' -> match_here p s cap <> None.
Proof.
  intros p s cap rest cap' Hm.
  induction Hm as [s cap
                  |a c p s cap rest cap' Hlit Hm IH
                  |c p s cap rest cap' Hsp Hm IH
                  |p s cap rest cap' Hm IH
                  |c p s cap rest cap' Hm IH
                  |p s cap rest cap' Hm IH
                  |p s cap rest cap' Hm IH
                  |p s cap rest cap' Hm IH].
  - discriminate.
  - simpl. rewrite Hlit. exact IH.
  - rewrite match_here_spaces. rewrite Hsp.
    destruct (match_here (Spaces :: p) s (push c cap)); [discriminate|].
    contradiction.
  - rewrite match_here_spaces. destruct s as [|x s]; [exact IH|].
    destruct (PyStr.isspace x); [|exact IH].
    destruct (match_here (Spaces :: p) s (push x cap)); [discriminate|exact IH].
  - rewrite match_here_any.
    destruct (match_here p (String c s) cap); [discriminate|exact IH].
  - rewrite match_here_any.
    destruct (match_here p s cap); [discriminate|contradiction].
  - simpl. exact IH.
  - simpl. exact IH.
Qed.

Lemma pushes_nil (cap : capture) : pushes "" cap = cap.
Proof. destruct cap; simpl; [reflexivity|rewrite append_nil_r|]; reflexivity. Qed.

Lemma pushes_push (c : ascii) (m : string) (cap : capture) :
  pushes m (push c cap) = pushes (String c m) cap.
Proof.
  destruct cap; simpl; [reflexivity| |reflexivity].
  rewrite append_assoc. reflexivity.
Qed.

Lemma pushes_app (m1 m2 : string) (cap : capture) :
  pushes m2 (pushes m1 cap) = pushes (m1 ++ m2) cap.
Proof.
  destruct cap; simpl; [reflexivity| |reflexivity].
  rewrite append_assoc. reflexivity.
Qed.

Lemma lit_matches_lower (a c : ascii) :
  lit_matches a c = true <-> PyStr.lower c = PyStr.lower a.
Proof. unfold lit_matches. apply Ascii.eqb_eq. Qed.

(** *** Taking a match apart *)

Lemma matches_lit_inv (a : ascii) (p : pattern) (s : string) (cap : capture)
  (rest : string) (cap' : capture) :
  matches (Lit a :: p) s cap rest cap' ->
  exists c s', s = String c s' /\ PyStr.lower c = PyStr.lower a
               /\ matches p s' (push c cap) rest cap'.
Proof.
  intros H. inversion H; subst. eexists. eexists.
  split; [reflexivity|]. split; [apply lit_matches_lower|]; assumption.
Qed.

Lemma matches_lits_inv (word : string) :
  forall (p : pattern) (s : string) (cap : capture) (rest : string)
         (cap' : capture),
    matches (lits word ++ p) s cap rest cap' ->
    exists m s', s = (m ++ s')%string
                 /\ PyStr.lower_str m = PyStr.lower_str word
                 /\ matches p s' (pushes m cap) rest cap'.
Proof.
  induction word as [|a word IH]; intros p s cap rest cap' H.
  - exists "", s. rewrite pushes_nil. repeat split. exact H.
  - change (lits (String a word) ++ p) with (Lit a :: (lits word ++ p)) in H.
    apply matches_lit_inv in H. destruct H as (c & s1 & -> & Hc & H).
    apply IH in H. destruct H as (m & s' & -> & Hm & H).
    exists (String c m), s'. rewrite <- pushes_push.
    split; [reflexivity|]. split; [|exact H].
    simpl. rewrite Hc, Hm. reflexivity.
Qed.

Lemma matches_spaces_inv (p : pattern) (s : string) (cap : capture)
  (rest : string) (cap' : capture) :
  matches (Spaces :: p) s cap rest cap' ->
  exists ws s', s = (ws ++ s')%string /\ PyStr.all_space ws = true
                /\ matches p s' (pushes ws cap) rest cap'.
Proof.
  intros H. remember (Spaces :: p) as q eqn:Eq. revert Eq.
  induction H as [| | c p0 s cap rest cap' Hsp Hm IH
                 | p0 s cap rest cap' Hm IH| | | |];
    intros Eq; try discriminate; injection Eq as ->.
  - destruct (IH eq_refl) as (ws & s' & -> & Hws & H).
    exists (String c ws), s'. rewrite <- pushes_push.
    split; [reflexivity|]. split; [|exact H]. simpl. rewrite Hsp. exact Hws.
  - exists "", s. rewrite pushes_nil. repeat split. exact Hm.
Qed.

Lemma matches_any_inv (p : pattern) (s : string) (cap : capture)
  (rest : string) (cap' : capture) :
  matches (LazyAny :: p) s cap rest cap' ->
  exists m s', s = (m ++ s')%string /\ matches p s' (pushes m cap) rest cap'.
Proof.
  intros H. remember (LazyAny :: p) as q eqn:Eq. revert Eq.
  induction H as [| | | | c p0 s cap rest cap' Hm IH
                 | p0 s cap rest cap' Hm IH | |];
    intros Eq; try discriminate; injection Eq as ->.
  - destruct (IH eq_refl) as (m & s' & -> & H).
    exists (String c m), s'. rewrite <- pushes_push.
    split; [reflexivity|exact H].
  - exists "", s. rewrite pushes_nil. split; [reflexivity|exact Hm].
Qed.

(** *** Putting a match together *)

Lemma matches_lits_intro (word : string) :
  forall (m : string) (p : pattern) (s' : string) (cap : capture)
         (rest : string) (cap' : capture),
    PyStr.lower_str m = PyStr.lower_str word ->
    matches p s' (pushes m cap) rest cap' ->
    matches (lits word ++ p) (m ++ s') cap rest cap'.
Proof.
  induction word as [|a word IH]; intros m p s' cap rest cap' Hm H;
    destruct m as [|c m]; try discriminate.
  - rewrite pushes_nil in H. exact H.
  - simpl in Hm. injection Hm as Hc Hm.
    change (lits (String a word) ++ p) with (Lit a :: (lits word ++ p)).
    simpl. constructor; [apply lit_matches_lower; exact Hc|].
    apply IH; [exact Hm|]. rewrite pushes_push. exact H.
Qed.

Lemma matches_spaces_intro :
  forall (ws : string) (p : pattern) (s' : string) (cap : capture)
         (rest : string) (cap' : capture),
    PyStr.all_space ws = true ->
    matches p s' (pushes ws cap) rest cap' ->
    matches (Spaces :: p) (ws ++ s') cap rest cap'.
Proof.
  induction ws as [|c ws IH]; intros p s' cap rest cap' Hws H.
  - rewrite pushes_nil in H. apply matches_spaces_end. exact H.
  - simpl in Hws. apply andb_true_iff in Hws. destruct Hws as [Hc Hws].
    simpl. apply matches_space; [exact Hc|].
    apply IH; [exact Hws|]. rewrite pushes_push. exact H.
Qed.

Lemma matches_any_intro :
  forall (m : string) (p : pattern) (s' : string) (cap : capture)
         (rest : string) (cap' : capture),
    matches p s' (pushes m cap) rest cap' ->
    matches (LazyAny :: p) (m ++ s') cap rest cap'.
Proof.
  induction m as [|c m IH]; intros p s' cap rest cap' H.
  - rewrite pushes_nil in H. apply matches_any_end. exact H.
  - simpl. apply matches_any. apply IH. rewrite pushes_push. exact H.
Qed.

(** *** The two patterns of the extraction *)

Ltac by_cases_on_char c :=
  destruct c as [[] [] [] [] [] [] [] []]; vm_compute; intros H;
  first [reflexivity | discriminate H].

Lemma lower_brace_open (c : ascii) :
  PyStr.lower c = PyStr.lower "{" -> c = "{"%char.
Proof. by_cases_on_char c. Qed.

Lemma lower_brace_close (c : ascii) :
  PyStr.lower c = PyStr.lower "}" -> c = "}"%char.
Proof. by_cases_on_char c. Qed.

Lemma lower_backtick (c : ascii) :
  PyStr.lower c = "`"%char -> c = "`"%char.
Proof. by_cases_on_char c. Qed.

Lemma lower_backticks (t : string) :
  PyStr.lower_str t = PyStr.lower_str "```" -> t = "```".
Proof.
  destruct t as [|c1 [|c2 [|c3 [|c4 t]]]]; try discriminate.
  simpl. intros H. injection H as H1 H2 H3.
  apply lower_backtick in H1, H2, H3. subst. reflexivity.
Qed.

(** A match of the fenced pattern, followed by a match of [p], is a
    fenced block followed by a match of [p] that starts with the
    block's braced text captured. *)
Lemma fenced_inv (p : pattern) (s rest : string) (cap' : capture) :
  matches (fenced_re ++ p) s Before rest cap' ->
  exists block g s',
    s = (block ++ s')%string /\ fenced_block block g
    /\ matches p s' (After g) rest cap'.
Proof.
  unfold fenced_re. rewrite <- !app_assoc. intros H.
  apply matches_lits_inv in H. destruct H as (fence & s1 & -> & Hfence & H).
  cbn [pushes app] in H.
  apply matches_spaces_inv in H. destruct H as (ws1 & s2 & -> & Hws1 & H).
  cbn [pushes] in H.
  inversion H as [| | | | | |p0 s0 cap0 rest0 cap0' H1|]; subst; clear H.
  cbn [open_group] in H1.
  apply matches_lit_inv in H1. destruct H1 as (c1 & s3 & -> & Hc1 & H).
  apply lower_brace_open in Hc1. subst c1. cbn [push] in H.
  apply matches_any_inv in H. destruct H as (body & s4 & -> & H).
  cbn [pushes] in H.
  apply matches_lit_inv in H. destruct H as (c2 & s5 & -> & Hc2 & H).
  apply lower_brace_close in Hc2. subst c2. cbn [push] in H.
  inversion H as [| | | | | | |p0 s0 cap0 rest0 cap0' H1]; subst; clear H.
  cbn [close_group] in H1.
  apply matches_spaces_inv in H1. destruct H1 as (ws2 & s6 & -> & Hws2 & H).
  cbn [pushes] in H.
  change (matches (lits "```" ++ p) s6
            (After ((("" ++ "{") ++ body) ++ "}")) rest cap') in H.
  apply matches_lits_inv in H. destruct H as (ticks & s7 & -> & Hticks & H).
  apply lower_backticks in Hticks. subst ticks. cbn [pushes] in H.
  exists (fence ++ ws1 ++ ("{" ++ body ++ "}") ++ ws2 ++ "```")%string,
         ("{" ++ body ++ "}")%string, s7.
  split; [|split].
  - repeat first [rewrite append_assoc | progress simpl]. reflexivity.
  - exists fence, ws1, body, ws2. repeat split; assumption.
  - exact H.
Qed.

Lemma fenced_intro (p : pattern) (block g s' rest : string) (cap' : capture) :
  fenced_block block g ->
  matches p s' (After g) rest cap' ->
  matches (fenced_re ++ p) (block ++ s') Before rest cap'.
Proof.
  intros (fence & ws1 & body & ws2 & -> & Hfence & Hws1 & -> & Hws2) H.
  unfold fenced_re. rewrite <- !app_assoc.
  rewrite (append_assoc fence), (append_assoc ws1),
    (append_assoc ("{" ++ body ++ "}")), (append_assoc ws2).
  apply matches_lits_intro; [exact Hfence|]. cbn [pushes app].
  apply matches_spaces_intro; [exact Hws1|]. cbn [pushes].
  apply matches_open. cbn [open_group].
  change (("{" ++ body ++ "}") ++ ws2 ++ "```" ++ s')%string
    with (String "{" ((body ++ "}") ++ ws2 ++ "```" ++ s')).
  apply matches_lit; [reflexivity|]. cbn [push].
  rewrite (append_assoc body).
  apply matches_any_intro. cbn [pushes].
  change ("}" ++ ws2 ++ "```" ++ s')%string
    with (String "}" (ws2 ++ "```" ++ s')).
  apply matches_lit; [reflexivity|]. cbn [push].
  apply matches_close. cbn [close_group].
  apply matches_spaces_intro; [exact Hws2|]. cbn [pushes].
  apply (matches_lits_intro "```" "```"); [reflexivity|]. cbn [pushes].
  rewrite (append_assoc ("" ++ "{")). exact H.
Qed.

Lemma marker_inv (s rest : string) (cap' : capture) :
  matches marker_re s Before rest cap' ->
  exists block g,
    s = (block ++ rest)%string /\ wrapped_block block g /\ cap' = After g.
Proof.
  unfold marker_re. intros H.
  apply matches_lits_inv in H. destruct H as (opening & s1 & -> & Hopen & H).
  cbn [pushes app] in H.
  apply matches_spaces_inv in H. destruct H as (ws0 & s2 & -> & Hws0 & H).
  cbn [pushes] in H.
  apply fenced_inv in H. destruct H as (inner & g & s3 & -> & Hinner & H).
  cbn [app] in H.
  apply matches_spaces_inv in H. destruct H as (ws3 & s4 & -> & Hws3 & H).
  cbn [pushes] in H.
  rewrite <- (app_nil_r (lits "</SHOVEL_OUTPUT_JSON>")) in H.
  apply matches_lits_inv in H. destruct H as (closing & s5 & -> & Hclose & H).
  cbn [pushes] in H. inversion H; subst; clear H.
  exists (opening ++ ws0 ++ inner ++ ws3 ++ closing)%string, g.
  split; [|split].
  - rewrite (append_assoc opening), (append_assoc ws0), (append_assoc inner),
      (append_assoc ws3). reflexivity.
  - exists opening, ws0, inner, ws3, closing. repeat split; assumption.
  - reflexivity.
Qed.

Lemma marker_intro (block g rest : string) :
  wrapped_block block g ->
  matches marker_re (block ++ rest) Before rest (After g).
Proof.
  intros (opening & ws0 & inner & ws3 & closing & -> & Hopen & Hws0 & Hinner
          & Hws3 & Hclose).
  unfold marker_re.
  rewrite (append_assoc opening), (append_assoc ws0), (append_assoc inner),
    (append_assoc ws3).
  apply matches_lits_intro; [exact Hopen|]. cbn [pushes app].
  apply matches_spaces_intro; [exact Hws0|]. cbn [pushes].
  apply (fenced_intro _ inner g); [exact Hinner|]. cbn [app].
  apply matches_spaces_intro; [exact Hws3|]. cbn [pushes].
  rewrite <- (app_nil_r (lits "</SHOVEL_OUTPUT_JSON>")).
  apply matches_lits_intro; [exact Hclose|]. cbn [pushes]. constructor.
Qed.

Lemma fenced_only_inv (s rest : string) (cap' : capture) :
  matches fenced_re s Before rest cap' ->
  exists block g,
    s = (block ++ rest)%string /\ fenced_block block g /\ cap' = After g.
Proof.
  intros H. rewrite <- (app_nil_r fenced_re) in H. apply fenced_inv in H.
  destruct H as (block & g & s' & -> & Hblock & H).
  inversion H; subst; clear H. exists block, g. repeat split. exact Hblock.
Qed.

Lemma fenced_only_intro (block g rest : string) :
  fenced_block block g ->
  matches fenced_re (block ++ rest) Before rest (After g).
Proof.
  intros H. rewrite <- (app_nil_r fenced_re).
  apply (fenced_intro _ block g); [exact H|constructor].
Qed.

(** *** Searching *)

Lemma search_unfold (p : pattern) (s : string) :
  search p s =
  match match_here p s Before with
  | Some cap => group1 cap
  | None =>
      match s with
      | String _ s' => search p s'
      | EmptyString => None
      end
  end.
Proof. destruct s; reflexivity. Qed.

Section Search.
Variable p : pattern.
Variable kind : string -> string -> Prop.
Hypothesis p_inv :
  forall s rest cap', matches p s Before rest cap' ->
    exists block g, s = (block ++ rest)%string /\ kind block g /\ cap' = After g.
Hypothesis p_intro :
  forall block g rest, kind block g ->
    matches p (block ++ rest) Before rest (After g).

(** The search returns the braced text of a block that is in the text. *)
Lemma search_sound (text g : string) :
  search p text = Some g -> occurs kind text g.
Proof.
  induction text as [|c text IH]; rewrite search_unfold;
    destruct (match_here p _ Before) as [cap|] eqn:Hm; try discriminate.
  - intros Hg. apply match_here_sound in Hm. destruct Hm as [rest Hm].
    apply p_inv in Hm. destruct Hm as (block & g' & Htext & Hkind & ->).
    injection Hg as ->. exists "", block, rest. split; [exact Htext|exact Hkind].
  - intros Hg. apply match_here_sound in Hm. destruct Hm as [rest Hm].
    apply p_inv in Hm. destruct Hm as (block & g' & Htext & Hkind & ->).
    injection Hg as ->. exists "", block, rest. split; [exact Htext|exact Hkind].
  - intros Hg. destruct (IH Hg) as (before & block & after & -> & Hkind).
    exists (String c before), block, after. split; [reflexivity|exact Hkind].
Qed.

(** The search finds a block whenever the text has one. *)
Lemma search_complete (text g : string) :
  occurs kind text g -> search p text <> None.
Proof.
  intros (before & block & after & -> & Hkind).
  assert (Hfound : forall s cap, match_here p s Before = Some cap ->
                                 group1 cap <> None).
  { intros s cap Hm. apply match_here_sound in Hm. destruct Hm as [rest Hm].
    apply p_inv in Hm. destruct Hm as (b & g' & _ & _ & ->). discriminate. }
  induction before as [|c before IH]; rewrite search_unfold.
  - simpl append.
    destruct (match_here p (block ++ after) Before) as [cap|] eqn:Hm.
    + eapply Hfound. exact Hm.
    + exfalso. apply (match_here_complete _ _ _ _ _ (p_intro _ _ after Hkind)).
      exact Hm.
  - destruct (match_here p _ Before) as [cap|] eqn:Hm.
    + eapply Hfound. exact Hm.
    + exact IH.
Qed.

End Search.

Lemma search_fenced (text : string) :
  (forall g, search fenced_re text = Some g -> occurs fenced_block text g)
  /\ ((exists g, occurs fenced_block text g) -> search fenced_re text <> None).
Proof.
  split.
  - intros g. apply search_sound. exact fenced_only_inv.
  - intros [g H]. eapply search_complete;
      [exact fenced_only_inv|exact fenced_only_intro|exact H].
Qed.

Lemma search_marker (text : string) :
  (forall g, search marker_re text = Some g -> occurs wrapped_block text g)
  /\ ((exists g, occurs wrapped_block text g) -> search marker_re text <> None).
Proof.
  split.
  - intros g. apply search_sound. exact marker_inv.
  - intros [g H]. eapply search_complete;
      [exact marker_inv|exact marker_intro|exact H].
Qed.

End ReFacts.

(* ================================================================== *)
(** ** Extraction: priority of the four strategies *)

Section ExtractionFacts.
Context {json : JsonDecoder}.

Lemma try_candidates_accept (c : string) (cs : list string) (d : dict) :
  accepted c d -> try_candidates (c :: cs) = Some d.
Proof. unfold accepted. intros H. simpl. rewrite H. reflexivity. Qed.

Lemma try_candidates_skip (c : string) (cs : list string) :
  (forall d, ~ accepted c d) ->
  try_candidates (c :: cs) = try_candidates cs.
Proof.
  unfold accepted. intros H. simpl.
  destruct (json_loads c) as [[| | | | | |d]|]; try reflexivity.
  exfalso. apply (H d). reflexivity.
Qed.

Lemma passed_over_some (g : string) :
  passed_over (Some g) -> forall d, ~ accepted g d.
Proof. intros H d. apply (H g d). reflexivity. Qed.

(** The scan from [idx] on returns the mapping decoded at the first
    position at or after [idx] where decoding gives one. *)
Lemma scan_braces_some (text : string) (d : dict) :
  forall (todo : string) (idx : nat),
    PyStr.from idx text = todo ->
    (scan_braces text todo idx = Some d <->
     exists i, idx <= i /\ decodes_at text i d
               /\ forall j d', idx <= j < i -> ~ decodes_at text j d').
Proof.
  induction todo as [|ch todo' IH]; intros idx Hfrom.
  - simpl. split; [discriminate|].
    intros (i & Hle & (Hat & _) & _).
    rewrite (PyStrFacts.from_empty _ _ Hfrom i Hle) in Hat. discriminate.
  - destruct (PyStrFacts.from_cons _ _ _ _ Hfrom) as [Hat Hnext].
    specialize (IH (S idx) Hnext).
    assert (Hlater :
      (forall d', ~ decodes_at text idx d') ->
      ((exists i, S idx <= i /\ decodes_at text i d
                  /\ forall j d', S idx <= j < i -> ~ decodes_at text j d')
       <->
       (exists i, idx <= i /\ decodes_at text i d
                  /\ forall j d', idx <= j < i -> ~ decodes_at text j d'))).
    { intros Hno. split.
      - intros (i & Hle & Hd & Hmin). exists i. split; [lia|]. split; [assumption|].
        intros j d' Hj. destruct (Nat.eq_dec j idx) as [->|Hne];
          [apply Hno | apply Hmin; lia].
      - intros (i & Hle & Hd & Hmin).
        destruct (Nat.eq_dec i idx) as [->|Hne]; [exfalso; exact (Hno d Hd)|].
        exists i. split; [lia|]. split; [assumption|].
        intros j d' Hj. apply Hmin. lia. }
    simpl. destruct (Ascii.eqb ch "{") eqn:Hch; simpl.
    + apply Ascii.eqb_eq in Hch. subst ch.
      destruct (raw_decode (PyStr.from idx text)) as [[v stop]|] eqn:Hdec.
      * destruct v as [| | | | | |d0];
          try (rewrite IH; apply Hlater; intros d' (_ & stop' & Hd');
               rewrite Hdec in Hd'; discriminate).
        split.
        -- intros H. injection H as ->. exists idx. split; [lia|].
           split; [split; [assumption|exists stop; assumption]|].
           intros j d' Hj. lia.
        -- intros (i & Hle & Hd & Hmin).
           destruct (Nat.eq_dec i idx) as [->|Hne].
           ++ destruct Hd as (_ & stop' & Hd). rewrite Hdec in Hd.
              injection Hd as -> _. reflexivity.
           ++ exfalso. apply (Hmin idx d0); [lia|].
              split; [assumption|exists stop; assumption].
      * rewrite IH. apply Hlater. intros d' (_ & stop' & Hd').
        rewrite Hdec in Hd'. discriminate.
    + rewrite IH. apply Hlater. intros d' (Hat' & _).
      rewrite Hat in Hat'. injection Hat' as ->. discriminate.
Qed.

Lemma scan_braces_first (text : string) (d : dict) :
  scan_braces text text 0 = Some d <-> exists i, first_decoding text i d.
Proof.
  rewrite (scan_braces_some text d text 0 eq_refl). split.
  - intros (i & _ & Hd & Hmin). exists i. split; [assumption|].
    intros j d' Hj. apply Hmin. lia.
  - intros (i & Hd & Hmin). exists i. split; [lia|]. split; [assumption|].
    intros j d' Hj. apply Hmin. lia.
Qed.

Lemma scan_braces_none (text : string) :
  scan_braces text text 0 = None <-> forall i d, ~ decodes_at text i d.
Proof.
  split.
  - intros Hnone i. induction i as [i IHi] using lt_wf_ind. intros d Hd.
    assert (Hs : scan_braces text text 0 = Some d).
    { apply scan_braces_first. exists i. split; [assumption|].
      intros j d' Hj. apply IHi. assumption. }
    rewrite Hnone in Hs. discriminate.
  - intros Hno. destruct (scan_braces text text 0) as [d|] eqn:E; [|reflexivity].
    apply scan_braces_first in E. destruct E as (i & Hd & _).
    exfalso. exact (Hno i d Hd).
Qed.

(** For a decoder that, started at an opening brace, gives a mapping or
    fails, the position the scan takes is the first opening brace at
    which decoding succeeds at all. *)
Lemma first_decoding_first_success (text : string) (i : nat) (d : dict) :
  (forall s v stop, raw_decode (String "{" s) = Some (v, stop) ->
                    exists d', v = PDict d') ->
  first_decoding text i d <->
  decodes_at text i d
  /\ forall j, j < i -> PyStr.at_ j text = Some "{"%char ->
                raw_decode (PyStr.from j text) = None.
Proof.
  intros Hbrace. unfold first_decoding. split; intros [Hd Hmin];
    (split; [exact Hd|]).
  - intros j Hj Hat.
    destruct (raw_decode (PyStr.from j text)) as [[v stop]|] eqn:E;
      [|reflexivity].
    exfalso.
    assert (Hfrom : exists s, PyStr.from j text = String "{" s).
    { clear - Hat. revert text Hat. induction j as [|j IH]; intros text Hat;
        destruct text as [|c text]; try discriminate; simpl in *.
      - injection Hat as ->. eexists. reflexivity.
      - apply IH. exact Hat. }
    destruct Hfrom as [s Hs]. rewrite Hs in E.
    destruct (Hbrace _ _ _ E) as [d' ->]. rewrite <- Hs in E.
    apply (Hmin j d' Hj). split; [exact Hat|]. exists stop. exact E.
  - intros j d' Hj (Hat & stop & Hdec).
    rewrite (Hmin j Hj Hat) in Hdec. discriminate.
Qed.

(** C1.  The four strategies of the output extraction are tried in
    strict priority order and the first success wins.  The first
    candidate is the braced text of a block that is in the text: the
    wrapper tag, in any letter case, around a fenced block labeled
    json, and there is such a candidate whenever the text has such a
    block; the second is the braced text of a fenced block labeled
    json, likewise; the third is the whole trimmed text; the fourth
    strategy scans the opening braces and returns the mapping decoded
    at the first position where decoding gives one.  A candidate that
    does not load to a mapping is passed over. *)
Theorem extraction_priority (text : string) :
  let wrapper := Re.search Re.marker_re text in
  let fenced := Re.search Re.fenced_re text in
  let whole := PyStr.strip text in
  let result := _parse_output_from_final_assistant_text text in
  ((forall g, wrapper = Some g -> Re.occurs Re.wrapped_block text g)
   /\ ((exists g, Re.occurs Re.wrapped_block text g) -> wrapper <> None)
   /\ (forall g, fenced = Some g -> Re.occurs Re.fenced_block text g)
   /\ ((exists g, Re.occurs Re.fenced_block text g) -> fenced <> None))
  /\ (forall g d, wrapper = Some g -> accepted g d -> result = Some d)
  /\ (forall g d, passed_over wrapper -> fenced = Some g -> accepted g d ->
                  result = Some d)
  /\ (forall d, passed_over wrapper -> passed_over fenced ->
                accepted whole d -> result = Some d)
  /\ (passed_over wrapper -> passed_over fenced ->
      passed_over (Some whole) ->
      (forall d, result = Some d <-> exists i, first_decoding text i d)
      /\ (result = None <-> forall i d, ~ decodes_at text i d)).
Proof.
  cbv zeta. split.
  { destruct (ReFacts.search_marker text) as [Hm1 Hm2].
    destruct (ReFacts.search_fenced text) as [Hf1 Hf2].
    repeat split; assumption. }
  unfold _parse_output_from_final_assistant_text, extraction_candidates.
  assert (Hscan : forall cs,
    try_candidates cs = None ->
    (forall d, match try_candidates cs with
               | Some parsed => Some parsed
               | None => scan_braces text text 0
               end = Some d <-> exists i, first_decoding text i d)
    /\ (match try_candidates cs with
        | Some parsed => Some parsed
        | None => scan_braces text text 0
        end = None <-> forall i d, ~ decodes_at text i d)).
  { intros cs ->. split; [intros d; apply scan_braces_first|apply scan_braces_none]. }
  destruct (Re.search Re.marker_re text) as [gm|];
    destruct (Re.search Re.fenced_re text) as [gf|]; simpl app.
  all: split; [|split; [|split]].
  all: try (intros g d Hg Hacc; try discriminate; injection Hg as <-;
            rewrite (try_candidates_accept _ _ _ Hacc); reflexivity).
  all: try (intros g d Hw Hg Hacc; try discriminate; injection Hg as <-).
  all: try (intros d Hw Hf Hacc).
  all: try (intros Hw Hf Hwh; apply Hscan).
  all: repeat match goal with
         | H : passed_over (Some ?g) |- _ =>
             rewrite (try_candidates_skip g _ (passed_over_some g H));
             clear H
         end.
  all: try (rewrite (try_candidates_accept _ _ _ Hacc); reflexivity).
  all: reflexivity.
Qed.

End ExtractionFacts.

(* ================================================================== *)
(** ** The sample decoder at an opening brace *)

Module JsonFacts.

(** Started at an opening brace, the sample decoder gives a mapping or
    fails: for it, the first brace position that decodes is the first
    that decodes to a mapping. *)
Lemma scan_once_brace (fuel : nat) (s : string) (v : pyval) (rest : string) :
  Json.scan_once fuel (String "{" s) = Some (v, rest) ->
  exists d, v = PDict d.
Proof.
  destruct fuel as [|fuel]; [discriminate|].
  cbn [Json.scan_once]. change (nat_of_ascii "{") with 123.
  cbn [Nat.eqb]. destruct (Json.skip_ws s) as [|c1 r1]; [discriminate|].
  destruct (nat_of_ascii c1 =? 125).
  - intros H. injection H as <- _. eexists. reflexivity.
  - match goal with
    | |- ?members _ _ _ = Some _ -> _ =>
        assert (Hmembers : forall k text acc,
                  members k text acc = Some (v, rest) -> exists d, v = PDict d);
        [|apply Hmembers]
    end.
    induction k as [|k IH]; intros s0 acc; [discriminate|].
    destruct s0 as [|q s1]; [discriminate|].
    destruct (negb (nat_of_ascii q =? 34)); [discriminate|].
    destruct (Json.scan_string s1 "") as [[key s2]|]; [|discriminate].
    destruct (Json.skip_ws s2) as [|colon s3]; [discriminate|].
    destruct (negb (nat_of_ascii colon =? 58)); [discriminate|].
    destruct (Json.scan_once _ (Json.skip_ws s3)) as [[v0 s4]|]; [|discriminate].
    destruct (Json.skip_ws s4) as [|d0 s5]; [discriminate|].
    destruct (nat_of_ascii d0 =? 125).
    + intros H. injection H as <- _. eexists. reflexivity.
    + destruct (nat_of_ascii d0 =? 44); [|discriminate].
      apply IH.
Qed.

Lemma decode_prefix_brace (s : string) (v : pyval) (stop : nat) :
  Json.decode_prefix (String "{" s) = Some (v, stop) -> exists d, v = PDict d.
Proof.
  unfold Json.decode_prefix.
  destruct (Json.scan_once _ (String "{" s)) as [[v0 rest]|] eqn:E;
    [|discriminate].
  intros H. injection H as <- _. eapply scan_once_brace. exact E.
Qed.

End JsonFacts.

(* ================================================================== *)
(** ** Filtering: allowlist, then slice *)

Section FilterFacts.
Context {V : Type}.

(** With both filters set, the slice is taken over the keys that the
    allowlist left, in their own order. *)
Lemma filter_instances_allow_then_slice (instances : list (string * V))
  (cfg : RunConfig) (id : string) (ids : list string) (s e : Z) :
  let allowed :=
    PyDict.filter_keys (fun k => existsb (String.eqb k) (id :: ids))
      instances in
  _filter_instances instances
    (with_filters cfg (Some (id :: ids)) (Some s) (Some e))
  = restrict_to (PySlice.slice (PyDict.keys allowed) (s - 1) e) allowed.
Proof. reflexivity. Qed.

(** C2, as the code has it.  Over the id sequence [a, b, c, d, e] the
    slice start=2, end=4 alone selects exactly b, c, d; together with
    the allowlist {b, d, e} it selects exactly d, e: the allowlist
    leaves [b, d, e] and positions 2 to 4 of that sequence are d and
    e. *)
Theorem slice_composition (cfg : RunConfig) (va vb vc vd ve : V) :
  let instances :=
    [("a", va); ("b", vb); ("c", vc); ("d", vd); ("e", ve)] in
  _filter_instances instances (with_filters cfg None (Some 2%Z) (Some 4%Z))
  = [("b", vb); ("c", vc); ("d", vd)]
  /\ _filter_instances instances
       (with_filters cfg (Some ["b"; "d"; "e"]) (Some 2%Z) (Some 4%Z))
     = [("d", vd); ("e", ve)].
Proof. split; reflexivity. Qed.

End FilterFacts.

(** C2, as stated, fails: with the allowlist {b, d, e} and the slice
    start=2, end=4 the selection is not {b, d}, since e is selected. *)
Lemma slice_composition_not_b_d :
  let instances : list (string * instance) :=
    map (fun k => (k, [("instance_id", k)])) ["a"; "b"; "c"; "d"; "e"] in
  let selected :=
    PyDict.keys
      (_filter_instances instances
         (with_filters default_cfg (Some ["b"; "d"; "e"])
            (Some 2%Z) (Some 4%Z))) in
  ~ (forall k, In k selected <-> In k ["b"; "d"]).
Proof.
  cbv zeta. intros H.
  assert (He : In "e" ["b"; "d"]).
  { apply H. vm_compute. right. left. reflexivity. }
  simpl in He. destruct He as [He|[He|[]]]; discriminate.
Qed.

(* ================================================================== *)
(** ** Touched files of a patch *)

Section UtilsFacts.
Context {unidiff : Unidiff}.

Lemma touched_with_prefix_two_passes (files : list PatchedFile) :
  map (PyStr.from 2)
    (filter (PyStr.startswith "a/")
       (map source_file
          (filter (fun f => negb (String.eqb (source_file f) "/dev/null"))
             files)))
  = touched_with_prefix files.
Proof.
  induction files as [|f files IH]; [reflexivity|].
  unfold touched_with_prefix in *. cbn [filter flat_map].
  destruct (String.eqb (source_file f) "/dev/null") eqn:Enull;
    cbn [negb map filter app].
  - exact IH.
  - destruct (PyStr.startswith "a/" (source_file f));
      cbn [map app]; rewrite IH; reflexivity.
Qed.

(** C9, as the code has it.  For a patch that is not blank and that the
    diff library parses, the touched files are the source sides that
    are not [/dev/null] and start with [a/], each with that prefix
    removed, in the order of the patch. *)
Theorem get_modified_files_prefixed (patch : string)
  (files : list PatchedFile) :
  PyStr.strip patch <> EmptyString ->
  PatchSet patch = Some files ->
  get_modified_files patch = touched_with_prefix files.
Proof.
  intros Hblank Hparse. unfold get_modified_files.
  destruct patch as [|c patch']; [exfalso; apply Hblank; reflexivity|].
  cbn [is_empty orb].
  destruct (PyStr.strip (String c patch')) eqn:Es; [contradiction|].
  cbn [is_empty]. rewrite Hparse.
  apply touched_with_prefix_two_passes.
Qed.

End UtilsFacts.

Lemma get_modified_files_prefixed_witness :
  @get_modified_files HeaderReader.reader git_patch = ["tests/test_x.py"].
Proof.
  rewrite (get_modified_files_prefixed (unidiff := HeaderReader.reader)
             git_patch
             [ {| source_file := "a/tests/test_x.py";
                  target_file := "b/tests/test_x.py" |};
               {| source_file := "/dev/null";
                  target_file := "b/tests/new.py" |} ]).
  - reflexivity.
  - vm_compute. discriminate.
  - reflexivity.
Defined.

(** C9, as stated, fails: the entry of [unprefixed_patch] has the source
    side [foo.py], which is not [/dev/null]; stripping two characters
    would give [o.py], and the code returns no file at all. *)
Lemma get_modified_files_drops_unprefixed :
  @PatchSet HeaderReader.reader unprefixed_patch
  = Some [ {| source_file := "foo.py"; target_file := "foo.py" |} ]
  /\ @get_modified_files HeaderReader.reader unprefixed_patch = []
  /\ touched_unconditionally
       [ {| source_file := "foo.py"; target_file := "foo.py" |} ]
     = ["o.py"].
Proof. repeat split. Qed.

(* ================================================================== *)
(** ** Facts about dictionaries *)

Module PyDictFacts.
Section Generic.
Context {V : Type}.

Lemma get_set_same (k : string) (v : V) (d : list (string * V)) :
  PyDict.get k (PyDict.set k v d) = Some v.
Proof.
  induction d as [|[k' v'] d IH]; simpl.
  - rewrite String.eqb_refl. reflexivity.
  - destruct (String.eqb k' k) eqn:E; simpl; rewrite E; [reflexivity|exact IH].
Qed.

Lemma get_set_other (k k0 : string) (v : V) (d : list (string * V)) :
  k0 <> k -> PyDict.get k0 (PyDict.set k v d) = PyDict.get k0 d.
Proof.
  intros Hne. induction d as [|[k' v'] d IH]; simpl.
  - destruct (String.eqb k k0) eqn:E; [|reflexivity].
    apply String.eqb_eq in E. congruence.
  - destruct (String.eqb k' k) eqn:E; simpl.
    + apply String.eqb_eq in E. subst k'.
      destruct (String.eqb k k0) eqn:E0; [|reflexivity].
      apply String.eqb_eq in E0. congruence.
    + rewrite IH. reflexivity.
Qed.

Lemma mem_true_get (k : string) (d : list (string * V)) :
  PyDict.mem k d = true -> exists v, PyDict.get k d = Some v.
Proof.
  unfold PyDict.mem. destruct (PyDict.get k d) as [v|]; [|discriminate].
  intros _. exists v. reflexivity.
Qed.

Lemma get_in (k : string) (v : V) (d : list (string * V)) :
  PyDict.get k d = Some v -> In (k, v) d.
Proof.
  induction d as [|[k' v'] d IH]; simpl; [discriminate|].
  destruct (String.eqb k' k) eqn:E.
  - apply String.eqb_eq in E. intros H. injection H as ->. left. congruence.
  - intros H. right. apply IH. exact H.
Qed.

Lemma mem_filter_keys (p : string -> bool) (k : string)
  (d : list (string * V)) :
  PyDict.mem k (PyDict.filter_keys p d) = true -> p k = true.
Proof.
  intros H. apply mem_true_get in H. destruct H as [v H].
  apply get_in in H. apply filter_In in H. destruct H as [_ H]. exact H.
Qed.

End Generic.
End PyDictFacts.

(* ================================================================== *)
(** ** The session driver: validation and repair *)

Section DriverFacts.
Context {json : JsonDecoder} {unidiff : Unidiff}.
Variable host : Host.

Lemma validate_output_lacking (d : dict) :
  lacks_required d -> validate_output d = Ok None.
Proof.
  intros [(key & Hin & Hmem)|(scripts & Hget & Hmem)]; unfold validate_output.
  - assert (Hall : forallb (fun key => PyDict.mem key d) required_keys = false).
    { apply not_true_is_false. intros Hall.
      rewrite forallb_forall in Hall. rewrite (Hall key Hin) in Hmem.
      discriminate. }
    rewrite Hall. reflexivity.
  - destruct (forallb (fun key => PyDict.mem key d) required_keys);
      [|reflexivity].
    cbn [negb]. rewrite Hget. cbn [py_in]. rewrite Hmem. reflexivity.
Qed.

(** C3.  When the extraction has given a record that lacks one of the
    three required fields, or whose [setup_scripts] mapping lacks the
    entry [setup_repo.sh], the driver returns no result. *)
Theorem validation_gate (instance : instance) (repo_dir model : string)
  (max_turns : nat) (log_dir : option string) (project_dir : string)
  (w w' : world) (st : loop_state) (d : dict) :
  session host instance repo_dir model max_turns log_dir project_dir w
  = (Ok (Some st), w') ->
  extracted_output st = Some d ->
  lacks_required d ->
  run_agent host instance repo_dir model max_turns log_dir project_dir w
  = (Ok None, w').
Proof.
  intros Hsession Hout Hlacks. unfold run_agent. rewrite Hsession.
  unfold finish. destruct (result_flags_error st); [reflexivity|].
  rewrite Hout. rewrite (validate_output_lacking d Hlacks). reflexivity.
Qed.

Lemma marker_in_snippet (script : string) :
  PyStr.contains "OMNIGRIL_EXIT_CODE" (script ++ marker_snippet) = true.
Proof. apply PyStrFacts.contains_app_r. reflexivity. Qed.

Lemma validate_output_script (d : dict) (script : string) :
  passes_field_validation d ->
  PyDict.get "eval_script" d = Some (PStr script) ->
  validate_output d =
  Ok (Some (if PyStr.contains "OMNIGRIL_EXIT_CODE" script then d
            else PyDict.set "eval_script"
                   (PStr (PyStr.rstrip script ++ marker_snippet)) d)).
Proof.
  intros [Hkeys (scripts & Hget & Hin)] Hscript. unfold validate_output.
  assert (Hall : forallb (fun key => PyDict.mem key d) required_keys = true).
  { apply forallb_forall. exact Hkeys. }
  rewrite Hall. cbn [negb]. rewrite Hget, Hin, Hscript. cbn [py_in].
  destruct (PyStr.contains "OMNIGRIL_EXIT_CODE" script); reflexivity.
Qed.

(** The repair of the test script where it is a string.  For a record
    that passes the checks on its fields and whose test script is the
    string [script]: when [script] carries the marker the record is
    returned as it is; when it does not, the returned record has as
    its test script [script] without its trailing whitespace followed
    by the fixed snippet, and that text carries the marker. *)
Theorem marker_auto_repair (instance : instance) (repo_dir model : string)
  (max_turns : nat) (log_dir : option string) (project_dir : string)
  (w w' : world) (st : loop_state) (d : dict) (script : string) :
  session host instance repo_dir model max_turns log_dir project_dir w
  = (Ok (Some st), w') ->
  result_flags_error st = false ->
  extracted_output st = Some d ->
  passes_field_validation d ->
  PyDict.get "eval_script" d = Some (PStr script) ->
  exists returned,
    run_agent host instance repo_dir model max_turns log_dir project_dir w
    = (Ok (Some returned), w')
    /\ if PyStr.contains "OMNIGRIL_EXIT_CODE" script then returned = d
       else
         let repaired := (PyStr.rstrip script ++ marker_snippet)%string in
         returned = PyDict.set "eval_script" (PStr repaired) d
         /\ PyDict.get "eval_script" returned = Some (PStr repaired)
         /\ PyStr.contains "OMNIGRIL_EXIT_CODE" repaired = true.
Proof.
  intros Hsession Hflag Hout Hpass Hscript.
  unfold run_agent. rewrite Hsession. unfold finish. rewrite Hflag, Hout.
  rewrite (validate_output_script d script Hpass Hscript).
  eexists. split; [reflexivity|].
  destruct (PyStr.contains "OMNIGRIL_EXIT_CODE" script); [reflexivity|].
  cbv zeta. split; [reflexivity|]. split.
  - apply PyDictFacts.get_set_same.
  - apply marker_in_snippet.
Qed.

End DriverFacts.

(* ================================================================== *)
(** ** The session driver: exceptions and the trajectory log *)

Section SessionFacts.
Context {json : JsonDecoder} {unidiff : Unidiff}.
Variable host : Host.

Lemma build_user_prompt_ok (instance : instance) (build_dir : string) :
  has_required_fields instance ->
  exists user_prompt, build_user_prompt instance build_dir = Ok user_prompt.
Proof.
  intros (iid & repo & commit & Hid & Hrepo & Hcommit).
  unfold build_user_prompt. rewrite Hrepo, Hid, Hcommit.
  eexists. reflexivity.
Qed.

Lemma validate_output_typed (d : dict) :
  typed_as_documented d -> exists r, validate_output d = Ok r.
Proof.
  intros [Hsetup Hscript]. unfold validate_output.
  destruct (forallb (fun key => PyDict.mem key d) required_keys) eqn:Hall;
    cbn [negb]; [|eexists; reflexivity].
  rewrite forallb_forall in Hall.
  destruct (PyDictFacts.mem_true_get "setup_scripts" d) as [v Hv].
  { apply Hall. simpl. tauto. }
  destruct (PyDictFacts.mem_true_get "eval_script" d) as [e He].
  { apply Hall. simpl. tauto. }
  rewrite Hv. destruct (Hsetup v Hv) as [b Hb]. rewrite Hb.
  destruct b; [|eexists; reflexivity].
  rewrite He. destruct (Hscript e He) as [s ->]. cbn [py_in].
  destruct (PyStr.contains "OMNIGRIL_EXIT_CODE" s); eexists; reflexivity.
Qed.

(** A stream that raises before any result event brings an exception
    to the [except] clause, whatever else happens on the way. *)
Lemma consume_raises (log_file : option string) (raised : option exn) :
  raised <> None ->
  forall (messages : list Message) (st : loop_state) (w : world),
    (forall m, In m messages -> forall r, m <> Result r) ->
    exists exc w', consume host log_file messages raised st w = (Raise exc, w').
Proof.
  intros Hraised. induction messages as [|m messages IH]; intros st w Hno.
  - simpl. destruct raised as [exc|]; [|contradiction].
    exists exc, w. reflexivity.
  - assert (Hrest : forall m', In m' messages -> forall r, m' <> Result r).
    { intros m' Hin. apply Hno. right. exact Hin. }
    destruct m as [mdl content|content|sub data|rm|]; cbn [consume].
    + destruct (assistant_content content []) as [texts|exc].
      * apply IH. exact Hrest.
      * eexists. eexists. reflexivity.
    + apply IH. exact Hrest.
    + apply IH. exact Hrest.
    + exfalso. apply (Hno (Result rm) (or_introl eq_refl) rm). reflexivity.
    + apply IH. exact Hrest.
Qed.

Lemma open_trajectory_log_ok (instance_id user_prompt : string)
  (log_dir : option string) (w : world) :
  (forall dir, log_dir = Some dir -> makedirs_ok host dir = true) ->
  exists log_file w',
    _open_trajectory_log host instance_id user_prompt log_dir w
    = (Ok log_file, w').
Proof.
  intros Hdir. unfold _open_trajectory_log.
  destruct log_dir as [dir|]; [|eexists; eexists; reflexivity].
  rewrite (Hdir dir eq_refl). cbn [negb].
  destruct (open_ok host _); cbn [negb]; [|eexists; eexists; reflexivity].
  destruct (write_ok host _ _); eexists; eexists; reflexivity.
Qed.

(** What the driver does with a tool call or a message raises nothing
    but instances of [Exception]. *)
Lemma py_len_raises (v : pyval) (exc : exn) :
  py_len v = Raise exc -> exists c m, exc = Exn c m.
Proof.
  destruct v; cbn [py_len]; intros H; try discriminate;
    injection H as <-; eexists; eexists; reflexivity.
Qed.

Lemma summarize_tool_input_raise_kind (tool_name : string) (input_data : dict)
  (exc : exn) :
  _summarize_tool_input tool_name input_data = Raise exc ->
  exists c m, exc = Exn c m.
Proof.
  unfold _summarize_tool_input.
  repeat match goal with
         | |- context [if ?b then _ else _] => destruct b
         end;
    try discriminate;
    match goal with
    | |- context [py_len ?v] =>
        destruct (py_len v) eqn:Hlen; [discriminate|];
        intros H; injection H as <-; exact (py_len_raises _ _ Hlen)
    | |- context [match ?v with PStr _ => _ | _ => _ end] =>
        destruct v; intros H; try discriminate;
        injection H as <-; eexists; eexists; reflexivity
    end.
Qed.

Lemma assistant_content_raise_kind (content : list ContentBlock)
  (exc : exn) :
  forall text_blocks,
    assistant_content content text_blocks = Raise exc ->
    exists c m, exc = Exn c m.
Proof.
  induction content as [|block content IH]; intros text_blocks;
    cbn [assistant_content]; [discriminate|].
  destruct block; try apply IH.
  match goal with
  | |- context [_summarize_tool_input ?n ?i] =>
      destruct (_summarize_tool_input n i) eqn:Hsum; [apply IH|]
  end.
  intros H. injection H as <-.
  exact (summarize_tool_input_raise_kind _ _ _ Hsum).
Qed.

(** An exception that reaches the [except] clause is an instance of
    [Exception], or it is the one the stream raised. *)
Lemma consume_raise_kind (log_file : option string) (raised : option exn)
  (exc : exn) :
  forall (messages : list Message) (st : loop_state) (w w' : world),
    consume host log_file messages raised st w = (Raise exc, w') ->
    (exists c m, exc = Exn c m) \/ raised = Some exc.
Proof.
  induction messages as [|m messages IH]; intros st w w'.
  - cbn [consume]. destruct raised as [e|]; [|discriminate].
    intros H. injection H as <- _. right. reflexivity.
  - destruct m as [mdl content|content|sub data|rm|]; cbn [consume];
      try apply IH; [|discriminate].
    destruct (assistant_content content []) as [texts|e] eqn:Hc;
      [apply IH|].
    intros H. injection H as <- _. left.
    exact (assistant_content_raise_kind _ _ _ Hc).
Qed.

(** With the fields there, the log directory makeable and a stream
    that raises nothing but instances of [Exception], the part of
    [run_agent] up to the end of the stream does not raise. *)
Lemma session_returns (instance : instance) (repo_dir model : string)
  (max_turns : nat) (log_dir : option string) (project_dir : string)
  (w : world) :
  has_required_fields instance ->
  (forall dir, log_dir = Some dir -> makedirs_ok host dir = true) ->
  (forall p o, exceptions_only (query host p o)) ->
  exists r w',
    session host instance repo_dir model max_turns log_dir project_dir w
    = (Ok r, w').
Proof.
  intros Hfields Hdir Honly. unfold session.
  destruct Hfields as (iid & repo & commit & Hid & Hrepo & Hcommit).
  rewrite Hid.
  destruct (build_user_prompt_ok instance
              (path_join (path_join (abspath host project_dir) "tmp")
                 ("docker_build_" ++ iid)))
    as [user_prompt Hprompt].
  { exists iid, repo, commit. tauto. }
  rewrite Hprompt.
  destruct (open_trajectory_log_ok iid user_prompt log_dir w Hdir)
    as (log_file & w0 & Hopen).
  rewrite Hopen.
  destruct (consume host log_file _ _ _ w0) as [[st|exc] w1] eqn:Hc;
    [eexists; eexists; reflexivity|].
  destruct exc as [c m|c m]; [eexists; eexists; reflexivity|].
  exfalso.
  destruct (consume_raise_kind _ _ _ _ _ _ _ Hc) as [(c' & m' & H)|H];
    [discriminate|].
  exact (Honly _ _ c m H).
Qed.

Lemma session_stream_fails (instance : instance) (repo_dir model : string)
  (max_turns : nat) (log_dir : option string) (project_dir : string)
  (w : world) (r : option loop_state) (w' : world) :
  (forall p o, stream_fails (query host p o)) ->
  session host instance repo_dir model max_turns log_dir project_dir w
  = (Ok r, w') ->
  r = None.
Proof.
  intros Hfails. unfold session.
  destruct (PyDict.get "instance_id" instance) as [iid|]; [|discriminate].
  destruct (build_user_prompt instance _) as [user_prompt|]; [|discriminate].
  destruct (_open_trajectory_log host iid user_prompt log_dir w)
    as [[log_file|exc] w0]; [|discriminate].
  match goal with
  | |- context [consume host log_file (yielded ?s) (raised ?s) ?st w0] =>
      destruct (Hfails user_prompt
                  {| opt_model := model;
                     opt_system_prompt := SYSTEM_PROMPT;
                     opt_allowed_tools := allowed_tools;
                     opt_permission_mode := "bypassPermissions";
                     opt_cwd := repo_dir;
                     opt_max_turns := max_turns |}) as [Hr Hno];
      destruct (consume_raises log_file (raised s) Hr (yielded s) st w0 Hno)
        as (exc & w1 & Hc); rewrite Hc
  end.
  destruct exc as [c m|c m]; [|discriminate].
  intros H. injection H as <- _. reflexivity.
Qed.

(** C5, as the code has it.  For an instance that carries the fields
    [instance_id], [repo] and [base_commit], with a log directory that
    can be made and a stream that raises nothing but instances of
    [Exception], [run_agent] returns and does not raise, provided the
    record it extracts, if any, has a string as [eval_script] and a
    searchable container as [setup_scripts].  The value is no result
    when the stream raises before a result event, when the result event
    is flagged as an error, when nothing can be extracted, and when the
    extracted record lacks a required field or the setup entry. *)
Theorem run_agent_returns (instance : instance) (repo_dir model : string)
  (max_turns : nat) (log_dir : option string) (project_dir : string)
  (w : world) :
  has_required_fields instance ->
  (forall dir, log_dir = Some dir -> makedirs_ok host dir = true) ->
  (forall p o, exceptions_only (query host p o)) ->
  (forall st w' d,
     session host instance repo_dir model max_turns log_dir project_dir w
     = (Ok (Some st), w') ->
     result_flags_error st = false ->
     extracted_output st = Some d ->
     typed_as_documented d) ->
  exists r w',
    run_agent host instance repo_dir model max_turns log_dir project_dir w
    = (Ok r, w')
    /\ ((forall p o, stream_fails (query host p o)) -> r = None)
    /\ (forall st,
          session host instance repo_dir model max_turns log_dir project_dir w
          = (Ok (Some st), w') ->
          result_flags_error st = true
          \/ extracted_output st = None
          \/ (exists d, extracted_output st = Some d /\ lacks_required d) ->
          r = None).
Proof.
  intros Hfields Hdir Honly Htyped.
  destruct (session_returns instance repo_dir model max_turns log_dir
              project_dir w Hfields Hdir Honly) as (s & w' & Hsession).
  unfold run_agent. rewrite Hsession.
  destruct s as [st|].
  - unfold finish.
    destruct (result_flags_error st) eqn:Hflag.
    + exists None, w'. split; [reflexivity|]. split; reflexivity.
    + destruct (extracted_output st) as [d|] eqn:Hout.
      * destruct (validate_output_typed d
                    (Htyped st w' d Hsession Hflag Hout)) as [r Hr].
        rewrite Hr. exists r, w'. split; [reflexivity|]. split.
        -- intros Hfails.
           pose proof (session_stream_fails instance repo_dir model max_turns
                         log_dir project_dir w (Some st) w' Hfails Hsession).
           discriminate.
        -- intros st' Hst' Hcase. injection Hst' as <-.
           destruct Hcase as [Hf|[Hn|(d' & Hd' & Hlacks)]].
           ++ rewrite Hflag in Hf. discriminate.
           ++ rewrite Hout in Hn. discriminate.
           ++ rewrite Hout in Hd'. injection Hd' as <-.
              rewrite (validate_output_lacking d Hlacks) in Hr.
              injection Hr as <-. reflexivity.
      * exists None, w'. split; [reflexivity|]. split; reflexivity.
  - exists None, w'. split; [reflexivity|]. split; reflexivity.
Qed.

End SessionFacts.

Section LogFacts.
Context {json : JsonDecoder} {unidiff : Unidiff}.
Variable host : Host.

Lemma append_to_log_writes (path : string) (data : dict) (w : world) :
  (forall line, write_ok host path line = true) ->
  _append_to_log host (Some path) data w = w ++ entry_writes path [data].
Proof. intros Hw. unfold _append_to_log. rewrite Hw. reflexivity. Qed.


(** Logging is best effort: when the log file cannot be opened the
    session goes on without a log. *)
Lemma open_trajectory_log_refused (instance_id user_prompt log_dir : string)
  (w : world) :
  makedirs_ok host log_dir = true ->
  open_ok host (log_path_of log_dir instance_id) = false ->
  _open_trajectory_log host instance_id user_prompt (Some log_dir) w
  = (Ok None, w ++ [Makedirs log_dir]).
Proof.
  intros Hmk Hop. unfold _open_trajectory_log.
  fold (log_path_of log_dir instance_id). rewrite Hmk, Hop. reflexivity.
Qed.

(** When the header cannot be written the session goes on without a
    log as well, and the file that was opened is not closed. *)
Lemma open_trajectory_log_header_lost (instance_id user_prompt log_dir : string)
  (w : world) :
  makedirs_ok host log_dir = true ->
  open_ok host (log_path_of log_dir instance_id) = true ->
  write_ok host (log_path_of log_dir instance_id)
    (Header instance_id user_prompt) = false ->
  _open_trajectory_log host instance_id user_prompt (Some log_dir) w
  = (Ok None, (w ++ [Makedirs log_dir])
              ++ [Open (log_path_of log_dir instance_id)]).
Proof.
  intros Hmk Hop Hwr. unfold _open_trajectory_log.
  fold (log_path_of log_dir instance_id). rewrite Hmk, Hop, Hwr. reflexivity.
Qed.


End LogFacts.

(* ================================================================== *)
(** ** The extraction on sample texts *)

Example parse_prefers_wrapper :
  sample_parse Sample.both_blocks = Some [("from", PStr "wrapper")].
Proof. vm_compute. reflexivity. Qed.

Example parse_whole_text :
  sample_parse Sample.bare_record = Some [("from", PStr "whole")].
Proof. vm_compute. reflexivity. Qed.

Example parse_scans_prose :
  sample_parse Sample.prose_with_record = Some [("from", PStr "scan")].
Proof. vm_compute. reflexivity. Qed.

(** The whole text loads, to a list: it is passed over, and the scan
    finds the record inside. *)
Example parse_passes_over_list :
  json_loads (JsonDecoder := Json.decoder) Sample.array_of_record
  = Some (PList [PDict [("from", PStr "inside")]])
  /\ sample_parse Sample.array_of_record = Some [("from", PStr "inside")].
Proof. split; vm_compute; reflexivity. Qed.

Example parse_nothing :
  sample_parse "No configuration could be produced." = None.
Proof. vm_compute. reflexivity. Qed.

(** For the sample decoder the scan takes the first opening brace at
    which decoding succeeds. *)
Lemma sample_scan_first_success (text : string) (i : nat) (d : dict) :
  first_decoding (json := Json.decoder) text i d <->
  decodes_at (json := Json.decoder) text i d
  /\ forall j, j < i -> PyStr.at_ j text = Some "{"%char ->
                Json.decode_prefix (PyStr.from j text) = None.
Proof.
  apply (first_decoding_first_success (json := Json.decoder)).
  exact JsonFacts.decode_prefix_brace.
Qed.

(* ================================================================== *)
(** ** The driver on the sample sessions *)

(** Runs the part of a sample run up to the end of its stream, and
    names the state and the world it ends with. *)
Ltac run_session st w' Hs Hst :=
  match goal with
  | |- context [@run_agent ?j ?u ?h ?i ?rd ?m ?t ?l ?p ?w] =>
      destruct (@session u h i rd m t l p w) as [[[st|]|?] w'] eqn:Hs;
      [|vm_compute in Hs; discriminate|vm_compute in Hs; discriminate];
      assert (Hst := Hs); vm_compute in Hst; injection Hst as Hst _
  end.

Lemma validation_gate_witness :
  fst (sample_run
         (Sample.answering (Sample.wrapped Sample.no_setup_text) false)
         (Sample.descriptor "demo-1"))
  = Ok None.
Proof.
  unfold sample_run. run_session st w' Hs Hst.
  match goal with
  | |- fst (@run_agent ?j ?u ?h ?i ?rd ?m ?t ?l ?p ?w) = _ =>
      rewrite (@validation_gate j u h i rd m t l p w w' st
                 Sample.no_setup_record Hs)
  end.
  - reflexivity.
  - rewrite <- Hst. vm_compute. reflexivity.
  - right. exists [("other.sh", PStr "true")]. split; reflexivity.
Defined.

Lemma marker_auto_repair_witness :
  exists returned,
    fst (sample_run
           (Sample.answering (Sample.wrapped Sample.record_text) false)
           (Sample.descriptor "demo-1"))
    = Ok (Some returned)
    /\ PyDict.get "eval_script" returned
       = Some (PStr ("pytest tests" ++ marker_snippet)).
Proof.
  unfold sample_run. run_session st w' Hs Hst.
  match goal with
  | |- exists _, fst (@run_agent ?j ?u ?h ?i ?rd ?m ?t ?l ?p ?w) = _ /\ _ =>
      destruct (@marker_auto_repair j u h i rd m t l p w w' st
                  Sample.record ("pytest tests" ++ nl ++ nl) Hs)
        as (returned & Hrun & Hrepair)
  end.
  - rewrite <- Hst. reflexivity.
  - rewrite <- Hst. vm_compute. reflexivity.
  - split.
    + intros key [<-|[<-|[<-|[]]]]; reflexivity.
    + eexists. split; reflexivity.
  - reflexivity.
  - exists returned. rewrite Hrun. split; [reflexivity|].
    assert (Hc : PyStr.contains "OMNIGRIL_EXIT_CODE"
                   ("pytest tests" ++ nl ++ nl) = false)
      by (vm_compute; reflexivity).
    rewrite Hc in Hrepair. cbv zeta in Hrepair.
    destruct Hrepair as (_ & Hget & _). rewrite Hget.
    vm_compute. reflexivity.
Defined.



(** The clause of line 273 catches instances of [Exception] only.  A
    cancellation that reaches the task while it reads the stream
    leaves [run_agent]; the log keeps its header and the entries
    written so far, gets no footer and is not closed. *)
Example run_agent_cancelled :
  exists user_prompt entries,
    sample_run Sample.cancelled (Sample.descriptor "demo-1")
    = (Raise (BaseExn "CancelledError" ""),
       ([Makedirs "./logs"; Open "./logs/demo-1.jsonl";
         Write "./logs/demo-1.jsonl" (Header "demo-1" user_prompt)]
        ++ entry_writes "./logs/demo-1.jsonl" entries)%list).
Proof.
  eexists. eexists (cons _ nil). vm_compute. reflexivity.
Qed.

(** C5, as stated, fails: a descriptor without the field [repo] makes
    [run_agent] raise [KeyError]. *)
Lemma run_agent_raises_without_repo :
  fst (sample_run
         (Sample.answering (Sample.wrapped Sample.record_text) false)
         Sample.bare_descriptor)
  = Raise (KeyError "repo").
Proof. vm_compute. reflexivity. Qed.

(** C4.  The repair fails on a record whose test script is a list of
    lines.  The final text [Sample.list_script_text] is extracted to a
    record that passes the checks on its fields; its test script is
    the list of the one line [pytest tests], in which the search for
    the marker finds nothing; the repair then calls [rstrip] on the
    list, and [run_agent] raises [AttributeError] where a script that
    carries the marker was to be returned. *)
Theorem run_agent_raises_on_list_script :
  sample_parse Sample.list_script_text = Some Sample.list_script_record
  /\ passes_field_validation Sample.list_script_record
  /\ PyDict.get "eval_script" Sample.list_script_record
     = Some (PList [PStr "pytest tests"])
  /\ py_in "OMNIGRIL_EXIT_CODE" (PList [PStr "pytest tests"]) = Ok false
  /\ exists message,
       fst (sample_run
              (Sample.answering (Sample.wrapped Sample.list_script_text)
                 false)
              (Sample.descriptor "demo-1"))
       = Raise (Exn "AttributeError" message).
Proof.
  split; [vm_compute; reflexivity|]. split.
  { split.
    - intros key [<-|[<-|[<-|[]]]]; reflexivity.
    - eexists. split; reflexivity. }
  split; [reflexivity|]. split; [reflexivity|].
  eexists. vm_compute. reflexivity.
Qed.

(** A record whose test script is a number makes the search for the
    marker raise [TypeError], which leaves [run_agent]. *)
Lemma run_agent_raises_on_numeric_script :
  fst (sample_run
         (Sample.answering (Sample.wrapped Sample.ill_typed_text) false)
         (Sample.descriptor "demo-1"))
  = Raise (Exn "TypeError" "argument is not iterable").
Proof. vm_compute. reflexivity. Qed.

Lemma run_agent_returns_witness :
  exists w',
    sample_run (Sample.answering (Sample.wrapped Sample.no_setup_text) false)
      (Sample.descriptor "demo-1")
    = (Ok None, w').
Proof.
  unfold sample_run.
  match goal with
  | |- exists _, @run_agent ?j ?u ?h ?i ?rd ?m ?t ?l ?p ?w = _ =>
      destruct (@run_agent_returns j u h i rd m t l p w)
        as (r & w' & Hrun & _ & Hnone);
      [| | | |
       destruct (@session u h i rd m t l p w)
         as [[[st|]|?] w0] eqn:Hs;
       [|vm_compute in Hs; discriminate|vm_compute in Hs; discriminate];
       assert (Hst := Hs); vm_compute in Hst; injection Hst as Hst _]
  end.
  - exists "demo-1", "octo/demo", "0123456789abcdef". repeat split.
  - intros dir _. reflexivity.
  - intros p o c m H. discriminate H.
  - intros st w' d Hsession _ Hout.
    vm_compute in Hsession. injection Hsession as <- _.
    vm_compute in Hout. injection Hout as <-.
    split; intros v Hv; vm_compute in Hv; injection Hv as <-;
      eexists; reflexivity.
  - exists w'. rewrite Hrun. f_equal. f_equal.
    assert (Hw : w0 = w').
    { unfold run_agent in Hrun. rewrite Hs in Hrun.
      injection Hrun as _ Hw. exact Hw. }
    subst w0. apply (Hnone st eq_refl).
    right. right. exists Sample.no_setup_record. split.
    + rewrite <- Hst. vm_compute. reflexivity.
    + right. exists [("other.sh", PStr "true")]. split; reflexivity.
Defined.

(* ================================================================== *)
(** ** How the world grows *)

Section WorldFacts.
Context {json : JsonDecoder} {unidiff : Unidiff}.
Variable host : Host.

Lemma grows_refl (w : world) : grows_quietly w w.
Proof. exists []. split; [rewrite app_nil_r; reflexivity|constructor]. Qed.

Lemma grows_trans (w1 w2 w3 : world) :
  grows_quietly w1 w2 -> grows_quietly w2 w3 -> grows_quietly w1 w3.
Proof.
  intros (n1 & -> & H1) (n2 & -> & H2). exists (n1 ++ n2). split.
  - rewrite app_assoc. reflexivity.
  - apply Forall_app. split; assumption.
Qed.

Lemma grows_step (w new : world) :
  no_dump new -> grows_quietly w (w ++ new).
Proof. intros H. exists new. split; [reflexivity|exact H]. Qed.

Ltac quiet_events :=
  apply grows_step; repeat constructor.

Lemma subprocess_run_grows (argv : list string) (cwd : option string)
  (timeout : nat) (w : world) :
  grows_quietly w (snd (subprocess_run host argv cwd timeout w)).
Proof.
  unfold subprocess_run. destruct (proc host _ argv) as [[|?|?]|];
    cbn [snd]; quiet_events.
Qed.

Lemma clone_repo_grows (instance : instance) (repo_root_dir : string)
  (w : world) :
  grows_quietly w (snd (clone_repo host instance repo_root_dir w)).
Proof.
  unfold clone_repo.
  destruct (PyDict.get "instance_id" instance) as [iid|]; [|apply grows_refl].
  destruct (PyDict.get "repo" instance) as [repo|]; [|apply grows_refl].
  destruct (PyDict.get "base_commit" instance) as [commit|];
    [|apply grows_refl].
  assert (Hclone : forall w0,
    grows_quietly w0
      (snd (match subprocess_run host
                    ["git"; "clone"; "-o"; "origin";
                     ("https://github.com/" ++ repo)%string;
                     path_join repo_root_dir iid] None 300 w0 with
            | (Raise _, w1) => (Ok None, w1)
            | (Ok _, w1) =>
                match subprocess_run host ["git"; "reset"; "--hard"; commit]
                        (Some (path_join repo_root_dir iid)) 120 w1 with
                | (Raise _, w2) => (Ok None, w2)
                | (Ok _, w2) => (Ok (Some (path_join repo_root_dir iid)), w2)
                end
            end))).
  { intros w0.
    pose proof (subprocess_run_grows
                  ["git"; "clone"; "-o"; "origin";
                   ("https://github.com/" ++ repo)%string;
                   path_join repo_root_dir iid] None 300 w0) as H1.
    destruct (subprocess_run host _ None 300 w0) as [[[]|e1] w1];
      cbn [snd] in *; [|exact H1].
    pose proof (subprocess_run_grows ["git"; "reset"; "--hard"; commit]
                  (Some (path_join repo_root_dir iid)) 120 w1) as H2.
    destruct (subprocess_run host _ _ 120 w1) as [[[]|e2] w2];
      cbn [snd] in *; eapply grows_trans; eassumption. }
  destruct (isdir host (path_join repo_root_dir iid)); [|apply Hclone].
  pose proof (subprocess_run_grows ["git"; "reset"; "--hard"; commit]
                (Some (path_join repo_root_dir iid)) 120 w) as H1.
  destruct (subprocess_run host _ _ 120 w) as [[[]|e1] w1]; cbn [snd] in H1.
  - pose proof (subprocess_run_grows ["git"; "clean"; "-fd"]
                  (Some (path_join repo_root_dir iid)) 60 w1) as H2.
    destruct (subprocess_run host _ _ 60 w1) as [[[]|e2] w2]; cbn [snd] in H2.
    + cbn [snd]. eapply grows_trans; eassumption.
    + eapply grows_trans; [exact H1|]. eapply grows_trans; [exact H2|].
      eapply grows_trans; [|apply Hclone]. quiet_events.
  - eapply grows_trans; [exact H1|].
    eapply grows_trans; [|apply Hclone]. quiet_events.
Qed.

Lemma append_to_log_grows (log_file : option string) (data : dict)
  (w : world) :
  grows_quietly w (_append_to_log host log_file data w).
Proof.
  unfold _append_to_log. destruct log_file as [path|]; [|apply grows_refl].
  destruct (write_ok host path _); [quiet_events|apply grows_refl].
Qed.

Lemma close_trajectory_log_grows (log_file : option string) (w : world) :
  grows_quietly w (_close_trajectory_log host log_file w).
Proof.
  unfold _close_trajectory_log. destruct log_file as [path|];
    [|apply grows_refl].
  destruct (write_ok host path _); [quiet_events|apply grows_refl].
Qed.

Lemma open_trajectory_log_grows (instance_id user_prompt : string)
  (log_dir : option string) (w : world) :
  grows_quietly w
    (snd (_open_trajectory_log host instance_id user_prompt log_dir w)).
Proof.
  unfold _open_trajectory_log. destruct log_dir as [dir|];
    [|apply grows_refl].
  destruct (makedirs_ok host dir); cbn [negb]; [|apply grows_refl].
  destruct (open_ok host _); cbn [negb snd]; [|quiet_events].
  destruct (write_ok host _ _); cbn [negb snd].
  - rewrite <- !app_assoc. quiet_events.
  - rewrite <- !app_assoc. quiet_events.
Qed.

Lemma consume_grows (log_file : option string) (raised : option exn) :
  forall (messages : list Message) (st : loop_state) (w : world),
    grows_quietly w (snd (consume host log_file messages raised st w)).
Proof.
  induction messages as [|m messages IH]; intros st w.
  - simpl. destruct raised; apply grows_refl.
  - assert (Hlog : forall data st',
              grows_quietly w
                (snd (consume host log_file messages raised st'
                        (_append_to_log host log_file data w)))).
    { intros data st'. eapply grows_trans; [apply append_to_log_grows|apply IH]. }
    destruct m as [mdl content|content|sub data|rm|];
      cbn [consume _serialize_message].
    + destruct (assistant_content content []); [apply Hlog|].
      apply append_to_log_grows.
    + apply Hlog.
    + apply Hlog.
    + apply append_to_log_grows.
    + apply IH.
Qed.

Lemma session_grows (instance : instance) (repo_dir model : string)
  (max_turns : nat) (log_dir : option string) (project_dir : string)
  (w : world) :
  grows_quietly w
    (snd (session host instance repo_dir model max_turns log_dir
            project_dir w)).
Proof.
  unfold session.
  destruct (PyDict.get "instance_id" instance) as [iid|]; [|apply grows_refl].
  destruct (build_user_prompt instance _) as [user_prompt|];
    [|apply grows_refl].
  pose proof (open_trajectory_log_grows iid user_prompt log_dir w) as Hopen.
  destruct (_open_trajectory_log host iid user_prompt log_dir w)
    as [[log_file|exc] w0]; cbn [snd] in Hopen; [|exact Hopen].
  match goal with
  | |- context [consume host log_file ?ms ?rs ?st w0] =>
      pose proof (consume_grows log_file rs ms st w0) as Hc;
      destruct (consume host log_file ms rs st w0) as [[st'|exc] w1]
  end; cbn [snd] in *.
  - eapply grows_trans; [exact Hopen|]. eapply grows_trans; [exact Hc|].
    apply close_trajectory_log_grows.
  - eapply grows_trans; [exact Hopen|].
    destruct exc as [c m|c m]; cbn [snd]; [|exact Hc].
    eapply grows_trans; [exact Hc|].
    eapply grows_trans; [apply append_to_log_grows|].
    apply close_trajectory_log_grows.
Qed.

Lemma run_agent_grows (instance : instance) (repo_dir model : string)
  (max_turns : nat) (log_dir : option string) (project_dir : string)
  (w : world) :
  grows_quietly w
    (snd (run_agent host instance repo_dir model max_turns log_dir
            project_dir w)).
Proof.
  unfold run_agent.
  pose proof (session_grows instance repo_dir model max_turns log_dir
                project_dir w) as H.
  destruct (session host instance repo_dir model max_turns log_dir
              project_dir w) as [[[st|]|exc] w']; exact H.
Qed.

Lemma process_instance_grows (instance : instance)
  (repo_root_dir model : string) (max_turns : nat) (log_dir : option string)
  (project_dir : string) (w : world) :
  grows_quietly w
    (snd (process_instance host instance repo_root_dir model max_turns
            log_dir project_dir w)).
Proof.
  unfold process_instance.
  destruct (PyDict.get "instance_id" instance) as [iid|]; [|apply grows_refl].
  pose proof (clone_repo_grows instance repo_root_dir w) as Hclone.
  destruct (clone_repo host instance repo_root_dir w)
    as [[[repo_dir|]|exc] w0]; cbn [snd] in Hclone; try exact Hclone.
  pose proof (run_agent_grows instance repo_dir model max_turns log_dir
                project_dir w0) as Hrun.
  destruct (run_agent host instance repo_dir model max_turns log_dir
              project_dir w0) as [[result|exc] w1]; cbn [snd] in *;
    eapply grows_trans; eassumption.
Qed.

End WorldFacts.

(* ================================================================== *)
(** ** The pipeline: placeholders, keys and resume *)

Section PipelineFacts.
Context {json : JsonDecoder} {unidiff : Unidiff}.
Variable host : Host.

Lemma nth_error_middle {A : Type} (l : list A) (i : nat) (x : A) :
  nth_error l i = Some x -> l = firstn i l ++ x :: skipn (S i) l.
Proof.
  revert i. induction l as [|a l IH]; intros [|i] H; simpl in H;
    try discriminate.
  - injection H as ->. reflexivity.
  - simpl. f_equal. apply IH. exact H.
Qed.

(** Every pending task is handed over once. *)
Lemma completion_order_permutation {A : Type} :
  forall (n step : nat) (pending : list A),
    List.length pending = n ->
    Permutation (completion_order host step n pending) pending.
Proof.
  induction n as [|n IH]; intros step pending Hlen.
  - destruct pending; [constructor|discriminate].
  - cbn [completion_order].
    assert (Hi : completes_next host step mod List.length pending
                 < List.length pending).
    { apply Nat.mod_upper_bound. rewrite Hlen. discriminate. }
    remember (completes_next host step mod List.length pending) as i eqn:Ei.
    clear Ei.
    destruct (nth_error pending i) as [task|] eqn:Hnth.
    + pose proof (nth_error_middle _ _ _ Hnth) as Hsplit.
      assert (Hrest : List.length (firstn i pending ++ skipn (S i) pending) = n).
      { apply (f_equal (@List.length A)) in Hsplit.
        rewrite length_app in Hsplit. cbn [List.length] in Hsplit.
        rewrite length_app. rewrite Hlen in Hsplit. lia. }
      apply Permutation_trans
        with (task :: firstn i pending ++ skipn (S i) pending).
      * constructor. apply IH. exact Hrest.
      * rewrite Hsplit at 3. apply Permutation_middle.
    + apply nth_error_None in Hnth. lia.
Qed.

Lemma as_completed_permutation {A : Type} (tasks : list A) :
  Permutation (as_completed host tasks) tasks.
Proof. apply completion_order_permutation. reflexivity. Qed.

(** What a task hands over: the [instance_id] of its instance, and a
    record that carries it. *)
Lemma process_instance_result (instance : instance)
  (repo_root_dir model : string) (max_turns : nat) (log_dir : option string)
  (project_dir : string) (w w' : world) (k : string) (res : option dict) :
  process_instance host instance repo_root_dir model max_turns log_dir
    project_dir w = (Ok (k, res), w') ->
  PyDict.get "instance_id" instance = Some k
  /\ exists r, res = Some r /\ PyDict.get "instance_id" r = Some (PStr k).
Proof.
  unfold process_instance.
  destruct (PyDict.get "instance_id" instance) as [iid|]; [|discriminate].
  destruct (clone_repo host instance repo_root_dir w)
    as [[[repo_dir|]|exc] w0]; [| |discriminate].
  - destruct (run_agent host instance repo_dir model max_turns log_dir
                project_dir w0) as [[result|exc] w1]; [|discriminate].
    intros H. injection H as <- <- _. split; [reflexivity|].
    eexists. split; [reflexivity|]. apply PyDictFacts.get_set_same.
  - intros H. injection H as <- <- _. split; [reflexivity|].
    eexists. split; reflexivity.
Qed.

(** A property of the result mapping that every store of a task keeps
    holds of each snapshot written by the collecting loop and of the
    mapping it ends with. *)
Lemma collect_invariant (cfg : RunConfig) (Q : dict -> Prop) :
  forall (completed : list instance) (all_results : dict) (w : world)
         (res : outcome dict) (w' : world),
    (forall inst k r all,
       In inst completed -> PyDict.get "instance_id" inst = Some k ->
       PyDict.get "instance_id" r = Some (PStr k) ->
       Q all -> Q (PyDict.set k (PDict r) all)) ->
    Q all_results ->
    collect host cfg completed all_results w = (res, w') ->
    (forall m, res = Ok m -> Q m)
    /\ exists new, w' = w ++ new
                   /\ Forall (fun e => match e with
                                       | Dump p m => p = cfg_output cfg /\ Q m
                                       | _ => True
                                       end) new.
Proof.
  induction completed as [|inst rest IH]; intros all w res w' Hstep HQ Hc.
  - simpl in Hc. injection Hc as <- <-. split.
    + intros m H. injection H as <-. exact HQ.
    + exists []. split; [rewrite app_nil_r; reflexivity|constructor].
  - cbn [collect] in Hc.
    pose proof (process_instance_grows host inst (cfg_repo_dir cfg)
                  (cfg_model cfg) (cfg_max_turns cfg) (cfg_log_dir cfg)
                  (cfg_project_dir cfg) w) as (new1 & Hw1 & Hquiet).
    assert (Hquiet' :
      Forall (fun e => match e with
                       | Dump p m => p = cfg_output cfg /\ Q m
                       | _ => True
                       end) new1).
    { eapply Forall_impl; [|exact Hquiet]. intros [] H; tauto. }
    destruct (process_instance host inst _ _ _ _ _ w)
      as [[[k result]|exc] w1] eqn:Hp; cbn [snd] in Hw1; subst w1.
    + destruct (process_instance_result _ _ _ _ _ _ _ _ _ _ Hp)
        as (Hk & r & -> & Hr).
      assert (HQ' : Q (PyDict.set k (PDict r) all)).
      { apply (Hstep inst k r all); [left; reflexivity|assumption..]. }
      destruct (open_ok host (cfg_output cfg)); cbn [negb] in Hc.
      * apply IH in Hc; [|intros; eapply Hstep; eauto; right; assumption
                         |exact HQ'].
        destruct Hc as (Hres & new2 & -> & Hnew2). split; [exact Hres|].
        exists (new1 ++ Dump (cfg_output cfg) (PyDict.set k (PDict r) all)
                  :: new2).
        split.
        -- rewrite <- !app_assoc. reflexivity.
        -- apply Forall_app. split; [exact Hquiet'|].
           constructor; [split; [reflexivity|exact HQ']|exact Hnew2].
      * injection Hc as <- <-. split; [discriminate|].
        exists new1. split; [reflexivity|exact Hquiet'].
    + injection Hc as <- <-. split; [discriminate|].
      exists new1. split; [reflexivity|exact Hquiet'].
Qed.


Lemma self_identified_set (k k' : string) (r : dict) (all : dict) :
  PyDict.get "instance_id" r = Some (PStr k') ->
  self_identified k all ->
  self_identified k (PyDict.set k' (PDict r) all).
Proof.
  intros Hr (r0 & Hget & Hid). unfold self_identified.
  destruct (string_dec k k') as [->|Hne].
  - exists r. split; [apply PyDictFacts.get_set_same|exact Hr].
  - exists r0. split; [|exact Hid].
    rewrite PyDictFacts.get_set_other by exact Hne. exact Hget.
Qed.

(** When the collecting loop comes to its end, every task it was given
    has its record in the mapping, under the [instance_id] of its
    instance. *)
Lemma collect_stores (cfg : RunConfig) :
  forall (completed : list instance) (all_results : dict) (w : world)
         (final : dict) (w' : world),
    collect host cfg completed all_results w = (Ok final, w') ->
    forall inst, In inst completed ->
      exists k, PyDict.get "instance_id" inst = Some k
                /\ self_identified k final.
Proof.
  induction completed as [|task rest IH]; intros all w final w' Hc inst Hin;
    [contradiction|].
  cbn [collect] in Hc.
  destruct (process_instance host task _ _ _ _ _ w)
    as [[[k result]|exc] w1] eqn:Hp; [|discriminate].
  destruct (process_instance_result _ _ _ _ _ _ _ _ _ _ Hp)
    as (Hk & r & -> & Hr).
  destruct (open_ok host (cfg_output cfg)); cbn [negb] in Hc; [|discriminate].
  destruct Hin as [<-|Hin]; [|eapply IH; eassumption].
  exists k. split; [exact Hk|].
  destruct (collect_invariant cfg (self_identified k) rest _ _ _ _
              (fun _ k' r' all' _ _ Hr' Hall =>
                 self_identified_set k k' r' all' Hr' Hall)
              (ex_intro _ r (conj (PyDictFacts.get_set_same k (PDict r) all)
                               Hr))
              Hc) as [Hfinal _].
  apply Hfinal. reflexivity.
Qed.

(** [run_pipeline] is the collecting loop over the work set. *)
Lemma run_pipeline_collects (cfg : RunConfig) (w : world)
  (res : outcome (option dict)) (w' : world) :
  run_pipeline host cfg w = (res, w') ->
  (res = Ok None /\ grows_quietly w w')
  \/ (exists exc, res = Raise exc /\ w' = w)
  \/ exists r,
       collect host cfg (as_completed host (PyDict.values (work_set host cfg)))
         (_load_existing_results host cfg)
         (w ++ [Makedirs (cfg_repo_dir cfg)]) = (r, w')
       /\ res = match r with
                | Ok final =>
                    match summary_counts final with
                    | Ok _ => Ok (Some final)
                    | Raise exc => Raise exc
                    end
                | Raise exc => Raise exc
                end.
Proof.
  unfold run_pipeline, work_set.
  destruct (load_instances host _ _) as [instances|exc0].
  2: { intros H. injection H as <- <-. right. left. eexists.
       split; reflexivity. }
  destruct (_filter_instances instances cfg) as [|i0 filtered] eqn:Hf.
  - intros H. injection H as <- <-. left. split; [reflexivity|apply grows_refl].
  - destruct (makedirs_ok host (cfg_repo_dir cfg)); cbn [negb].
    + match goal with
      | |- context [match ?ws with [] => (Ok None, _) | _ :: _ => _ end] =>
          destruct ws as [|i1 remaining] eqn:Hws
      end.
      * intros H. injection H as <- <-. left. split; [reflexivity|].
        apply grows_step. repeat constructor.
      * intros H. right. right.
        match type of H with
        | match ?c with _ => _ end = _ => destruct c as [[final|exc] w1] eqn:Hc
        end; [destruct (summary_counts final) eqn:Hsum|];
        injection H as <- <-; eexists; (split; [reflexivity|]);
        cbv beta iota; try rewrite Hsum; reflexivity.
    + intros H. injection H as <- <-. right. left. eexists.
      split; reflexivity.
Qed.

Lemma in_mem {V : Type} (k : string) (v : V) (d : list (string * V)) :
  In (k, v) d -> PyDict.mem k d = true.
Proof.
  unfold PyDict.mem. induction d as [|[k' v'] d IH]; [contradiction|].
  intros [H|H]; simpl.
  - injection H as -> ->. rewrite String.eqb_refl. reflexivity.
  - destruct (String.eqb k' k); [reflexivity|]. apply IH. exact H.
Qed.

Lemma in_values {V : Type} (v : V) (d : list (string * V)) :
  In v (PyDict.values d) -> exists k, In (k, v) d.
Proof.
  unfold PyDict.values. intros H. apply in_map_iff in H.
  destruct H as ([k v'] & Hv & Hin). simpl in Hv. subst v'.
  exists k. exact Hin.
Qed.

End PipelineFacts.

Lemma restrict_to_in {V : Type} (keys : list string)
  (selected : list (string * V)) (k : string) (v : V) :
  In (k, v) (restrict_to keys selected) -> In (k, v) selected.
Proof.
  unfold restrict_to. intros H. apply in_flat_map in H.
  destruct H as (k' & _ & H).
  destruct (PyDict.get k' selected) as [v'|] eqn:Hget; [|contradiction].
  destruct H as [H|[]]. injection H as -> ->.
  apply PyDictFacts.get_in. exact Hget.
Qed.

(** The filters only select: what they leave was there. *)
Lemma filter_instances_in {V : Type} (instances : list (string * V))
  (cfg : RunConfig) (k : string) (v : V) :
  In (k, v) (_filter_instances instances cfg) -> In (k, v) instances.
Proof.
  unfold _filter_instances.
  set (selected := match cfg_instance_ids cfg with
                   | Some (id :: ids') => _
                   | _ => instances
                   end).
  assert (Hsel : In (k, v) selected -> In (k, v) instances).
  { subst selected. destruct (cfg_instance_ids cfg) as [[|id ids']|];
      try tauto.
    unfold PyDict.filter_keys. intros H. apply filter_In in H. tauto. }
  destruct (cfg_start cfg), (cfg_end cfg); try exact Hsel;
    intros H; apply Hsel; eapply restrict_to_in; exact H.
Qed.

Lemma mem_set {V : Type} (k k0 : string) (v : V) (d : list (string * V)) :
  PyDict.mem k0 (PyDict.set k v d) = true ->
  k0 = k \/ PyDict.mem k0 d = true.
Proof.
  destruct (string_dec k0 k) as [->|Hne]; [left; reflexivity|].
  unfold PyDict.mem. rewrite PyDictFacts.get_set_other by exact Hne.
  intros H. right. exact H.
Qed.

Lemma get_mem {V : Type} (k : string) (v : V) (d : list (string * V)) :
  PyDict.get k d = Some v -> PyDict.mem k d = true.
Proof. unfold PyDict.mem. intros ->. reflexivity. Qed.




Section PipelineClaims.
Context {json : JsonDecoder} {unidiff : Unidiff}.
Variable host : Host.

(** When [clone_repo] reports no usable directory, the last command it
    ran is the clone or the reset after it, and that command did not
    exit with status 0. *)
Lemma clone_repo_failure (instance : instance) (repo_root_dir : string)
  (w w1 : world) :
  clone_repo host instance repo_root_dir w = (Ok None, w1) ->
  exists pre argv cwd timeout r,
    w1 = pre ++ [Run argv cwd timeout r]
    /\ r <> Exited 0
    /\ (nth 1 argv "" = "clone" \/ nth 1 argv "" = "reset").
Proof.
  unfold clone_repo, subprocess_run.
  destruct (PyDict.get "instance_id" instance) as [iid|]; [|discriminate].
  destruct (PyDict.get "repo" instance) as [repo|]; [|discriminate].
  destruct (PyDict.get "base_commit" instance) as [commit|]; [|discriminate].
  intros H.
  repeat match type of H with
         | context [isdir host ?d] => destruct (isdir host d)
         | context [proc host ?n ?a] =>
             destruct (proc host n a) as [[|?|?]|] eqn:?
         end;
    try discriminate;
    injection H as <-;
    do 5 eexists; (split; [reflexivity|]);
    (split; [discriminate|]); simpl; tauto.
Qed.

(** C8.  When the preparation of an instance's repository fails (the
    clone, or the reset after it, exits with a non-zero status or times
    out), its task does not raise: it hands over the placeholder that
    holds the [instance_id] only, and the collecting loop stores it,
    writes the output file and goes on with the tasks that remain. *)
Theorem clone_failure_placeholder (cfg : RunConfig) (task : instance)
  (rest : list instance) (all_results : dict) (w w1 : world) (k : string) :
  PyDict.get "instance_id" task = Some k ->
  clone_repo host task (cfg_repo_dir cfg) w = (Ok None, w1) ->
  (exists pre argv cwd timeout r,
     w1 = pre ++ [Run argv cwd timeout r]
     /\ r <> Exited 0
     /\ (nth 1 argv "" = "clone" \/ nth 1 argv "" = "reset"))
  /\ process_instance host task (cfg_repo_dir cfg) (cfg_model cfg)
       (cfg_max_turns cfg) (cfg_log_dir cfg) (cfg_project_dir cfg) w
     = (Ok (k, Some (placeholder k)), w1)
  /\ let stored := PyDict.set k (PDict (placeholder k)) all_results in
     open_ok host (cfg_output cfg) = true ->
     collect host cfg (task :: rest) all_results w
     = collect host cfg rest stored (w1 ++ [Dump (cfg_output cfg) stored]).
Proof.
  intros Hk Hclone. split; [|split].
  - eapply clone_repo_failure. exact Hclone.
  - unfold process_instance. rewrite Hk, Hclone. reflexivity.
  - cbv zeta. intros Hopen. cbn [collect]. unfold process_instance.
    rewrite Hk, Hclone, Hopen. reflexivity.
Qed.

(** C10.  Every record that a run stores in the result mapping carries
    an [instance_id] equal to the key it is stored under: each entry of
    each snapshot written is either an entry loaded before the run or
    such a record, and when the run comes to its end every instance of
    the work set has such a record under its own [instance_id],
    whatever the agent's record said and whether the agent or the clone
    failed. *)
Theorem stored_under_own_id (cfg : RunConfig) (w : world)
  (res : outcome (option dict)) (w' : world) :
  run_pipeline host cfg w = (res, w') ->
  let loaded := _load_existing_results host cfg in
  let kept_or_own (m : dict) :=
    forall k v, PyDict.get k m = Some v ->
                PyDict.get k loaded = Some v \/ self_identified k m in
  (exists new, w' = w ++ new
               /\ forall p m, In (Dump p m) new -> kept_or_own m)
  /\ forall final, res = Ok (Some final) ->
       kept_or_own final
       /\ forall key inst, In (key, inst) (work_set host cfg) ->
            exists k, PyDict.get "instance_id" inst = Some k
                      /\ self_identified k final.
Proof.
  intros Hrun loaded kept_or_own.
  assert (Hstep : forall (inst : instance) k r all,
            In inst (as_completed host (PyDict.values (work_set host cfg))) ->
            PyDict.get "instance_id" inst = Some k ->
            PyDict.get "instance_id" r = Some (PStr k) ->
            kept_or_own all -> kept_or_own (PyDict.set k (PDict r) all)).
  { intros inst k r all _ _ Hr Hall k0 v Hget.
    destruct (string_dec k0 k) as [->|Hne].
    - right. exists r. split; [apply PyDictFacts.get_set_same|exact Hr].
    - rewrite PyDictFacts.get_set_other in Hget by exact Hne.
      destruct (Hall k0 v Hget) as [Hl|(r0 & Hg & Hid)]; [left; exact Hl|].
      right. exists r0. split; [|exact Hid].
      rewrite PyDictFacts.get_set_other by exact Hne. exact Hg. }
  assert (Hloaded : kept_or_own loaded).
  { intros k v Hget. left. exact Hget. }
  destruct (run_pipeline_collects host cfg w res w' Hrun)
    as [[-> (new & -> & Hquiet)]|[(exc & -> & ->)|(r & Hc & ->)]].
  - split; [|discriminate]. exists new. split; [reflexivity|].
    intros p m Hin. unfold no_dump in Hquiet. rewrite Forall_forall in Hquiet.
    destruct (Hquiet _ Hin).
  - split; [|discriminate]. exists []. split; [rewrite app_nil_r; reflexivity|].
    intros p m [].
  - destruct (collect_invariant host cfg kept_or_own _ _ _ _ _ Hstep Hloaded Hc)
      as (Hfinal & new & -> & Hnew).
    split.
    + exists (Makedirs (cfg_repo_dir cfg) :: new). split.
      * rewrite <- app_assoc. reflexivity.
      * intros p m [Hin|Hin]; [discriminate|].
        rewrite Forall_forall in Hnew. apply (Hnew _ Hin).
    + intros final Hres. destruct r as [final'|exc]; [|discriminate].
      destruct (summary_counts final'); [|discriminate].
      injection Hres as <-. split; [apply Hfinal; reflexivity|].
      intros key inst Hin.
      apply (collect_stores host cfg _ _ _ _ _ Hc).
      apply (Permutation_in _ (Permutation_sym (as_completed_permutation host _))).
      unfold PyDict.values. apply in_map_iff. exists (key, inst).
      split; [reflexivity|exact Hin].
Qed.


End PipelineClaims.

(* ================================================================== *)
(** ** The pipeline on the sample runs *)



Lemma clone_failure_placeholder_witness :
  fst (collect (json := Json.decoder) (unidiff := HeaderReader.reader) (sample_host Sample.all_fail None)
         default_cfg [Sample.descriptor "a"; Sample.descriptor "b"] [] [])
  = Ok [ ("a", PDict (placeholder "a")); ("b", PDict (placeholder "b")) ].
Proof.
  destruct (clone_failure_placeholder (json := Json.decoder)
              (unidiff := HeaderReader.reader)
              (sample_host Sample.all_fail None) default_cfg
              (Sample.descriptor "a") [Sample.descriptor "b"] [] []
              [ Run ["git"; "clone"; "-o"; "origin";
                     "https://github.com/octo/demo"; "./repo/a"]
                  None 300 (Exited 128) ]
              "a" eq_refl eq_refl)
    as (_ & _ & Hcollect).
  rewrite (Hcollect eq_refl). vm_compute. reflexivity.
Defined.

Lemma stored_under_own_id_witness :
  exists final,
    fst (sample_pipeline Sample.all_succeed None default_cfg)
    = Ok (Some final)
    /\ PyDict.get "instance_id" Sample.record = Some (PStr "someone-else")
    /\ self_identified "b" final.
Proof.
  unfold sample_pipeline.
  match goal with
  | |- exists _, fst ?run = _ /\ _ =>
      pose proof (stored_under_own_id (json := Json.decoder)
                    (unidiff := HeaderReader.reader)
                    (sample_host Sample.all_succeed None)
                    default_cfg [] (fst run) (snd run)
                    (surjective_pairing run))
        as (_ & Hfinal);
      assert (Hrun : exists final, fst run = Ok (Some final))
        by (vm_compute; eexists; reflexivity)
  end.
  destruct Hrun as (final & Hrun). exists final.
  split; [exact Hrun|]. split; [reflexivity|].
  destruct (Hfinal final Hrun) as [_ Hown].
  destruct (Hown "b" (Sample.descriptor "b")) as (k & Hk & Hself).
  - vm_compute. right. left. reflexivity.
  - injection Hk as <-. exact Hself.
Defined.

(* ================================================================== *)
(** * Further properties of the code *)

(* ================================================================== *)
(** ** Language detection *)

Module DetectFacts.

Lemma mem_false_not_in {V : Type} (k : string) (d : list (string * V)) :
  PyDict.mem k d = false -> ~ In k (PyDict.keys d).
Proof.
  unfold PyDict.mem, PyDict.keys.
  induction d as [|[k' v'] d IH]; simpl; [tauto|].
  destruct (String.eqb k' k) eqn:E; [discriminate|].
  intros H [Hk|Hk]; [|exact (IH H Hk)].
  subst k'. rewrite String.eqb_refl in E. discriminate.
Qed.

Lemma keys_set {V : Type} (k : string) (v : V) (d : list (string * V)) :
  PyDict.keys (PyDict.set k v d)
  = if PyDict.mem k d then PyDict.keys d else PyDict.keys d ++ [k].
Proof.
  unfold PyDict.mem, PyDict.keys.
  induction d as [|[k' v'] d IH]; simpl; [reflexivity|].
  destruct (String.eqb k' k) eqn:E; simpl; [reflexivity|].
  rewrite IH. destruct (PyDict.get k d); reflexivity.
Qed.

Lemma nodup_set {V : Type} (k : string) (v : V) (d : list (string * V)) :
  NoDup (PyDict.keys d) -> NoDup (PyDict.keys (PyDict.set k v d)).
Proof.
  intros Hd. rewrite keys_set.
  destruct (PyDict.mem k d) eqn:Hm; [exact Hd|].
  apply NoDup_app; [exact Hd|repeat constructor; intros []|].
  intros x Hx [<-|[]]. exact (mem_false_not_in _ _ Hm Hx).
Qed.

Lemma in_get_nodup {V : Type} (k : string) (v : V) (d : list (string * V)) :
  NoDup (PyDict.keys d) -> In (k, v) d -> PyDict.get k d = Some v.
Proof.
  unfold PyDict.keys.
  induction d as [|[k' v'] d IH]; simpl; [tauto|].
  intros Hd [H|H].
  - injection H as -> ->. rewrite String.eqb_refl. reflexivity.
  - inversion Hd as [|x l Hx Hl]; subst.
    destruct (String.eqb k' k) eqn:E; [|apply IH; assumption].
    apply String.eqb_eq in E. subst k'. exfalso. apply Hx.
    apply in_map_iff. exists (k, v). split; [reflexivity|exact H].
Qed.

Lemma files_in_app (lang : string) (a b : list string) :
  files_in lang (a ++ b) = files_in lang a + files_in lang b.
Proof. unfold files_in. rewrite filter_app, length_app. reflexivity. Qed.

Lemma files_in_positive (lang f : string) (files : list string) :
  In f files -> language_of f = Some lang -> 0 < files_in lang files.
Proof.
  intros Hin Hl. unfold files_in.
  destruct (filter _ files) as [|x l] eqn:E; [|simpl; lia].
  assert (Hf : In f (filter (fun f => match language_of f with
                                      | Some l => String.eqb l lang
                                      | None => false
                                      end) files)).
  { apply filter_In. split; [exact Hin|]. rewrite Hl. apply String.eqb_refl. }
  rewrite E in Hf. destruct Hf.
Qed.

Lemma files_in_file (lang : string) (files : list string) :
  files_in lang files <> 0 ->
  exists f, In f files /\ language_of f = Some lang.
Proof.
  unfold files_in. intros H.
  destruct (filter _ files) as [|f l] eqn:E; [contradiction H; reflexivity|].
  assert (Hf : In f (f :: l)) by (left; reflexivity).
  rewrite <- E in Hf. apply filter_In in Hf. destruct Hf as [Hin Hl].
  exists f. split; [exact Hin|].
  destruct (language_of f) as [l'|]; [|discriminate].
  apply String.eqb_eq in Hl. subst l'. reflexivity.
Qed.

(** One pass of the loop keeps the counts in step with the files. *)
Lemma count_languages_step (seen : list string) (f : string)
  (lang_counts : list (string * nat)) :
  counts_of seen lang_counts ->
  counts_of (seen ++ [f]) (count_languages [f] lang_counts).
Proof.
  intros [Hnodup Hget]. unfold count_languages. cbn [fold_left].
  assert (Hone : forall lang,
            files_in lang (seen ++ [f])
            = files_in lang seen
              + match language_of f with
                | Some l => if String.eqb l lang then 1 else 0
                | None => 0
                end).
  { intros lang. rewrite files_in_app. f_equal. unfold files_in.
    cbn [filter]. destruct (language_of f) as [l|]; [|reflexivity].
    destruct (String.eqb l lang); reflexivity. }
  unfold language_of in Hone.
  destruct (find _ EXTENSION_TO_LANGUAGE) as [[ext l]|].
  - split; [apply nodup_set; exact Hnodup|].
    intros lang. rewrite Hone. cbv zeta.
    assert (Hn : match PyDict.get l lang_counts with
                 | Some n => n
                 | None => 0
                 end = files_in l seen).
    { rewrite Hget. destruct (files_in l seen =? 0) eqn:E; [|reflexivity].
      apply Nat.eqb_eq in E. symmetry. exact E. }
    rewrite Hn. destruct (String.eqb l lang) eqn:E.
    + apply String.eqb_eq in E. subst lang.
      rewrite PyDictFacts.get_set_same.
      replace (files_in l seen + 1 =? 0) with false
        by (symmetry; apply Nat.eqb_neq; lia).
      reflexivity.
    + rewrite PyDictFacts.get_set_other.
      * rewrite Nat.add_0_r. apply Hget.
      * intros ->. rewrite String.eqb_refl in E. discriminate.
  - split; [exact Hnodup|]. intros lang. rewrite Hone, Nat.add_0_r.
    apply Hget.
Qed.

Lemma count_languages_counts (files : list string) :
  forall (seen : list string) (lang_counts : list (string * nat)),
    counts_of seen lang_counts ->
    counts_of (seen ++ files) (count_languages files lang_counts).
Proof.
  induction files as [|f files IH]; intros seen lang_counts H.
  - rewrite app_nil_r. exact H.
  - replace (seen ++ f :: files) with ((seen ++ [f]) ++ files)
      by (rewrite <- app_assoc; reflexivity).
    change (count_languages (f :: files) lang_counts)
      with (count_languages files (count_languages [f] lang_counts)).
    apply IH. apply count_languages_step. exact H.
Qed.

Lemma counts_of_start : counts_of [] [].
Proof. split; [constructor|reflexivity]. Qed.

Lemma counts_of_entry (seen : list string) (lang_counts : list (string * nat))
  (lang : string) (n : nat) :
  counts_of seen lang_counts ->
  In (lang, n) lang_counts -> n = files_in lang seen /\ n <> 0.
Proof.
  intros [Hnodup Hget] Hin.
  apply (in_get_nodup _ _ _ Hnodup) in Hin. rewrite Hget in Hin.
  destruct (files_in lang seen =? 0) eqn:E; [discriminate|].
  injection Hin as <-. split; [reflexivity|]. apply Nat.eqb_neq. exact E.
Qed.

Lemma counts_of_file (seen : list string) (lang_counts : list (string * nat))
  (lang : string) :
  counts_of seen lang_counts ->
  files_in lang seen <> 0 -> In (lang, files_in lang seen) lang_counts.
Proof.
  intros [_ Hget] Hn. apply PyDictFacts.get_in. rewrite Hget.
  apply Nat.eqb_neq in Hn. rewrite Hn. reflexivity.
Qed.

(** [max] gives a key whose count no count exceeds. *)
Lemma max_by_count_greatest (counts : list (string * nat)) :
  forall (best : string) (best_n : nat),
  exists n,
    In (max_by_count best best_n counts, n) ((best, best_n) :: counts)
    /\ forall k m, In (k, m) ((best, best_n) :: counts) -> m <= n.
Proof.
  induction counts as [|[lang c] rest IH]; intros best best_n.
  - exists best_n. split; [left; reflexivity|].
    intros k m [H|[]]. injection H as _ <-. lia.
  - cbn [max_by_count]. destruct (best_n <? c) eqn:E.
    + apply Nat.ltb_lt in E. destruct (IH lang c) as (n & Hin & Hmax).
      exists n. split; [right; exact Hin|].
      intros k m [H|H]; [|apply (Hmax k); exact H].
      injection H as _ <-.
      specialize (Hmax lang c (or_introl eq_refl)). lia.
    + apply Nat.ltb_ge in E. destruct (IH best best_n) as (n & Hin & Hmax).
      exists n. split.
      * destruct Hin as [Hin|Hin]; [left; exact Hin|right; right; exact Hin].
      * intros k m [H|[H|H]].
        -- apply (Hmax k). left. exact H.
        -- injection H as _ <-.
           specialize (Hmax best best_n (or_introl eq_refl)). lia.
        -- apply (Hmax k). right. exact H.
Qed.

(** [max] keeps the first key when no later count exceeds its own. *)
Lemma max_by_count_first (counts : list (string * nat)) :
  forall (best : string) (best_n : nat),
    (forall k m, In (k, m) counts -> m <= best_n) ->
    max_by_count best best_n counts = best.
Proof.
  induction counts as [|[lang c] rest IH]; intros best best_n H;
    [reflexivity|].
  cbn [max_by_count].
  assert (Hc : c <= best_n) by (apply (H lang); left; reflexivity).
  apply Nat.ltb_ge in Hc. rewrite Hc. apply IH.
  intros k m Hin. apply (H k). right. exact Hin.
Qed.

Lemma detect_language_counts (files : list string) :
  detect_language files
  = match count_languages files [] with
    | [] => "python"
    | (lang, n) :: rest => max_by_count lang n rest
    end.
Proof. reflexivity. Qed.

End DetectFacts.

(** X1.  No language has more files in the list than the language that
    [detect_language] gives: the result is a language of the largest
    number of files. *)
Theorem detect_language_most_files (files : list string) (lang : string) :
  files_in lang files <= files_in (detect_language files) files.
Proof.
  rewrite DetectFacts.detect_language_counts.
  pose proof (DetectFacts.count_languages_counts files [] []
                DetectFacts.counts_of_start) as Hcounts.
  cbn [app] in Hcounts.
  destruct (Nat.eq_dec (files_in lang files) 0) as [->|Hpos]; [lia|].
  pose proof (DetectFacts.counts_of_file _ _ _ Hcounts Hpos) as Hlang.
  destruct (count_languages files []) as [|[l n] rest]; [destruct Hlang|].
  destruct (DetectFacts.max_by_count_greatest rest l n) as (m & Hin & Hmax).
  destruct (DetectFacts.counts_of_entry _ _ _ _ Hcounts Hin) as [-> _].
  apply (Hmax lang). exact Hlang.
Qed.

(** X2.  The result of [detect_language] is the language of one of the
    files, or else no file of the list ends in an extension of the
    table (the empty list included) and the result is python. *)
Theorem detect_language_of_a_file (files : list string) :
  (exists f, In f files /\ language_of f = Some (detect_language files))
  \/ ((forall f, In f files -> language_of f = None)
      /\ detect_language files = "python").
Proof.
  rewrite DetectFacts.detect_language_counts.
  pose proof (DetectFacts.count_languages_counts files [] []
                DetectFacts.counts_of_start) as Hcounts.
  cbn [app] in Hcounts.
  destruct (count_languages files []) as [|[l n] rest] eqn:E.
  - right. split; [|reflexivity]. intros f Hin.
    destruct (language_of f) as [lang|] eqn:Hl; [|reflexivity].
    pose proof (DetectFacts.files_in_positive lang f files Hin Hl) as Hpos.
    assert (Hne : files_in lang files <> 0) by lia.
    destruct (DetectFacts.counts_of_file _ _ _ Hcounts Hne).
  - left.
    destruct (DetectFacts.max_by_count_greatest rest l n) as (m & Hin & _).
    destruct (DetectFacts.counts_of_entry _ _ _ _ Hcounts Hin) as [-> Hne].
    apply DetectFacts.files_in_file. exact Hne.
Qed.

(** X3.  Ties go to the language met first: when the first file of the
    list that ends in an extension of the table has the language
    [lang], and no language has more files than [lang], the result is
    [lang]. *)
Theorem detect_language_first_of_ties (skipped : list string) (f : string)
  (rest : list string) (lang : string) :
  (forall g, In g skipped -> language_of g = None) ->
  language_of f = Some lang ->
  (forall other, files_in other (skipped ++ f :: rest)
                 <= files_in lang (skipped ++ f :: rest)) ->
  detect_language (skipped ++ f :: rest) = lang.
Proof.
  intros Hskipped Hf Hmost.
  rewrite DetectFacts.detect_language_counts.
  pose proof (DetectFacts.count_languages_counts (skipped ++ f :: rest) [] []
                DetectFacts.counts_of_start) as Hcounts.
  cbn [app] in Hcounts.
  assert (Hhead : forall (files : list string) (n : nat)
                         (tail : list (string * nat)),
            exists n' tail',
              count_languages files ((lang, n) :: tail) = (lang, n') :: tail').
  { induction files as [|g files IH]; intros n tail;
      [exists n, tail; reflexivity|].
    change (count_languages (g :: files) ((lang, n) :: tail))
      with (count_languages files (count_languages [g] ((lang, n) :: tail))).
    unfold count_languages at 2. cbn [fold_left].
    destruct (find _ EXTENSION_TO_LANGUAGE) as [[ext l]|]; [|apply IH].
    cbv zeta. cbn [PyDict.set].
    destruct (String.eqb lang l); apply IH. }
  assert (Hskip : count_languages skipped [] = []).
  { clear Hcounts Hmost. induction skipped as [|g skipped IH]; [reflexivity|].
    change (count_languages (g :: skipped) [])
      with (count_languages skipped (count_languages [g] [])).
    unfold count_languages at 2. cbn [fold_left].
    pose proof (Hskipped g (or_introl eq_refl)) as Hg.
    unfold language_of in Hg.
    destruct (find _ EXTENSION_TO_LANGUAGE) as [[ext l]|]; [discriminate|].
    apply IH. intros g' Hin. apply Hskipped. right. exact Hin. }
  assert (Hsplit : count_languages (skipped ++ f :: rest) []
                   = count_languages rest
                       (count_languages [f] (count_languages skipped []))).
  { unfold count_languages. rewrite fold_left_app. reflexivity. }
  rewrite Hskip in Hsplit.
  assert (Hone : count_languages [f] [] = [(lang, 1)]).
  { unfold count_languages. cbn [fold_left]. unfold language_of in Hf.
    destruct (find _ EXTENSION_TO_LANGUAGE) as [[ext l]|]; [|discriminate].
    injection Hf as ->. reflexivity. }
  rewrite Hone in Hsplit.
  destruct (Hhead rest 1 []) as (n' & tail' & Hrest).
  rewrite Hrest in Hsplit. rewrite Hsplit in *.
  apply DetectFacts.max_by_count_first.
  intros k m Hin.
  destruct (DetectFacts.counts_of_entry _ _ _ _ Hcounts
              (or_intror Hin)) as [-> _].
  destruct (DetectFacts.counts_of_entry _ _ _ _ Hcounts
              (or_introl eq_refl)) as [-> _].
  apply Hmost.
Qed.

Lemma detect_language_first_of_ties_witness :
  detect_language ["README.md"; "src/a.js"; "src/b.py"] = "javascript".
Proof.
  apply (detect_language_first_of_ties ["README.md"] "src/a.js" ["src/b.py"]
           "javascript").
  - intros g [<-|[]]. reflexivity.
  - reflexivity.
  - intros other. unfold files_in. cbn [app filter].
    change (language_of "README.md") with (@None string).
    change (language_of "src/a.js") with (Some "javascript").
    change (language_of "src/b.py") with (Some "python").
    destruct (String.eqb "javascript" other) eqn:Ejs;
      destruct (String.eqb "python" other) eqn:Epy; cbn; try lia.
    apply String.eqb_eq in Ejs. apply String.eqb_eq in Epy.
    subst other. discriminate.
Defined.

Module SuffixFacts.

Lemma length_append (a b : string) :
  String.length (a ++ b) = String.length a + String.length b.
Proof. induction a as [|c a IH]; simpl; [reflexivity|rewrite IH; reflexivity]. Qed.

Lemma from_append (pre p : string) :
  PyStr.from (String.length pre) (pre ++ p) = p.
Proof. induction pre as [|c pre IH]; simpl; [destruct p; reflexivity|exact IH]. Qed.

Lemma upto_from (n : nat) (s : string) :
  (PyStr.upto n s ++ PyStr.from n s)%string = s.
Proof.
  revert s. induction n as [|n IH]; intros s; [destruct s; reflexivity|].
  destruct s as [|c s]; simpl; [reflexivity|]. rewrite IH. reflexivity.
Qed.

(** [s.endswith(p)] holds when [p] is the end of [s]. *)
Lemma endswith_iff (p s : string) :
  PyStr.endswith p s = true <-> exists pre, s = (pre ++ p)%string.
Proof.
  unfold PyStr.endswith. split.
  - intros H. apply andb_true_iff in H. destruct H as [_ H].
    apply String.eqb_eq in H.
    remember (String.length s - String.length p) as n eqn:En. clear En.
    exists (PyStr.upto n s). rewrite <- H. symmetry. apply upto_from.
  - intros [pre ->]. rewrite length_append. apply andb_true_iff. split.
    + apply Nat.leb_le. lia.
    + replace (String.length pre + String.length p - String.length p)
        with (String.length pre) by lia.
      rewrite from_append. apply String.eqb_refl.
Qed.

(** Of two ends of one text, the shorter is an end of the longer. *)
Lemma shorter_end (e1 e2 : string) :
  forall pre2 pre1 : string,
    (pre1 ++ e1 = pre2 ++ e2)%string ->
    String.length e1 <= String.length e2 ->
    exists x, e2 = (x ++ e1)%string.
Proof.
  induction pre2 as [|c pre2 IH]; intros pre1 H Hlen.
  - exists pre1. symmetry. exact H.
  - destruct pre1 as [|c' pre1].
    + simpl in H. apply (f_equal String.length) in H. simpl in H.
      rewrite length_append in H. lia.
    + simpl in H. injection H as _ H. apply (IH pre1); assumption.
Qed.

(** No extension of the table is the end of another. *)
Lemma table_suffix_free :
  forallb
    (fun e1 =>
       forallb (fun e2 => String.eqb e1 e2 || negb (PyStr.endswith e1 e2))
         (PyDict.keys EXTENSION_TO_LANGUAGE))
    (PyDict.keys EXTENSION_TO_LANGUAGE)
  = true.
Proof. vm_compute. reflexivity. Qed.

Lemma one_extension (file e1 e2 : string) :
  In e1 (PyDict.keys EXTENSION_TO_LANGUAGE) ->
  In e2 (PyDict.keys EXTENSION_TO_LANGUAGE) ->
  PyStr.endswith e1 file = true ->
  PyStr.endswith e2 file = true ->
  e1 = e2.
Proof.
  assert (Hle : forall a b,
            In a (PyDict.keys EXTENSION_TO_LANGUAGE) ->
            In b (PyDict.keys EXTENSION_TO_LANGUAGE) ->
            PyStr.endswith a file = true -> PyStr.endswith b file = true ->
            String.length a <= String.length b -> a = b).
  { intros a b Ha Hb Hfa Hfb Hlen.
    apply endswith_iff in Hfa. destruct Hfa as [pre1 H1].
    apply endswith_iff in Hfb. destruct Hfb as [pre2 H2].
    rewrite H1 in H2.
    destruct (shorter_end a b pre2 pre1 H2 Hlen) as [x Hx].
    pose proof table_suffix_free as Hfree.
    rewrite forallb_forall in Hfree. specialize (Hfree a Ha).
    rewrite forallb_forall in Hfree. specialize (Hfree b Hb).
    apply orb_true_iff in Hfree. destruct Hfree as [Heq|Hno].
    - apply String.eqb_eq. exact Heq.
    - assert (Hend : PyStr.endswith a b = true)
        by (apply endswith_iff; exists x; exact Hx).
      rewrite Hend in Hno. discriminate. }
  intros H1 H2 Hf1 Hf2.
  destruct (Nat.le_ge_cases (String.length e1) (String.length e2)) as [H|H].
  - apply Hle; assumption.
  - symmetry. apply Hle; assumption.
Qed.

End SuffixFacts.

(** X4.  The language of a file does not depend on the order of the
    extension table: a file has the language [lang] exactly when it
    ends in some extension that the table maps to [lang].  At most one
    extension of the table ends a given path. *)
Theorem language_of_any_extension (file_path lang : string) :
  language_of file_path = Some lang
  <-> exists ext, In (ext, lang) EXTENSION_TO_LANGUAGE
                  /\ PyStr.endswith ext file_path = true.
Proof.
  unfold language_of. split.
  - destruct (find _ EXTENSION_TO_LANGUAGE) as [[ext l]|] eqn:Hfind;
      [|discriminate].
    intros H. injection H as ->. apply find_some in Hfind.
    exists ext. exact Hfind.
  - intros (ext & Hin & Hend).
    destruct (find _ EXTENSION_TO_LANGUAGE) as [[ext' l]|] eqn:Hfind.
    + apply find_some in Hfind. destruct Hfind as [Hin' Hend'].
      cbn [fst] in Hend'.
      assert (Hext : ext' = ext).
      { apply (SuffixFacts.one_extension file_path); try assumption.
        - apply in_map_iff. exists (ext', l). split; [reflexivity|exact Hin'].
        - apply in_map_iff. exists (ext, lang). split; [reflexivity|exact Hin]. }
      subst ext'.
      assert (Hnodup : NoDup (PyDict.keys EXTENSION_TO_LANGUAGE)).
      { apply (NoDup_count_occ' string_dec). intros x Hx.
        repeat (destruct Hx as [<-|Hx]; [vm_compute; reflexivity|]).
        destruct Hx. }
      pose proof (DetectFacts.in_get_nodup _ _ _ Hnodup Hin') as Hl.
      rewrite (DetectFacts.in_get_nodup _ _ _ Hnodup Hin) in Hl.
      symmetry. exact Hl.
    + exfalso. pose proof (find_none _ _ Hfind (ext, lang) Hin) as Hno.
      cbn [fst] in Hno. rewrite Hend in Hno. discriminate.
Qed.

(* ================================================================== *)
(** ** The dataset loader *)

Module LoaderFacts.

Lemma split_on_not_nil (c : ascii) (s : string) : split_on c s <> [].
Proof.
  destruct s as [|x s]; cbn [split_on]; [discriminate|].
  destruct (split_on c s); [discriminate|].
  destruct (Ascii.eqb x c); discriminate.
Qed.

Lemma split_on_trailing (c : ascii) (s : string) :
  split_on c (s ++ String c "") = split_on c s ++ [""].
Proof.
  induction s as [|x s IH].
  - cbn. rewrite Ascii.eqb_refl. reflexivity.
  - cbn [append split_on]. rewrite IH.
    pose proof (split_on_not_nil c s) as Hne.
    destruct (split_on c s) as [|part parts]; [contradiction Hne; reflexivity|].
    cbn [app]. destruct (Ascii.eqb x c); reflexivity.
Qed.

Lemma filter_app_one {A : Type} (p : A -> bool) (l : list A) (x : A) :
  p x = false -> filter p (l ++ [x]) = filter p l.
Proof.
  intros H. rewrite filter_app. cbn [filter]. rewrite H. apply app_nil_r.
Qed.

(** A trailing separator and a trailing [.] component do not count
    for the suffix of a path. *)
Lemma path_suffix_trailing_separator (p : string) :
  path_suffix (p ++ "/") = path_suffix p.
Proof.
  unfold path_suffix, path_name. rewrite split_on_trailing.
  rewrite filter_app_one by reflexivity. reflexivity.
Qed.

Lemma path_suffix_trailing_dot (p : string) :
  path_suffix (p ++ "/.") = path_suffix p.
Proof.
  unfold path_suffix, path_name.
  assert (H : split_on "/" (p ++ "/.") = split_on "/" p ++ ["."]).
  { induction p as [|x p IH]; [reflexivity|].
    cbn [append split_on]. rewrite IH.
    pose proof (split_on_not_nil "/" p) as Hne.
    destruct (split_on "/" p) as [|part parts];
      [contradiction Hne; reflexivity|].
    cbn [app]. destruct (Ascii.eqb x "/"); reflexivity. }
  rewrite H. rewrite filter_app_one by reflexivity. reflexivity.
Qed.

(** The suffix on sample paths: the name is the last component that
    is neither empty nor [.], and a dot that starts the name gives no
    suffix. *)
Example path_suffix_samples :
  path_suffix "data.json" = ".json"
  /\ path_suffix "data.json/" = ".json"
  /\ path_suffix "x.jsonl/." = ".jsonl"
  /\ path_suffix "a.json//" = ".json"
  /\ path_suffix "/srv/sets/a.b.jsonl" = ".jsonl"
  /\ path_suffix "dir.json/data" = ""
  /\ path_suffix ".json" = ""
  /\ path_suffix "org/name" = "".
Proof. vm_compute. repeat split. Qed.

Lemma find_app {A : Type} (p : A -> bool) (a b : list A) :
  find p (a ++ b) = match find p a with
                    | Some x => Some x
                    | None => find p b
                    end.
Proof.
  induction a as [|x a IH]; simpl; [reflexivity|].
  destruct (p x); [reflexivity|exact IH].
Qed.

Lemma set_fresh {V : Type} (k : string) (v : V) (d : list (string * V)) :
  PyDict.mem k d = false -> PyDict.set k v d = d ++ [(k, v)].
Proof.
  unfold PyDict.mem. induction d as [|[k' v'] d IH]; simpl; [reflexivity|].
  destruct (String.eqb k' k); [discriminate|].
  intros H. rewrite (IH H). reflexivity.
Qed.

Lemma mem_app {V : Type} (k : string) (a b : list (string * V)) :
  PyDict.mem k (a ++ b) = PyDict.mem k a || PyDict.mem k b.
Proof.
  unfold PyDict.mem. induction a as [|[k' v'] a IH]; simpl; [reflexivity|].
  destruct (String.eqb k' k); [reflexivity|exact IH].
Qed.

(** The comprehension over records that all have an [instance_id]. *)
Lemma by_instance_id_last (items : list instance) :
  forall acc : list (string * instance),
    (forall item, In item items -> PyDict.get "instance_id" item <> None) ->
    exists loaded,
      by_instance_id items acc = Ok loaded
      /\ (NoDup (PyDict.keys acc) -> NoDup (PyDict.keys loaded))
      /\ forall k, PyDict.get k loaded
                   = match last_with_id k items with
                     | Some item => Some item
                     | None => PyDict.get k acc
                     end.
Proof.
  induction items as [|item items IH]; intros acc Hids.
  - exists acc. split; [reflexivity|]. split; [tauto|reflexivity].
  - cbn [by_instance_id].
    destruct (PyDict.get "instance_id" item) as [id|] eqn:Hid.
    2: { exfalso. apply (Hids item); [left; reflexivity|exact Hid]. }
    destruct (IH (PyDict.set id item acc)) as (loaded & Hload & Hnodup & Hget).
    { intros item' Hin. apply Hids. right. exact Hin. }
    exists loaded. split; [exact Hload|]. split.
    + intros Hacc. apply Hnodup. apply DetectFacts.nodup_set. exact Hacc.
    + intros k. rewrite Hget. unfold last_with_id. cbn [rev].
      rewrite find_app.
      destruct (find (has_id k) (rev items)); [reflexivity|].
      cbn [find]. unfold has_id at 1. rewrite Hid.
      destruct (String.eqb id k) eqn:E.
      * apply String.eqb_eq in E. subst k. apply PyDictFacts.get_set_same.
      * apply PyDictFacts.get_set_other. intros ->.
        rewrite String.eqb_refl in E. discriminate.
Qed.

(** The comprehension over records with distinct ids keeps their
    order. *)
Lemma by_instance_id_distinct (items : list instance) :
  forall acc : list (string * instance),
    (forall item, In item items -> PyDict.get "instance_id" item <> None) ->
    NoDup (map record_id items) ->
    (forall item, In item items -> PyDict.mem (record_id item) acc = false) ->
    by_instance_id items acc
    = Ok (acc ++ map (fun item => (record_id item, item)) items).
Proof.
  induction items as [|item items IH]; intros acc Hids Hnodup Hfresh.
  - simpl. rewrite app_nil_r. reflexivity.
  - cbn [by_instance_id map].
    assert (Hrec : PyDict.get "instance_id" item = Some (record_id item)).
    { unfold record_id.
      destruct (PyDict.get "instance_id" item) eqn:Hid; [reflexivity|].
      exfalso. apply (Hids item); [left; reflexivity|exact Hid]. }
    rewrite Hrec. inversion Hnodup as [|x l Hx Hl]; subst.
    rewrite set_fresh by (apply Hfresh; left; reflexivity).
    rewrite IH.
    + rewrite <- app_assoc. reflexivity.
    + intros item' Hin. apply Hids. right. exact Hin.
    + exact Hl.
    + intros item' Hin. rewrite mem_app.
      rewrite (Hfresh item' (or_intror Hin)). cbn [orb].
      unfold PyDict.mem. cbn [PyDict.get].
      destruct (String.eqb (record_id item) (record_id item')) eqn:E;
        [|reflexivity].
      apply String.eqb_eq in E. exfalso. apply Hx. rewrite E.
      apply in_map. exact Hin.
Qed.

Lemma by_instance_id_missing (items : list instance) :
  forall acc : list (string * instance),
    (exists item, In item items /\ PyDict.get "instance_id" item = None) ->
    by_instance_id items acc = Raise (KeyError "instance_id").
Proof.
  induction items as [|item items IH]; intros acc (bad & Hin & Hbad);
    [destruct Hin|].
  cbn [by_instance_id].
  destruct (PyDict.get "instance_id" item) as [id|] eqn:Hid; [|reflexivity].
  apply IH. destruct Hin as [->|Hin]; [congruence|].
  exists bad. split; assumption.
Qed.

Lemma load_instances_records (host : Host) (dataset : string)
  (split : option string) (items : list instance) :
  given_as_records host dataset split items ->
  load_instances host dataset split = by_instance_id items [].
Proof.
  unfold given_as_records, load_instances.
  destruct (String.eqb (path_suffix dataset) ".json");
    [intros ->; reflexivity|].
  destruct (String.eqb (path_suffix dataset) ".jsonl");
    intros ->; reflexivity.
Qed.

End LoaderFacts.

(** X5.  A dataset given as records that all carry an [instance_id] is
    loaded as a mapping with distinct keys in which every id leads to
    the last record of the dataset that carries it; when no two records
    share an id, the mapping holds the records in the order of the
    dataset, each under its own id. *)
Theorem load_instances_last_record (host : Host) (dataset : string)
  (split : option string) (items : list instance) :
  given_as_records host dataset split items ->
  (forall item, In item items -> PyDict.get "instance_id" item <> None) ->
  exists loaded,
    load_instances host dataset split = Ok loaded
    /\ NoDup (PyDict.keys loaded)
    /\ (forall k, PyDict.get k loaded = last_with_id k items)
    /\ (NoDup (map record_id items) ->
        loaded = map (fun item => (record_id item, item)) items).
Proof.
  intros Hgiven Hids.
  rewrite (LoaderFacts.load_instances_records _ _ _ _ Hgiven).
  destruct (LoaderFacts.by_instance_id_last items [] Hids)
    as (loaded & Hload & Hnodup & Hget).
  exists loaded. split; [exact Hload|]. split; [apply Hnodup; constructor|].
  split.
  - intros k. rewrite Hget. destruct (last_with_id k items); reflexivity.
  - intros Hdistinct.
    rewrite (LoaderFacts.by_instance_id_distinct items [] Hids Hdistinct)
      in Hload by reflexivity.
    injection Hload as <-. reflexivity.
Qed.

Lemma load_instances_last_record_witness :
  exists loaded,
    load_instances
      (Sample.host Sample.failing Sample.all_succeed
         [ [("instance_id", "a"); ("repo", "octo/one")];
           [("instance_id", "b"); ("repo", "octo/two")];
           [("instance_id", "a"); ("repo", "octo/three")] ] None)
      "instances.jsonl" None
    = Ok loaded
    /\ PyDict.keys loaded = ["a"; "b"]
    /\ PyDict.get "a" loaded
       = Some [("instance_id", "a"); ("repo", "octo/three")].
Proof.
  destruct (load_instances_last_record
              (Sample.host Sample.failing Sample.all_succeed
                 [ [("instance_id", "a"); ("repo", "octo/one")];
                   [("instance_id", "b"); ("repo", "octo/two")];
                   [("instance_id", "a"); ("repo", "octo/three")] ] None)
              "instances.jsonl" None
              [ [("instance_id", "a"); ("repo", "octo/one")];
                [("instance_id", "b"); ("repo", "octo/two")];
                [("instance_id", "a"); ("repo", "octo/three")] ])
    as (loaded & Hload & _ & Hget & _).
  - reflexivity.
  - intros item [<-|[<-|[<-|[]]]]; discriminate.
  - exists loaded. split; [exact Hload|].
    assert (Hkeys : exists l, load_instances
      (Sample.host Sample.failing Sample.all_succeed
         [ [("instance_id", "a"); ("repo", "octo/one")];
           [("instance_id", "b"); ("repo", "octo/two")];
           [("instance_id", "a"); ("repo", "octo/three")] ] None)
      "instances.jsonl" None = Ok l /\ PyDict.keys l = ["a"; "b"])
      by (vm_compute; eexists; split; reflexivity).
    destruct Hkeys as (l & Hl & Hkeys). rewrite Hload in Hl.
    injection Hl as <-. split; [exact Hkeys|].
    rewrite Hget. reflexivity.
Defined.

(** X6.  A dataset given as records of which one has no [instance_id]
    is not loaded: [load_instances] raises [KeyError] for that field. *)
Theorem load_instances_missing_id (host : Host) (dataset : string)
  (split : option string) (items : list instance) :
  given_as_records host dataset split items ->
  (exists item, In item items /\ PyDict.get "instance_id" item = None) ->
  load_instances host dataset split = Raise (KeyError "instance_id").
Proof.
  intros Hgiven Hbad.
  rewrite (LoaderFacts.load_instances_records _ _ _ _ Hgiven).
  apply LoaderFacts.by_instance_id_missing. exact Hbad.
Qed.

Lemma load_instances_missing_id_witness :
  load_instances
    (Sample.host Sample.failing Sample.all_succeed
       [Sample.descriptor "a"; [("repo", "octo/demo")]] None)
    "instances.json" None
  = Raise (KeyError "instance_id").
Proof.
  apply (load_instances_missing_id _ _ _
           [Sample.descriptor "a"; [("repo", "octo/demo")]]).
  - reflexivity.
  - exists [("repo", "octo/demo")]. split; [right; left; reflexivity|].
    reflexivity.
Defined.

(* ================================================================== *)
(** ** Repository preparation and patch parsing *)

Section CloneFacts.
Variable host : Host.

(** X7.  [clone_repo] raises exactly when the instance lacks one of the
    fields [instance_id], [repo] and [base_commit]; the exception is a
    [KeyError] for a field that is missing, and nothing has been run
    or removed when it is raised. *)
Theorem clone_repo_missing_field (instance : instance)
  (repo_root_dir : string) (w : world) :
  let r := clone_repo host instance repo_root_dir w in
  (has_required_fields instance <-> exists dir, fst r = Ok dir)
  /\ forall exc, fst r = Raise exc ->
       snd r = w
       /\ exists key, exc = KeyError key
                      /\ In key ["instance_id"; "repo"; "base_commit"]
                      /\ PyDict.get key instance = None.
Proof.
  cbv zeta. unfold clone_repo, has_required_fields.
  destruct (PyDict.get "instance_id" instance) as [iid|] eqn:Hid.
  2: { split.
       - split; [intros (i & r & c & H & _); discriminate
                |intros [dir H]; discriminate].
       - intros exc H. injection H as <-. split; [reflexivity|].
         exists "instance_id". simpl. tauto. }
  destruct (PyDict.get "repo" instance) as [repo|] eqn:Hrepo.
  2: { split.
       - split; [intros (i & r & c & _ & H & _); discriminate
                |intros [dir H]; discriminate].
       - intros exc H. injection H as <-. split; [reflexivity|].
         exists "repo". simpl. tauto. }
  destruct (PyDict.get "base_commit" instance) as [commit|] eqn:Hcommit.
  2: { split.
       - split; [intros (i & r & c & _ & _ & H); discriminate
                |intros [dir H]; discriminate].
       - intros exc H. injection H as <-. split; [reflexivity|].
         exists "base_commit". simpl. tauto. }
  unfold subprocess_run.
  destruct (isdir host (path_join repo_root_dir iid));
    repeat match goal with
           | |- context [proc host ?n ?a] =>
               destruct (proc host n a) as [[|?|?]|]
           end;
    cbn [fst snd];
    (split;
     [split;
      [intros _; eexists; reflexivity
      |intros _; exists iid, repo, commit; repeat split]
     |intros exc H; discriminate]).
Qed.

(** X8.  When [clone_repo] returns a directory, it is the directory of
    the instance under the root, and the commands run are one of:
    a successful reset and clean of a directory that was there; a
    successful clone and reset where there was none; or, after a reset
    or a clean of a directory that was there did not succeed, its
    removal followed by a successful clone and reset.  In each case
    the last reset to [base_commit] succeeded. *)
Theorem clone_repo_checkout (instance : instance) (repo_root_dir : string)
  (w : world) (dir : string) (w' : world) :
  clone_repo host instance repo_root_dir w = (Ok (Some dir), w') ->
  exists instance_id repo base_commit,
    PyDict.get "instance_id" instance = Some instance_id
    /\ PyDict.get "repo" instance = Some repo
    /\ PyDict.get "base_commit" instance = Some base_commit
    /\ dir = path_join repo_root_dir instance_id
    /\ ((isdir host dir = true
         /\ w' = w ++ [git_reset base_commit dir (Exited 0);
                       git_clean dir (Exited 0)])
        \/ (isdir host dir = false
            /\ w' = w ++ [git_clone repo dir (Exited 0);
                          git_reset base_commit dir (Exited 0)])
        \/ (isdir host dir = true
            /\ exists r,
                 r <> Exited 0
                 /\ (w' = w ++ [git_reset base_commit dir r; Rmtree dir;
                                git_clone repo dir (Exited 0);
                                git_reset base_commit dir (Exited 0)]
                     \/ w' = w ++ [git_reset base_commit dir (Exited 0);
                                   git_clean dir r; Rmtree dir;
                                   git_clone repo dir (Exited 0);
                                   git_reset base_commit dir (Exited 0)]))).
Proof.
  unfold clone_repo, subprocess_run, git_reset, git_clean, git_clone.
  destruct (PyDict.get "instance_id" instance) as [iid|]; [|discriminate].
  destruct (PyDict.get "repo" instance) as [repo|]; [|discriminate].
  destruct (PyDict.get "base_commit" instance) as [commit|]; [|discriminate].
  intros H. exists iid, repo, commit.
  destruct (isdir host (path_join repo_root_dir iid)) eqn:Hdir;
    repeat match type of H with
           | context [proc host ?n ?a] =>
               destruct (proc host n a) as [[|?|?]|] eqn:?
           end;
    try discriminate;
    injection H as <- <-; rewrite ?Hdir;
    (split; [reflexivity|]); (split; [reflexivity|]);
    (split; [reflexivity|]); (split; [reflexivity|]);
    repeat rewrite <- app_assoc; cbn [app];
    first
      [ left; split; reflexivity
      | right; left; split; reflexivity
      | right; right; split; [reflexivity|];
        eexists; split;
        [|first [left; reflexivity|right; reflexivity]]; discriminate ].
Qed.

End CloneFacts.

Lemma clone_repo_checkout_witness :
  clone_repo
    (with_checkouts (Sample.host Sample.failing Sample.all_succeed [] None)
       (fun n _ => if n =? 0 then TimedOut else Exited 0))
    (Sample.descriptor "demo-1") "./repo" []
  = (Ok (Some "./repo/demo-1"),
     [ git_reset "0123456789abcdef" "./repo/demo-1" TimedOut;
       Rmtree "./repo/demo-1";
       git_clone "octo/demo" "./repo/demo-1" (Exited 0);
       git_reset "0123456789abcdef" "./repo/demo-1" (Exited 0) ]).
Proof.
  destruct (clone_repo
              (with_checkouts
                 (Sample.host Sample.failing Sample.all_succeed [] None)
                 (fun n _ => if n =? 0 then TimedOut else Exited 0))
              (Sample.descriptor "demo-1") "./repo" [])
    as [[[dir|]|exc] w'] eqn:Hclone;
    [|vm_compute in Hclone; discriminate|vm_compute in Hclone; discriminate].
  destruct (clone_repo_checkout _ _ _ _ _ _ Hclone)
    as (iid & repo & commit & Hid & Hrepo & Hcommit & -> & _).
  vm_compute in Hclone. injection Hclone as _ <-.
  injection Hid as <-. reflexivity.
Defined.

Module PatchFacts.

Lemma rstrip_all_space (s : string) :
  PyStr.all_space s = true -> PyStr.rstrip s = EmptyString.
Proof.
  induction s as [|c s IH]; [reflexivity|]. cbn [PyStr.all_space PyStr.rstrip].
  intros H. apply andb_true_iff in H. destruct H as [Hc Hs].
  rewrite (IH Hs), Hc. reflexivity.
Qed.

Lemma strip_all_space (s : string) :
  PyStr.all_space s = true -> PyStr.strip s = EmptyString.
Proof.
  intros H. unfold PyStr.strip. rewrite (rstrip_all_space s H). reflexivity.
Qed.

Lemma startswith_a (s : string) :
  PyStr.startswith "a/" s = true -> s = ("a/" ++ PyStr.from 2 s)%string.
Proof.
  unfold PyStr.startswith. intros H. apply String.prefix_correct in H.
  destruct s as [|c1 [|c2 s]]; simpl in H; try discriminate.
  injection H as -> -> _. destruct s; reflexivity.
Qed.

End PatchFacts.

Section PatchEdges.
Context {unidiff : Unidiff}.

(** X9.  For a patch that is empty or all white space, and for one on
    which the diff library raises, [get_modified_files] gives no file;
    and every path it gives is the source side of a file of the patch
    with the prefix [a/] removed. *)
Theorem get_modified_files_edges (patch : string) :
  (PyStr.all_space patch = true \/ PatchSet patch = None ->
   get_modified_files patch = [])
  /\ forall p, In p (get_modified_files patch) ->
       exists files f,
         PatchSet patch = Some files /\ In f files
         /\ source_file f = ("a/" ++ p)%string.
Proof.
  unfold get_modified_files. split.
  - intros [Hblank|Hparse].
    + rewrite (PatchFacts.strip_all_space patch Hblank).
      cbn [is_empty]. rewrite orb_true_r. reflexivity.
    + rewrite Hparse. destruct (_ || _); reflexivity.
  - intros p. destruct (_ || _); [intros []|].
    destruct (PatchSet patch) as [files|]; [|intros []].
    intros Hin. apply in_map_iff in Hin. destruct Hin as (src & <- & Hin).
    apply filter_In in Hin. destruct Hin as [Hin Hprefix].
    apply in_map_iff in Hin. destruct Hin as (f & <- & Hin).
    apply filter_In in Hin. destruct Hin as [Hin _].
    exists files, f. split; [reflexivity|]. split; [exact Hin|].
    apply PatchFacts.startswith_a. exact Hprefix.
Qed.

End PatchEdges.

(* ================================================================== *)
(** ** The two filters *)

Module SliceFacts.
Section Generic.
Context {V : Type}.

Lemma keys_filter_nodup (p : string -> bool) (d : list (string * V)) :
  NoDup (PyDict.keys d) -> NoDup (PyDict.keys (PyDict.filter_keys p d)).
Proof.
  unfold PyDict.keys, PyDict.filter_keys.
  induction d as [|[k v] d IH]; simpl; [tauto|].
  intros H. inversion H as [|x l Hx Hl]; subst.
  destruct (p k); simpl; [|apply IH; exact Hl].
  constructor; [|apply IH; exact Hl].
  intros Hin. apply Hx. apply in_map_iff in Hin.
  destruct Hin as ([k' v'] & Hk & Hin). simpl in Hk. subst k'.
  apply filter_In in Hin. destruct Hin as [Hin _].
  apply in_map_iff. exists (k, v'). split; [reflexivity|exact Hin].
Qed.

(** Looking up the keys of a part of a mapping gives that part. *)
Lemma restrict_to_part (d part : list (string * V)) :
  (forall k v, In (k, v) part -> PyDict.get k d = Some v) ->
  restrict_to (PyDict.keys part) d = part.
Proof.
  unfold restrict_to, PyDict.keys.
  induction part as [|[k v] part IH]; intros H; [reflexivity|].
  cbn [map flat_map fst]. rewrite (H k v (or_introl eq_refl)).
  cbn [app]. f_equal. apply IH. intros k' v' Hin. apply H. right. exact Hin.
Qed.

Lemma in_firstn {A : Type} (n : nat) (l : list A) (x : A) :
  In x (firstn n l) -> In x l.
Proof.
  revert l. induction n as [|n IH]; intros [|y l]; simpl; try tauto.
  intros [H|H]; [left; exact H|right; apply IH; exact H].
Qed.

Lemma in_skipn {A : Type} (n : nat) (l : list A) (x : A) :
  In x (skipn n l) -> In x l.
Proof.
  revert l. induction n as [|n IH]; intros [|y l]; simpl; try tauto.
  intros H. right. apply IH. exact H.
Qed.

Lemma in_window (n a : nat) (d : list (string * V)) (kv : string * V) :
  In kv (firstn n (skipn a d)) -> In kv d.
Proof. intros H. apply (in_skipn a). eapply in_firstn. exact H. Qed.

Lemma restrict_to_window (n a : nat) (d : list (string * V)) :
  NoDup (PyDict.keys d) ->
  restrict_to (firstn n (skipn a (PyDict.keys d))) d = firstn n (skipn a d).
Proof.
  intros Hd.
  replace (firstn n (skipn a (PyDict.keys d)))
    with (PyDict.keys (firstn n (skipn a d)))
    by (unfold PyDict.keys; rewrite skipn_map, firstn_map; reflexivity).
  apply restrict_to_part. intros k v Hin.
  apply DetectFacts.in_get_nodup; [exact Hd|]. eapply in_window. exact Hin.
Qed.

Lemma firstn_beyond {A : Type} (n m : nat) (l : list A) :
  List.length l <= n -> List.length l <= m -> firstn n l = firstn m l.
Proof.
  intros Hn Hm. rewrite !firstn_all2 by assumption. reflexivity.
Qed.

(** A slice with bounds that are not negative, without the clipping. *)
Lemma slice_plain {A : Type} (xs : list A) (lo hi : Z) :
  (0 <= lo)%Z -> (0 <= hi)%Z ->
  PySlice.slice xs lo hi
  = firstn (Z.to_nat hi - Z.to_nat lo) (skipn (Z.to_nat lo) xs).
Proof.
  intros Hlo Hhi. unfold PySlice.slice, PySlice.adjust.
  destruct (lo <? 0)%Z eqn:E1; [apply Z.ltb_lt in E1; lia|]. rewrite E1.
  destruct (hi <? 0)%Z eqn:E2; [apply Z.ltb_lt in E2; lia|]. rewrite E2.
  destruct (Z.of_nat (List.length xs) <? lo)%Z eqn:E3;
    destruct (Z.of_nat (List.length xs) <? hi)%Z eqn:E4;
    try apply Z.ltb_lt in E3; try apply Z.ltb_ge in E3;
    try apply Z.ltb_lt in E4; try apply Z.ltb_ge in E4.
  - rewrite !skipn_all2 by lia. rewrite !firstn_nil. reflexivity.
  - rewrite !skipn_all2 by lia. rewrite !firstn_nil. reflexivity.
  - apply firstn_beyond; rewrite length_skipn; lia.
  - reflexivity.
Qed.

Lemma adjust_length (len : nat) : PySlice.adjust (Z.of_nat len) len = len.
Proof.
  unfold PySlice.adjust. cbv zeta.
  assert (E0 : (Z.of_nat len <? 0)%Z = false) by (apply Z.ltb_ge; lia).
  rewrite E0. rewrite E0. rewrite Z.ltb_irrefl. apply Nat2Z.id.
Qed.

Lemma adjust_negative (lo : Z) (len : nat) :
  (lo < 0)%Z -> PySlice.adjust lo len = len - Z.to_nat (- lo).
Proof.
  intros Hlo. unfold PySlice.adjust. cbv zeta.
  assert (E0 : (lo <? 0)%Z = true) by (apply Z.ltb_lt; exact Hlo).
  rewrite E0.
  destruct (lo + Z.of_nat len <? 0)%Z eqn:E1.
  - apply Z.ltb_lt in E1. lia.
  - apply Z.ltb_ge in E1.
    assert (E2 : (Z.of_nat len <? lo + Z.of_nat len)%Z = false)
      by (apply Z.ltb_ge; lia).
    rewrite E2. lia.
Qed.

(** A slice from a start that is negative to the end of the list: the
    last [- lo] elements. *)
Lemma slice_from_end {A : Type} (xs : list A) (lo : Z) :
  (lo < 0)%Z ->
  PySlice.slice xs lo (Z.of_nat (List.length xs))
  = skipn (List.length xs - Z.to_nat (- lo)) xs.
Proof.
  intros Hlo. unfold PySlice.slice.
  rewrite adjust_length, (adjust_negative lo _ Hlo).
  apply firstn_all2. rewrite length_skipn. lia.
Qed.

Lemma length_keys (d : list (string * V)) :
  List.length (PyDict.keys d) = List.length d.
Proof. unfold PyDict.keys. apply length_map. Qed.

End Generic.
End SliceFacts.

Section WindowFacts.
Context {V : Type}.

(** X10.  With start and end given, start at least 1 and end not
    negative, the filters select the instances at the positions start
    to end, counted from 1 and both included, of what the allowlist
    left: the first [start - 1] are dropped and at most
    [end - start + 1] are kept, so that an end beyond the last
    position selects up to the last and a start beyond it selects
    nothing. *)
Theorem filter_instances_window (instances : list (string * V))
  (cfg : RunConfig) (ids : option (list string)) (s e : Z) :
  NoDup (PyDict.keys instances) ->
  (1 <= s)%Z -> (0 <= e)%Z ->
  _filter_instances instances (with_filters cfg ids (Some s) (Some e))
  = firstn (Z.to_nat e - Z.to_nat (s - 1))
      (skipn (Z.to_nat (s - 1))
         (_filter_instances instances (with_filters cfg ids None None))).
Proof.
  intros Hnodup Hs He. unfold _filter_instances, with_filters.
  cbn [cfg_instance_ids cfg_start cfg_end].
  set (selected := match ids with
                   | Some (id :: ids') => _
                   | _ => instances
                   end).
  assert (Hsel : NoDup (PyDict.keys selected)).
  { subst selected. destruct ids as [[|id ids']|]; try exact Hnodup.
    apply SliceFacts.keys_filter_nodup. exact Hnodup. }
  rewrite SliceFacts.slice_plain by lia.
  apply SliceFacts.restrict_to_window. exact Hsel.
Qed.

(** X11.  A start that is not positive does not count from the first
    instance: with no end given, start 0 selects the last instance
    only and start [- n] the last [n + 1] (all of them when there are
    no more). *)
Theorem filter_instances_start_not_positive (instances : list (string * V))
  (cfg : RunConfig) (ids : option (list string)) (s : Z) :
  NoDup (PyDict.keys instances) ->
  (s <= 0)%Z ->
  let selected :=
    _filter_instances instances (with_filters cfg ids None None) in
  _filter_instances instances (with_filters cfg ids (Some s) None)
  = skipn (List.length selected - Z.to_nat (1 - s)) selected.
Proof.
  intros Hnodup Hs. unfold _filter_instances, with_filters.
  cbn [cfg_instance_ids cfg_start cfg_end].
  set (selected := match ids with
                   | Some (id :: ids') => _
                   | _ => instances
                   end).
  assert (Hsel : NoDup (PyDict.keys selected)).
  { subst selected. destruct ids as [[|id ids']|]; try exact Hnodup.
    apply SliceFacts.keys_filter_nodup. exact Hnodup. }
  cbv zeta. rewrite SliceFacts.slice_from_end by lia.
  replace (- (s - 1))%Z with (1 - s)%Z by lia.
  rewrite SliceFacts.length_keys.
  replace (skipn (List.length selected - Z.to_nat (1 - s))
             (PyDict.keys selected))
    with (firstn (List.length selected)
            (skipn (List.length selected - Z.to_nat (1 - s))
               (PyDict.keys selected))).
  2: { apply firstn_all2. rewrite length_skipn, SliceFacts.length_keys. lia. }
  rewrite SliceFacts.restrict_to_window by exact Hsel.
  apply firstn_all2. rewrite length_skipn. lia.
Qed.

(** X12.  The allowlist is used as a set: two allowlists that are not
    empty and have the same members select the same instances, in the
    order of the dataset, whatever the order and the repetitions of
    the ids in the lists. *)
Theorem filter_instances_allowlist_as_set (instances : list (string * V))
  (cfg : RunConfig) (ids1 ids2 : list string) (s e : option Z) :
  ids1 <> [] -> ids2 <> [] ->
  (forall k, In k ids1 <-> In k ids2) ->
  _filter_instances instances (with_filters cfg (Some ids1) s e)
  = _filter_instances instances (with_filters cfg (Some ids2) s e).
Proof.
  intros H1 H2 Hsame. unfold _filter_instances, with_filters.
  cbn [cfg_instance_ids cfg_start cfg_end].
  assert (Hfilter :
    PyDict.filter_keys (fun k => existsb (String.eqb k) ids1) instances
    = PyDict.filter_keys (fun k => existsb (String.eqb k) ids2) instances).
  { unfold PyDict.filter_keys. apply filter_ext. intros [k v]. cbn [fst].
    apply eq_true_iff_eq. rewrite !existsb_exists. split.
    - intros (x & Hin & Hx). apply String.eqb_eq in Hx. subst x.
      exists k. split; [apply Hsame; exact Hin|apply String.eqb_refl].
    - intros (x & Hin & Hx). apply String.eqb_eq in Hx. subst x.
      exists k. split; [apply Hsame; exact Hin|apply String.eqb_refl]. }
  destruct ids1 as [|i1 ids1]; [contradiction H1; reflexivity|].
  destruct ids2 as [|i2 ids2]; [contradiction H2; reflexivity|].
  rewrite Hfilter. reflexivity.
Qed.

End WindowFacts.

Lemma filter_instances_window_witness :
  PyDict.keys
    (_filter_instances
       (map (fun k => (k, Sample.descriptor k)) ["a"; "b"; "c"; "d"; "e"])
       (with_filters default_cfg None (Some 4%Z) (Some 9%Z)))
  = ["d"; "e"].
Proof.
  rewrite (filter_instances_window
             (map (fun k => (k, Sample.descriptor k)) ["a"; "b"; "c"; "d"; "e"])
             default_cfg None 4 9).
  - reflexivity.
  - repeat constructor; simpl; intuition discriminate.
  - lia.
  - lia.
Defined.

Lemma filter_instances_start_not_positive_witness :
  PyDict.keys
    (_filter_instances
       (map (fun k => (k, Sample.descriptor k)) ["a"; "b"; "c"; "d"; "e"])
       (with_filters default_cfg None (Some 0%Z) None))
  = ["e"].
Proof.
  rewrite (filter_instances_start_not_positive
             (map (fun k => (k, Sample.descriptor k)) ["a"; "b"; "c"; "d"; "e"])
             default_cfg None 0).
  - reflexivity.
  - repeat constructor; simpl; intuition discriminate.
  - lia.
Defined.

Lemma filter_instances_allowlist_as_set_witness :
  _filter_instances
    (map (fun k => (k, Sample.descriptor k)) ["a"; "b"; "c"])
    (with_filters default_cfg (Some ["c"; "a"; "c"]) None None)
  = _filter_instances
      (map (fun k => (k, Sample.descriptor k)) ["a"; "b"; "c"])
      (with_filters default_cfg (Some ["a"; "c"]) None None).
Proof.
  apply (filter_instances_allowlist_as_set
           (map (fun k => (k, Sample.descriptor k)) ["a"; "b"; "c"])
           default_cfg ["c"; "a"; "c"] ["a"; "c"] None None).
  - discriminate.
  - discriminate.
  - intros k. simpl. tauto.
Defined.

(* ================================================================== *)
(** ** The pipeline: what is written and when *)

Section RunFacts.
Context {json : JsonDecoder} {unidiff : Unidiff}.
Variable host : Host.

Lemma mem_set_mono {V : Type} (k k0 : string) (v : V) (d : list (string * V)) :
  PyDict.mem k0 d = true -> PyDict.mem k0 (PyDict.set k v d) = true.
Proof.
  intros H. unfold PyDict.mem. destruct (string_dec k0 k) as [->|Hne].
  - rewrite PyDictFacts.get_set_same. reflexivity.
  - rewrite PyDictFacts.get_set_other by exact Hne. exact H.
Qed.

Lemma validate_output_complete (d d' : dict) :
  validate_output d = Ok (Some d') -> complete_record d'.
Proof.
  unfold validate_output.
  destruct (forallb (fun key => PyDict.mem key d) required_keys) eqn:Hall;
    cbn [negb]; [|discriminate].
  rewrite forallb_forall in Hall.
  destruct (PyDict.get "setup_scripts" d) as [scripts|] eqn:Hs.
  2: { pose proof (Hall "setup_scripts") as H. unfold PyDict.mem in H.
       rewrite Hs in H. simpl in H. intuition discriminate. }
  destruct (py_in "setup_repo.sh" scripts) as [[|]|exc] eqn:Hin;
    try discriminate.
  destruct (PyDict.get "eval_script" d) as [script|] eqn:He;
    [|discriminate].
  destruct (py_in "OMNIGRIL_EXIT_CODE" script) as [[|]|exc] eqn:Hm;
    try discriminate.
  - intros H. injection H as <-. split; [exact Hall|]. split.
    + exists scripts. split; assumption.
    + exists script. split; assumption.
  - destruct script as [| | | |text| |]; try discriminate.
    intros H. injection H as <-. split; [|split].
    + intros key Hkey. apply mem_set_mono. apply Hall. exact Hkey.
    + exists scripts. split; [|exact Hin].
      rewrite PyDictFacts.get_set_other by discriminate. exact Hs.
    + eexists. split; [apply PyDictFacts.get_set_same|].
      cbn [py_in]. rewrite marker_in_snippet. reflexivity.
Qed.

Lemma run_agent_complete (instance : instance) (repo_dir model : string)
  (max_turns : nat) (log_dir : option string) (project_dir : string)
  (w w' : world) (d : dict) :
  run_agent host instance repo_dir model max_turns log_dir project_dir w
  = (Ok (Some d), w') ->
  complete_record d.
Proof.
  unfold run_agent.
  destruct (session host instance repo_dir model max_turns log_dir
              project_dir w) as [[[st|]|exc] w0]; try discriminate.
  unfold finish. destruct (result_flags_error st); [discriminate|].
  destruct (extracted_output st) as [output|]; [|discriminate].
  intros H. injection H as H _. apply (validate_output_complete output).
  exact H.
Qed.

Lemma complete_record_with_id (d : dict) (v : pyval) :
  complete_record d -> complete_record (PyDict.set "instance_id" v d).
Proof.
  intros (Hkeys & (scripts & Hs & Hin) & (script & He & Hm)). split; [|split].
  - intros key Hkey. apply mem_set_mono. apply Hkeys. exact Hkey.
  - exists scripts. split; [|exact Hin].
    rewrite PyDictFacts.get_set_other by discriminate. exact Hs.
  - exists script. split; [|exact Hm].
    rewrite PyDictFacts.get_set_other by discriminate. exact He.
Qed.

(** What a task hands over is the placeholder or a complete record. *)
Lemma process_instance_record (instance : instance)
  (repo_root_dir model : string) (max_turns : nat) (log_dir : option string)
  (project_dir : string) (w w' : world) (k : string) (res : option dict) :
  process_instance host instance repo_root_dir model max_turns log_dir
    project_dir w = (Ok (k, res), w') ->
  exists r, res = Some r /\ task_record k r.
Proof.
  unfold process_instance.
  destruct (PyDict.get "instance_id" instance) as [iid|]; [|discriminate].
  destruct (clone_repo host instance repo_root_dir w)
    as [[[repo_dir|]|exc] w0]; [| |discriminate].
  - destruct (run_agent host instance repo_dir model max_turns log_dir
                project_dir w0) as [[[d|]|exc] w1] eqn:Hrun; [| |discriminate].
    + intros H. injection H as <- <- _. eexists. split; [reflexivity|].
      split; [apply PyDictFacts.get_set_same|]. right.
      apply complete_record_with_id.
      eapply run_agent_complete. exact Hrun.
    + intros H. injection H as <- <- _. eexists. split; [reflexivity|].
      split; [reflexivity|left; reflexivity].
  - intros H. injection H as <- <- _. eexists. split; [reflexivity|].
    split; [reflexivity|left; reflexivity].
Qed.

(** A property of the result mapping that the store of a task record
    keeps holds of the mapping the collecting loop ends with. *)
Lemma collect_records (cfg : RunConfig) (Q : dict -> Prop) :
  (forall k r all, task_record k r -> Q all ->
                   Q (PyDict.set k (PDict r) all)) ->
  forall (completed : list instance) (all_results : dict) (w : world)
         (final : dict) (w' : world),
    Q all_results ->
    collect host cfg completed all_results w = (Ok final, w') ->
    Q final.
Proof.
  intros Hstep. induction completed as [|task rest IH];
    intros all w final w' HQ Hc.
  - simpl in Hc. injection Hc as <- _. exact HQ.
  - cbn [collect] in Hc.
    destruct (process_instance host task _ _ _ _ _ w)
      as [[[k result]|exc] w1] eqn:Hp; [|discriminate].
    destruct (process_instance_record _ _ _ _ _ _ _ _ _ _ Hp)
      as (r & -> & Hr).
    destruct (open_ok host (cfg_output cfg)); cbn [negb] in Hc;
      [|discriminate].
    apply IH in Hc; [exact Hc|]. apply Hstep; assumption.
Qed.

Lemma last_dump_quiet (path : string) (new : world) (stored : option dict) :
  no_dump new -> last_dump path new stored = stored.
Proof.
  induction new as [|e new IH]; intros H; [reflexivity|].
  inversion H as [|e' new' He Hnew]; subst.
  destruct e; cbn [last_dump]; try (apply IH; exact Hnew). destruct He.
Qed.

Lemma last_dump_app (path : string) (a b : world) (stored : option dict) :
  last_dump path (a ++ b) stored = last_dump path b (last_dump path a stored).
Proof.
  revert stored. induction a as [|e a IH]; intros stored; [reflexivity|].
  destruct e; cbn [app last_dump]; try apply IH.
  destruct (String.eqb path0 path); apply IH.
Qed.

Lemma dumps_quiet (new : world) :
  no_dump new -> filter is_dump new = [].
Proof.
  induction new as [|e new IH]; intros H; [reflexivity|].
  inversion H as [|e' new' He Hnew]; subst.
  destruct e; cbn [filter is_dump]; try (apply IH; exact Hnew). destruct He.
Qed.

(** The collecting loop writes the output file once for each task, and
    what it writes last is the mapping it ends with. *)
Lemma collect_dumps (cfg : RunConfig) :
  forall (completed : list instance) (all_results : dict) (w : world)
         (final : dict) (w' : world),
    collect host cfg completed all_results w = (Ok final, w') ->
    exists new,
      w' = w ++ new
      /\ List.length (filter is_dump new) = List.length completed
      /\ forall stored,
           last_dump (cfg_output cfg) new stored
           = match completed with
             | [] => stored
             | _ => Some final
             end.
Proof.
  induction completed as [|task rest IH]; intros all w final w' Hc.
  - simpl in Hc. injection Hc as <- <-. exists []. rewrite app_nil_r.
    repeat split.
  - cbn [collect] in Hc.
    pose proof (process_instance_grows host task (cfg_repo_dir cfg)
                  (cfg_model cfg) (cfg_max_turns cfg) (cfg_log_dir cfg)
                  (cfg_project_dir cfg) w) as (new1 & Hw1 & Hquiet).
    destruct (process_instance host task _ _ _ _ _ w)
      as [[[k result]|exc] w1] eqn:Hp; [|discriminate].
    cbn [snd] in Hw1. subst w1.
    destruct (process_instance_result _ _ _ _ _ _ _ _ _ _ _ Hp)
      as (_ & r & -> & _).
    destruct (open_ok host (cfg_output cfg)); cbn [negb] in Hc;
      [|discriminate].
    destruct (IH _ _ _ _ Hc) as (new2 & -> & Hcount & Hlast).
    exists (new1 ++ Dump (cfg_output cfg) (PyDict.set k (PDict r) all) :: new2).
    split; [rewrite <- !app_assoc; reflexivity|]. split.
    + rewrite filter_app, length_app, (dumps_quiet new1 Hquiet).
      cbn [filter is_dump List.length]. rewrite Hcount. reflexivity.
    + intros stored. rewrite last_dump_app, (last_dump_quiet _ _ _ Hquiet).
      cbn [last_dump]. rewrite String.eqb_refl, Hlast.
      destruct rest; [|reflexivity].
      simpl in Hc. injection Hc as <- _. reflexivity.
Qed.




(** X13.  When the dataset loads and nothing is left to process, the
    run ends before any task is started and before the output file is
    written.  When the filters select no instance, [run_pipeline]
    returns [None] and does nothing.  When they select some and each
    has a stored result, [run_pipeline] makes the repository directory
    and returns [None]; when that directory cannot be made, the
    [OSError] leaves [run_pipeline] and nothing is done. *)
Theorem run_pipeline_nothing_to_do (cfg : RunConfig)
  (loaded : list (string * instance)) (w : world) :
  load_instances host (cfg_input cfg) (cfg_split cfg) = Ok loaded ->
  work_set host cfg = [] ->
  (_filter_instances loaded cfg = [] ->
   run_pipeline host cfg w = (Ok None, w))
  /\ (_filter_instances loaded cfg <> [] ->
      makedirs_ok host (cfg_repo_dir cfg) = true ->
      run_pipeline host cfg w
      = (Ok None, w ++ [Makedirs (cfg_repo_dir cfg)]))
  /\ (_filter_instances loaded cfg <> [] ->
      makedirs_ok host (cfg_repo_dir cfg) = false ->
      run_pipeline host cfg w
      = (Raise (Exn "OSError" (cfg_repo_dir cfg)), w)).
Proof.
  intros Hload. unfold work_set, run_pipeline. rewrite Hload.
  destruct (_filter_instances loaded cfg) as [|i0 filtered] eqn:Hf.
  - intros _. split; [reflexivity|].
    split; intros Hne; contradiction Hne; reflexivity.
  - intros Hws. split; [discriminate|].
    split; intros _ Hmk; rewrite Hmk; cbn [negb]; [|reflexivity].
    rewrite Hws. reflexivity.
Qed.

(** X14.  When a run returns a mapping, the output file has been
    written once for each instance of the work set, and what was
    written last is the mapping returned. *)
Theorem run_pipeline_persists (cfg : RunConfig) (w : world) (final : dict)
  (w' : world) :
  run_pipeline host cfg w = (Ok (Some final), w') ->
  exists new,
    w' = w ++ new
    /\ List.length (filter is_dump new) = List.length (work_set host cfg)
    /\ last_dump (cfg_output cfg) new None = Some final.
Proof.
  intros Hrun.
  destruct (run_pipeline_collects host cfg w _ _ Hrun)
    as [[H _]|[(exc & H & _)|(r & Hc & Hres)]]; try discriminate.
  destruct r as [final'|exc]; [|discriminate].
  destruct (summary_counts final'); [|discriminate].
  injection Hres as <-.
  destruct (collect_dumps cfg _ _ _ _ _ Hc) as (new & -> & Hcount & Hlast).
  exists (Makedirs (cfg_repo_dir cfg) :: new).
  split; [rewrite <- app_assoc; reflexivity|].
  assert (Hlen : List.length (as_completed host
                                (PyDict.values (work_set host cfg)))
                 = List.length (work_set host cfg)).
  { rewrite (Permutation_length (as_completed_permutation host _)).
    unfold PyDict.values. apply length_map. }
  split.
  - cbn [filter is_dump]. rewrite Hcount. exact Hlen.
  - cbn [last_dump]. rewrite Hlast.
    destruct (as_completed host (PyDict.values (work_set host cfg)))
      as [|t ts] eqn:Htasks; [|reflexivity].
    exfalso. clear Hlast Hcount Hc.
    unfold run_pipeline, work_set in *.
    destruct (load_instances host _ _) as [instances|]; [|discriminate].
    destruct (_filter_instances instances cfg) as [|i0 filtered];
      [discriminate|].
    destruct (makedirs_ok host (cfg_repo_dir cfg)); [|discriminate].
    cbn [negb] in Hrun.
    match type of Hrun with
    | match ?ws with [] => _ | _ :: _ => _ end = _ =>
        destruct ws as [|i1 remaining]; [discriminate|]
    end.
    simpl in Hlen. discriminate.
Qed.

(** X15.  Without the resume flag an output file that exists is not
    read: for instances keyed by their [instance_id], the mapping that
    the run returns has exactly the keys of the instances that the
    filters selected, so that results stored before for other
    instances are not in it. *)
Theorem run_pipeline_fresh_overwrites (cfg : RunConfig)
  (loaded : list (string * instance)) (w : world) (final : dict)
  (w' : world) :
  cfg_resume cfg = false ->
  load_instances host (cfg_input cfg) (cfg_split cfg) = Ok loaded ->
  keyed_by_id loaded ->
  run_pipeline host cfg w = (Ok (Some final), w') ->
  forall k, PyDict.mem k final = true
            <-> PyDict.mem k (_filter_instances loaded cfg) = true.
Proof.
  intros Hresume Hload Hkeyed Hrun.
  assert (Hnone : _load_existing_results host cfg = []).
  { unfold _load_existing_results. rewrite Hresume. reflexivity. }
  assert (Hws : work_set host cfg = _filter_instances loaded cfg).
  { unfold work_set. rewrite Hload, Hnone. reflexivity. }
  destruct (run_pipeline_collects host cfg w _ _ Hrun)
    as [[H _]|[(exc & H & _)|(r & Hc & Hres)]]; try discriminate.
  destruct r as [final'|exc]; [|discriminate].
  destruct (summary_counts final'); [|discriminate].
  injection Hres as <-. rewrite Hnone, Hws in Hc.
  assert (Hown : forall key inst,
            In (key, inst) (_filter_instances loaded cfg) ->
            PyDict.get "instance_id" inst = Some key).
  { intros key inst Hin. apply Hkeyed. eapply filter_instances_in.
    exact Hin. }
  intros k. split.
  - assert (Hstep : forall (inst : instance) k0 r all,
              In inst (as_completed host
                         (PyDict.values (_filter_instances loaded cfg))) ->
              PyDict.get "instance_id" inst = Some k0 ->
              PyDict.get "instance_id" r = Some (PStr k0) ->
              (forall k, PyDict.mem k all = true ->
                 PyDict.mem k (_filter_instances loaded cfg) = true) ->
              forall k, PyDict.mem k (PyDict.set k0 (PDict r) all) = true ->
                PyDict.mem k (_filter_instances loaded cfg) = true).
    { intros inst k0 r all Hin Hid _ Hall k1 Hk1. apply mem_set in Hk1.
      destruct Hk1 as [->|Hold]; [|apply Hall; exact Hold].
      apply (Permutation_in _ (as_completed_permutation host _)) in Hin.
      apply in_values in Hin. destruct Hin as [key Hkey].
      rewrite (Hown key inst Hkey) in Hid. injection Hid as <-.
      eapply in_mem. exact Hkey. }
    destruct (collect_invariant host cfg
                (fun m => forall k, PyDict.mem k m = true ->
                   PyDict.mem k (_filter_instances loaded cfg) = true)
                _ _ _ _ _ Hstep
                (fun k0 (H0 : PyDict.mem k0 [] = true) =>
                   False_ind _ (Bool.diff_false_true H0))
                Hc) as [Hfinal _].
    apply (Hfinal final eq_refl).
  - intros Hk. apply PyDictFacts.mem_true_get in Hk. destruct Hk as [inst Hk].
    apply PyDictFacts.get_in in Hk.
    destruct (collect_stores host cfg _ _ _ _ _ Hc inst) as (k' & Hid & Hself).
    + apply (Permutation_in _
               (Permutation_sym (as_completed_permutation host _))).
      unfold PyDict.values. apply in_map_iff. exists (k, inst).
      split; [reflexivity|exact Hk].
    + rewrite (Hown k inst Hk) in Hid. injection Hid as <-.
      destruct Hself as (r & Hget & _). eapply get_mem. exact Hget.
Qed.


(** X17.  Every entry of the mapping that a run returns is an entry
    stored before the run, or a record that carries the key as its
    [instance_id] and is either the placeholder or complete: it has the
    three required fields, [setup_repo.sh] is found in its
    [setup_scripts] and the marker in its [eval_script].  No record
    that failed a check is stored. *)
Theorem run_pipeline_records (cfg : RunConfig) (w : world) (final : dict)
  (w' : world) :
  run_pipeline host cfg w = (Ok (Some final), w') ->
  forall k v, PyDict.get k final = Some v ->
    PyDict.get k (_load_existing_results host cfg) = Some v
    \/ exists r, v = PDict r /\ task_record k r.
Proof.
  intros Hrun.
  destruct (run_pipeline_collects host cfg w _ _ Hrun)
    as [[H _]|[(exc & H & _)|(r & Hc & Hres)]]; try discriminate.
  destruct r as [final'|exc]; [|discriminate].
  destruct (summary_counts final'); [|discriminate].
  injection Hres as <-.
  assert (Hstep : forall k0 r0 all,
            task_record k0 r0 ->
            (forall k v, PyDict.get k all = Some v ->
               PyDict.get k (_load_existing_results host cfg) = Some v
               \/ exists r, v = PDict r /\ task_record k r) ->
            forall k v, PyDict.get k (PyDict.set k0 (PDict r0) all) = Some v ->
              PyDict.get k (_load_existing_results host cfg) = Some v
              \/ exists r, v = PDict r /\ task_record k r).
  { intros k0 r0 all Hr Hall k v Hget.
    destruct (string_dec k k0) as [->|Hne].
    - rewrite PyDictFacts.get_set_same in Hget. injection Hget as <-.
      right. exists r0. split; [reflexivity|exact Hr].
    - rewrite PyDictFacts.get_set_other in Hget by exact Hne.
      apply Hall. exact Hget. }
  exact (collect_records cfg
           (fun m => forall k v, PyDict.get k m = Some v ->
              PyDict.get k (_load_existing_results host cfg) = Some v
              \/ exists r, v = PDict r /\ task_record k r)
           Hstep _ _ _ _ _ (fun k v Hget => or_introl Hget) Hc).
Qed.

End RunFacts.

Lemma run_pipeline_nothing_to_do_witness :
  sample_pipeline Sample.all_succeed (Some stored_abc) resume_cfg
  = (Ok None, [Makedirs "./repo"]).
Proof.
  unfold sample_pipeline.
  refine (proj1 (proj2
            (run_pipeline_nothing_to_do (json := Json.decoder)
               (unidiff := HeaderReader.reader)
               (sample_host Sample.all_succeed (Some stored_abc)) resume_cfg
               (map (fun k => (k, Sample.descriptor k)) ["a"; "b"; "c"]) []
               _ _)) _ _).
  - reflexivity.
  - vm_compute. reflexivity.
  - vm_compute. discriminate.
  - reflexivity.
Defined.

Lemma run_pipeline_persists_witness :
  exists final new,
    sample_pipeline Sample.all_succeed None default_cfg
    = (Ok (Some final), new)
    /\ List.length (filter is_dump new) = 3
    /\ last_dump "docker_res.json" new None = Some final.
Proof.
  unfold sample_pipeline.
  destruct (run_pipeline (json := Json.decoder)
              (unidiff := HeaderReader.reader)
              (sample_host Sample.all_succeed None) default_cfg [])
    as [[[final|]|exc] w'] eqn:Hrun;
    [|vm_compute in Hrun; discriminate|vm_compute in Hrun; discriminate].
  destruct (run_pipeline_persists (json := Json.decoder)
              (unidiff := HeaderReader.reader)
              (sample_host Sample.all_succeed None) default_cfg [] final w'
              Hrun) as (new & Hw & Hcount & Hlast).
  exists final, new. cbn [app] in Hw. subst w'.
  split; [reflexivity|]. split; [exact Hcount|exact Hlast].
Defined.

Lemma run_pipeline_fresh_overwrites_witness :
  stored_results (sample_host Sample.all_succeed (Some stored_a))
    "docker_res.json" = Some stored_a
  /\ exists final,
       fst (sample_pipeline Sample.all_succeed (Some stored_a)
              (with_filters default_cfg (Some ["b"]) None None))
       = Ok (Some final)
       /\ PyDict.mem "a" final = false
       /\ PyDict.mem "b" final = true.
Proof.
  split; [reflexivity|]. unfold sample_pipeline.
  destruct (run_pipeline (json := Json.decoder)
              (unidiff := HeaderReader.reader)
              (sample_host Sample.all_succeed (Some stored_a))
              (with_filters default_cfg (Some ["b"]) None None) [])
    as [[[final|]|exc] w'] eqn:Hrun;
    [|vm_compute in Hrun; discriminate|vm_compute in Hrun; discriminate].
  exists final. split; [reflexivity|].
  assert (Hkeys := run_pipeline_fresh_overwrites (json := Json.decoder)
                     (unidiff := HeaderReader.reader)
                     (sample_host Sample.all_succeed (Some stored_a))
                     (with_filters default_cfg (Some ["b"]) None None)
                     (map (fun k => (k, Sample.descriptor k)) ["a"; "b"; "c"])
                     [] final w' eq_refl eq_refl).
  assert (Hkeyed : keyed_by_id
                     (map (fun k => (k, Sample.descriptor k))
                        ["a"; "b"; "c"])).
  { intros k inst [H|[H|[H|[]]]]; injection H as <- <-; reflexivity. }
  specialize (Hkeys Hkeyed Hrun). split.
  - destruct (PyDict.mem "a" final) eqn:Ha; [|reflexivity].
    apply Hkeys in Ha. discriminate.
  - apply Hkeys. reflexivity.
Defined.


Lemma run_pipeline_records_witness :
  exists final,
    fst (sample_pipeline Sample.all_fail None default_cfg) = Ok (Some final)
    /\ forall k v, PyDict.get k final = Some v ->
         PyDict.get k [] = Some v
         \/ exists r, v = PDict r /\ task_record k r.
Proof.
  unfold sample_pipeline.
  destruct (run_pipeline (json := Json.decoder)
              (unidiff := HeaderReader.reader)
              (sample_host Sample.all_fail None) default_cfg [])
    as [[[final|]|exc] w'] eqn:Hrun;
    [|vm_compute in Hrun; discriminate|vm_compute in Hrun; discriminate].
  exists final. split; [reflexivity|].
  exact (run_pipeline_records (json := Json.decoder)
           (unidiff := HeaderReader.reader)
           (sample_host Sample.all_fail None) default_cfg [] final w' Hrun).
Defined.

(* ================================================================== *)
(** ** The closing summary *)

Module SummaryFacts.

(** One pass of a count of [summary_counts]. *)
Lemma count_task_records (vs : list pyval) :
  Forall (fun v => exists r k, v = PDict r /\ task_record k r) vs ->
  exists n,
    n <= List.length vs
    /\ forall a1 a2,
         fold_left
           (fun (acc : outcome nat) (val : pyval) =>
              match acc with
              | Raise exc => Raise exc
              | Ok n =>
                  match val with
                  | PDict record =>
                      match py_in "OMNIGRIL_EXIT_CODE"
                              match PyDict.get "eval_script" record with
                              | Some v => v
                              | None => PStr ""
                              end with
                      | Raise exc => Raise exc
                      | Ok true => Ok (S n)
                      | Ok false => Ok n
                      end
                  | _ => Raise (Exn "AttributeError"
                                  "object has no attribute 'get'")
                  end
              end) vs (Ok a1) = Ok (a1 + n)
         /\ fold_left
              (fun (acc : outcome nat) (val : pyval) =>
                 match acc with
                 | Raise exc => Raise exc
                 | Ok n =>
                     match val with
                     | PDict record =>
                         match py_in "setup_repo.sh"
                                 match PyDict.get "setup_scripts" record with
                                 | Some v => v
                                 | None => PDict []
                                 end with
                         | Raise exc => Raise exc
                         | Ok true => Ok (S n)
                         | Ok false => Ok n
                         end
                     | _ => Raise (Exn "AttributeError"
                                     "object has no attribute 'get'")
                     end
                 end) vs (Ok a2) = Ok (a2 + n).
Proof.
  induction vs as [|v vs IH]; intros Hall.
  - exists 0. split; [lia|]. intros a1 a2. rewrite !Nat.add_0_r.
    split; reflexivity.
  - inversion Hall as [|v' vs' Hv Hvs]; subst.
    destruct (IH Hvs) as (n & Hn & Hfold).
    destruct Hv as (r & k & -> & _ & [->|Hcomplete]).
    + exists n. split; [simpl; lia|]. intros a1 a2. cbn [fold_left].
      change (PyDict.get "eval_script" (placeholder k)) with (@None pyval).
      change (PyDict.get "setup_scripts" (placeholder k)) with (@None pyval).
      change (py_in "OMNIGRIL_EXIT_CODE" (PStr "")) with (Ok false).
      change (py_in "setup_repo.sh" (PDict [])) with (Ok false).
      apply Hfold.
    + exists (S n). split; [simpl; lia|]. intros a1 a2. cbn [fold_left].
      destruct Hcomplete as (_ & (scripts & -> & ->) & (script & -> & ->)).
      destruct (Hfold (S a1) (S a2)) as [-> ->].
      split; f_equal; lia.
Qed.

End SummaryFacts.

(** X18.  Over a mapping whose entries are all records handed over by
    tasks, the closing summary of a run does not raise, and its two
    counts are the same number: that of the complete records. *)
Theorem summary_counts_of_task_records (m : dict) :
  (forall k v, In (k, v) m -> exists r, v = PDict r /\ task_record k r) ->
  exists n, summary_counts m = Ok (n, n) /\ n <= List.length m.
Proof.
  intros Hm.
  destruct (SummaryFacts.count_task_records (PyDict.values m))
    as (n & Hn & Hfold).
  { apply Forall_forall. intros v Hv. unfold PyDict.values in Hv.
    apply in_map_iff in Hv. destruct Hv as ([k v'] & <- & Hin).
    destruct (Hm k v' Hin) as (r & -> & Hr). exists r, k.
    split; [reflexivity|exact Hr]. }
  exists n. split.
  - unfold summary_counts. destruct (Hfold 0 0) as [-> ->]. reflexivity.
  - unfold PyDict.values in Hn. rewrite length_map in Hn. exact Hn.
Qed.

Lemma summary_counts_of_task_records_witness :
  exists n,
    summary_counts (stored_a ++ [("b", PDict (placeholder "b"))]) = Ok (n, n)
    /\ n <= 2.
Proof.
  apply (summary_counts_of_task_records
           (stored_a ++ [("b", PDict (placeholder "b"))])).
  intros k v [H|[H|[]]]; injection H as <- <-; eexists;
    (split; [reflexivity|]); (split; [reflexivity|]).
  - right. split; [|split].
    + intros key [<-|[<-|[<-|[]]]]; reflexivity.
    + eexists. split; reflexivity.
    + eexists. split; reflexivity.
  - left. reflexivity.
Defined.

Section ResumeAgain.
Context {json : JsonDecoder} {unidiff : Unidiff}.
Variable host : Host.

Lemma filter_none {A : Type} (p : A -> bool) (l : list A) :
  (forall x, In x l -> p x = false) -> filter p l = [].
Proof.
  induction l as [|x l IH]; intros H; [reflexivity|].
  cbn [filter]. rewrite (H x (or_introl eq_refl)).
  apply IH. intros y Hy. apply H. right. exact Hy.
Qed.

(** X19.  A run that returned leaves nothing to do: for instances keyed
    by their [instance_id], the work set of a run with the resume flag
    over the same dataset and filters, started on the output file that
    the first run left, is empty. *)
Theorem resume_after_complete_run (cfg : RunConfig)
  (loaded : list (string * instance)) (w : world) (final : dict)
  (w' : world) :
  load_instances host (cfg_input cfg) (cfg_split cfg) = Ok loaded ->
  keyed_by_id loaded ->
  run_pipeline host cfg w = (Ok (Some final), w') ->
  work_set (with_stored host final) (with_resume cfg) = [].
Proof.
  intros Hload Hkeyed Hrun.
  destruct (run_pipeline_collects host cfg w _ _ Hrun)
    as [[H _]|[(exc & H & _)|(r & Hc & Hres)]]; try discriminate.
  destruct r as [final'|exc]; [|discriminate].
  destruct (summary_counts final'); [|discriminate].
  injection Hres as <-.
  assert (Hkept : forall k,
            PyDict.mem k (_load_existing_results host cfg) = true ->
            PyDict.mem k final = true).
  { destruct (collect_invariant host cfg
                (fun m => forall k,
                   PyDict.mem k (_load_existing_results host cfg) = true ->
                   PyDict.mem k m = true)
                _ _ _ _ _
                (fun _ k0 r all _ _ _ Hall k Hk =>
                   mem_set_mono k0 k (PDict r) all (Hall k Hk))
                (fun k Hk => Hk) Hc) as [Hfinal _].
    apply Hfinal. reflexivity. }
  assert (Hdone : forall key inst,
            In (key, inst) (work_set host cfg) ->
            PyDict.mem key final = true).
  { intros key inst Hin.
    destruct (collect_stores host cfg _ _ _ _ _ Hc inst)
      as (k & Hid & (r & Hget & _)).
    - apply (Permutation_in _
               (Permutation_sym (as_completed_permutation host _))).
      unfold PyDict.values. apply in_map_iff. exists (key, inst).
      split; [reflexivity|exact Hin].
    - assert (Hkey : PyDict.get "instance_id" inst = Some key).
      { apply Hkeyed. unfold work_set in Hin. rewrite Hload in Hin.
        destruct (_load_existing_results host cfg).
        - eapply filter_instances_in. exact Hin.
        - apply filter_In in Hin. eapply filter_instances_in.
          exact (proj1 Hin). }
      rewrite Hkey in Hid. injection Hid as <-.
      eapply get_mem. exact Hget. }
  assert (Hall : forall key inst,
            In (key, inst) (_filter_instances loaded cfg) ->
            PyDict.mem key final = true).
  { intros key inst Hin.
    destruct (PyDict.mem key (_load_existing_results host cfg)) eqn:Hold;
      [apply Hkept; exact Hold|].
    apply (Hdone key inst). unfold work_set. rewrite Hload.
    destruct (_load_existing_results host cfg) as [|e0 existing];
      [exact Hin|].
    apply filter_In. split; [exact Hin|]. cbn [fst]. rewrite Hold.
    reflexivity. }
  unfold work_set.
  change (load_instances (with_stored host final)
            (cfg_input (with_resume cfg)) (cfg_split (with_resume cfg)))
    with (load_instances host (cfg_input cfg) (cfg_split cfg)).
  rewrite Hload.
  change (_load_existing_results (with_stored host final) (with_resume cfg))
    with final.
  change (_filter_instances loaded (with_resume cfg))
    with (_filter_instances loaded cfg).
  destruct final as [|e0 final0] eqn:Hfinal.
  - destruct (_filter_instances loaded cfg) as [|[key inst] filtered];
      [reflexivity|].
    specialize (Hall key inst (or_introl eq_refl)). discriminate.
  - apply filter_none. intros [key inst] Hin. cbn [fst].
    rewrite (Hall key inst Hin). reflexivity.
Qed.

End ResumeAgain.

Lemma resume_after_complete_run_witness :
  exists final,
    fst (sample_pipeline Sample.all_succeed None default_cfg)
    = Ok (Some final)
    /\ work_set (with_stored (sample_host Sample.all_succeed None) final)
         (with_resume default_cfg) = [].
Proof.
  unfold sample_pipeline.
  destruct (run_pipeline (json := Json.decoder)
              (unidiff := HeaderReader.reader)
              (sample_host Sample.all_succeed None) default_cfg [])
    as [[[final|]|exc] w'] eqn:Hrun;
    [|vm_compute in Hrun; discriminate|vm_compute in Hrun; discriminate].
  exists final. split; [reflexivity|].
  apply (resume_after_complete_run (json := Json.decoder)
           (unidiff := HeaderReader.reader)
           (sample_host Sample.all_succeed None) default_cfg
           (map (fun k => (k, Sample.descriptor k)) ["a"; "b"; "c"])
           [] final w').
  - reflexivity.
  - intros k inst [H|[H|[H|[]]]]; injection H as <- <-; reflexivity.
  - exact Hrun.
Defined.

(* ================================================================== *)
(** ** The trajectory log and the stream loop *)

Module PathFacts.

Lemma prefix_char (c x : ascii) (s : string) :
  String.prefix (String c EmptyString) (String x s) = Ascii.eqb c x.
Proof.
  destruct (Ascii.eqb_spec c x) as [->|Hne].
  - apply String.prefix_correct. simpl. destruct s; reflexivity.
  - destruct (String.prefix (String c "") (String x s)) eqn:E; [|reflexivity].
    apply String.prefix_correct in E. simpl in E.
    injection E as E. congruence.
Qed.

Lemma contains_char_cons (c x : ascii) (s : string) :
  PyStr.contains (String c EmptyString) (String x s)
  = Ascii.eqb c x || PyStr.contains (String c EmptyString) s.
Proof.
  rewrite PyStrFacts.contains_unfold, prefix_char.
  destruct (Ascii.eqb c x); reflexivity.
Qed.

Lemma contains_char_app (c : ascii) (a b : string) :
  PyStr.contains (String c EmptyString) (a ++ b)
  = PyStr.contains (String c EmptyString) a
    || PyStr.contains (String c EmptyString) b.
Proof.
  induction a as [|x a IH].
  - simpl. destruct b; reflexivity.
  - cbn [append]. rewrite !contains_char_cons, IH. apply orb_assoc.
Qed.

(** The file name of a log has no directory separator. *)
Lemma safe_id_flat (instance_id : string) :
  PyStr.contains "/" (PyStr.replace_char "/" "__" instance_id) = false.
Proof.
  induction instance_id as [|x s IH]; [reflexivity|].
  cbn [PyStr.replace_char]. destruct (Ascii.eqb x "/") eqn:E.
  - rewrite contains_char_app, IH. reflexivity.
  - rewrite contains_char_cons, IH, Ascii.eqb_sym, E. reflexivity.
Qed.

Lemma no_slash_relative (name : string) :
  PyStr.contains "/" name = false -> PyStr.startswith "/" name = false.
Proof.
  unfold PyStr.startswith. destruct name as [|x s]; [reflexivity|].
  rewrite contains_char_cons, prefix_char. intros H.
  apply orb_false_iff in H. tauto.
Qed.

End PathFacts.

Section LogPathFacts.
Variable host : Host.

(** X20.  The trajectory log of an instance is a file of the log
    directory itself, whatever the instance id is: its path is the log
    directory, a separator unless the directory is empty or ends in
    one, and a file name that ends in [.jsonl] and has no separator in
    it. *)
Theorem trajectory_log_in_log_dir (instance_id user_prompt log_dir : string)
  (w : world) (path : string) (w' : world) :
  _open_trajectory_log host instance_id user_prompt (Some log_dir) w
  = (Ok (Some path), w') ->
  exists sep name,
    path = (log_dir ++ sep ++ name)%string
    /\ (sep = (if is_empty log_dir || PyStr.endswith "/" log_dir
               then "" else "/"))
    /\ PyStr.contains "/" name = false
    /\ PyStr.endswith ".jsonl" name = true
    /\ In (Open path) w'.
Proof.
  unfold _open_trajectory_log.
  destruct (makedirs_ok host log_dir); cbn [negb]; [|discriminate].
  destruct (open_ok host _); cbn [negb]; [|discriminate].
  destruct (write_ok host _ _); cbn [negb]; [|discriminate].
  intros H. injection H as <- <-.
  set (name := (PyStr.replace_char "/" "__" instance_id ++ ".jsonl")%string).
  assert (Hflat : PyStr.contains "/" name = false).
  { subst name. rewrite PathFacts.contains_char_app, PathFacts.safe_id_flat.
    reflexivity. }
  exists (if is_empty log_dir || PyStr.endswith "/" log_dir then "" else "/"),
    name.
  split; [|split; [reflexivity|split; [exact Hflat|split]]].
  - unfold path_join. rewrite (PathFacts.no_slash_relative name Hflat).
    destruct (is_empty log_dir || PyStr.endswith "/" log_dir); reflexivity.
  - apply SuffixFacts.endswith_iff. eexists. reflexivity.
  - apply in_or_app. left. apply in_or_app. right. left. reflexivity.
Qed.

End LogPathFacts.

Lemma trajectory_log_in_log_dir_witness :
  exists sep name,
    "/var/logs/__etc__passwd.jsonl" = ("/var/logs" ++ sep ++ name)%string
    /\ sep = "/"
    /\ PyStr.contains "/" name = false
    /\ PyStr.endswith ".jsonl" name = true
    /\ In (Open "/var/logs/__etc__passwd.jsonl")
         [Makedirs "/var/logs"; Open "/var/logs/__etc__passwd.jsonl";
          Write "/var/logs/__etc__passwd.jsonl" (Header "/etc/passwd" "p")].
Proof.
  exact (trajectory_log_in_log_dir
           (Sample.host Sample.failing Sample.all_succeed [] None)
           "/etc/passwd" "p" "/var/logs" []
           "/var/logs/__etc__passwd.jsonl"
           [Makedirs "/var/logs"; Open "/var/logs/__etc__passwd.jsonl";
            Write "/var/logs/__etc__passwd.jsonl" (Header "/etc/passwd" "p")]
           eq_refl).
Defined.

Section LoopFacts.
Context {json : JsonDecoder} {unidiff : Unidiff}.
Variable host : Host.

Lemma consume_without_log (raised : option exn) :
  forall (messages : list Message) (st : loop_state) (w : world),
    snd (consume host None messages raised st w) = w.
Proof.
  induction messages as [|m messages IH]; intros st w.
  - simpl. destruct raised; reflexivity.
  - destruct m as [mdl content|content|sub data|rm|];
      cbn [consume _serialize_message _append_to_log]; try apply IH.
    + destruct (assistant_content content []); [apply IH|reflexivity].
    + reflexivity.
Qed.

(** X21.  With no log directory, [run_agent] makes no directory and
    opens and writes no file: it leaves the world as it found it,
    whatever the instance and the stream are. *)
Theorem run_agent_without_log_dir (instance : instance)
  (repo_dir model : string) (max_turns : nat) (project_dir : string)
  (w : world) :
  snd (run_agent host instance repo_dir model max_turns None project_dir w)
  = w.
Proof.
  unfold run_agent, session.
  destruct (PyDict.get "instance_id" instance) as [iid|]; [|reflexivity].
  destruct (build_user_prompt instance _) as [user_prompt|]; [|reflexivity].
  cbn [_open_trajectory_log].
  match goal with
  | |- context [consume host None ?ms ?rs ?st w] =>
      pose proof (consume_without_log rs ms st w) as Hw;
      destruct (consume host None ms rs st w) as [[st'|exc] w1]
  end; cbn [snd] in Hw; subst w1; [reflexivity|].
  destruct exc; reflexivity.
Qed.

(** X22.  While the stream is read, the log receives the serialised
    form of each message read, in the order of the stream: of every
    message up to the first result event, that event included, or up
    to an assistant message on which the loop raises, that message
    included; nothing that comes later in the stream is logged. *)
Theorem stream_log_entries (path : string) (raised : option exn)
  (messages : list Message) (st : loop_state) (w : world) :
  (forall line, write_ok host path line = true) ->
  snd (consume host (Some path) messages raised st w)
  = w ++ entry_writes path (log_entries (read_messages messages)).
Proof.
  intros Hw. revert st w.
  induction messages as [|m messages IH]; intros st w.
  - simpl. destruct raised; simpl; rewrite app_nil_r; reflexivity.
  - assert (Hstep : forall st' data,
              snd (consume host (Some path) messages raised st'
                     (w ++ entry_writes path [data]))
              = w ++ entry_writes path
                       (data :: log_entries (read_messages messages))).
    { intros st' data. rewrite IH. rewrite <- app_assoc. reflexivity. }
    destruct m as [mdl content|content|sub data|rm|];
      cbn [consume _serialize_message read_messages];
      try rewrite append_to_log_writes by exact Hw.
    + destruct (assistant_content content []) as [texts|exc].
      * apply Hstep.
      * reflexivity.
    + apply Hstep.
    + apply Hstep.
    + reflexivity.
    + apply IH.
Qed.

Lemma assistant_content_texts (content : list ContentBlock) :
  forall (acc texts : list string),
    assistant_content content acc = Ok texts ->
    texts = acc ++ text_blocks_of content.
Proof.
  induction content as [|block content IH]; intros acc texts H.
  - simpl in H. injection H as <-. rewrite app_nil_r. reflexivity.
  - destruct block as [text|thinking|id name input|id c e|repr];
      cbn [assistant_content] in H;
      try (apply IH in H; exact H).
    + apply IH in H. rewrite <- app_assoc in H. exact H.
    + destruct (_summarize_tool_input name input); [|discriminate].
      apply IH in H. exact H.
Qed.

(** X23.  When the stream loop ends without an exception, the text it
    hands to the extraction is that of the last assistant message read
    that has a text block, its text blocks joined by line feeds; the
    texts of earlier assistant messages are dropped, and a message
    without a text block leaves the text as it was. *)
Theorem stream_final_text (log_file : option string) (raised : option exn)
  (messages : list Message) (st st' : loop_state) (w w' : world) :
  consume host log_file messages raised st w = (Ok st', w') ->
  last_assistant_text st'
  = final_text (read_messages messages) (last_assistant_text st).
Proof.
  revert st w. induction messages as [|m messages IH]; intros st w H.
  - simpl in H. destruct raised; [discriminate|].
    injection H as <- _. reflexivity.
  - destruct m as [mdl content|content|sub data|rm|];
      cbn [consume read_messages] in *.
    + destruct (assistant_content content []) as [texts|exc] eqn:Hc;
        [|discriminate].
      apply assistant_content_texts in Hc. cbn [app] in Hc. subst texts.
      apply IH in H. cbn [last_assistant_text] in H.
      unfold final_text in *. cbn [fold_left].
      destruct (text_blocks_of content); exact H.
    + apply IH in H. exact H.
    + apply IH in H. exact H.
    + injection H as <- _. reflexivity.
    + apply IH in H. exact H.
Qed.

(** X24.  Nothing that the stream does after its first result event is
    seen: the messages after it, and an exception that ends the stream
    after it, change neither what the loop returns nor what it
    logs. *)
Theorem stream_ends_at_result (log_file : option string)
  (raised : option exn) (pre : list Message) (r : ResultMessage)
  (post : list Message) (st : loop_state) (w : world) :
  consume host log_file (pre ++ Result r :: post) raised st w
  = consume host log_file (pre ++ [Result r]) None st w.
Proof.
  revert st w. induction pre as [|m pre IH]; intros st w; [reflexivity|].
  destruct m as [mdl content|content|sub data|rm|];
    cbn [app consume]; try apply IH.
  - destruct (assistant_content content []); [apply IH|reflexivity].
  - reflexivity.
Qed.

End LoopFacts.

Lemma stream_log_entries_witness :
  snd (consume (Sample.host Sample.failing Sample.all_succeed [] None)
         (Some "./logs/demo-1.jsonl") with_late_message None loop_start [])
  = [] ++ entry_writes "./logs/demo-1.jsonl"
            (log_entries (read_messages with_late_message)).
Proof.
  apply (stream_log_entries
           (Sample.host Sample.failing Sample.all_succeed [] None)
           "./logs/demo-1.jsonl" None with_late_message loop_start []).
  intros line. reflexivity.
Defined.

Lemma stream_final_text_witness :
  exists st',
    consume (Sample.host Sample.failing Sample.all_succeed [] None)
      None with_late_message None loop_start []
    = (Ok st', [])
    /\ last_assistant_text st' = Some "Done.".
Proof.
  destruct (consume (Sample.host Sample.failing Sample.all_succeed [] None)
              None with_late_message None loop_start [])
    as [[st'|exc] w'] eqn:Hc; [|vm_compute in Hc; discriminate].
  exists st'. split.
  - f_equal. assert (Hw := f_equal snd Hc). cbn [snd] in Hw.
    rewrite <- Hw. apply consume_without_log.
  - rewrite (stream_final_text _ _ _ _ _ _ _ _ Hc). reflexivity.
Defined.

(* ================================================================== *)
(** ** The checks on the record and the tool inputs *)

Section CheckFacts.
Context {json : JsonDecoder} {unidiff : Unidiff}.
Variable host : Host.

Lemma validate_output_of_complete (d : dict) :
  complete_record d -> validate_output d = Ok (Some d).
Proof.
  intros (Hkeys & (scripts & Hs & Hin) & (script & He & Hm)).
  unfold validate_output.
  assert (Hall : forallb (fun key => PyDict.mem key d) required_keys = true).
  { apply forallb_forall. exact Hkeys. }
  rewrite Hall. cbn [negb]. rewrite Hs, Hin, He, Hm. reflexivity.
Qed.

(** X25.  A record that passed the checks of [run_agent] passes them
    again and comes out as it is: the repair of the test script is
    done once.  The record has the keys of the extracted record in
    their order, and every field but [eval_script] is as
    extracted. *)
Theorem validate_output_stable (d d' : dict) :
  validate_output d = Ok (Some d') ->
  validate_output d' = Ok (Some d')
  /\ PyDict.keys d' = PyDict.keys d
  /\ forall key, key <> "eval_script" ->
       PyDict.get key d' = PyDict.get key d.
Proof.
  intros H. split.
  - apply validate_output_of_complete.
    apply (validate_output_complete d). exact H.
  - revert H. unfold validate_output.
    destruct (forallb (fun key => PyDict.mem key d) required_keys) eqn:Hall;
      cbn [negb]; [|discriminate].
    rewrite forallb_forall in Hall.
    destruct (py_in "setup_repo.sh" _) as [[|]|exc]; try discriminate.
    destruct (PyDict.get "eval_script" d) as [script|] eqn:He;
      [|discriminate].
    destruct (py_in "OMNIGRIL_EXIT_CODE" script) as [[|]|exc];
      try discriminate.
    + intros H. injection H as <-. split; reflexivity.
    + destruct script as [| | | |text| |]; try discriminate.
      intros H. injection H as <-. split.
      * rewrite DetectFacts.keys_set.
        rewrite (Hall "eval_script") by (simpl; tauto). reflexivity.
      * intros key Hkey. apply PyDictFacts.get_set_other. exact Hkey.
Qed.

(** X26.  The summary of a tool use for the logger does not raise when
    the values of the tool's input are strings ([todos] may be a
    list), whatever the tool is. *)
Theorem summarize_tool_input_plain (tool_name : string) (input_data : dict) :
  plain_tool_input input_data ->
  _summarize_tool_input tool_name input_data = Ok tt.
Proof.
  intros Hplain. unfold _summarize_tool_input.
  assert (Hsized : forall key default,
            (exists s, default = PStr s) \/ (exists l, default = PList l) ->
            match py_len match PyDict.get key input_data with
                         | Some v => v
                         | None => default
                         end with
            | Ok _ => Ok tt
            | Raise e => Raise e
            end = Ok tt).
  { intros key default Hdefault.
    destruct (PyDict.get key input_data) as [v|] eqn:Hget.
    - destruct (Hplain key v Hget) as [[s ->]|[_ [l ->]]]; reflexivity.
    - destruct Hdefault as [[s ->]|[l ->]]; reflexivity. }
  assert (Hstr : forall key, key <> "todos" ->
            exists s, match PyDict.get key input_data with
                      | Some v => v
                      | None => PStr ""
                      end = PStr s).
  { intros key Hkey.
    destruct (PyDict.get key input_data) as [v|] eqn:Hget.
    - destruct (Hplain key v Hget) as [[s ->]|[-> _]];
        [exists s; reflexivity|contradiction Hkey; reflexivity].
    - exists "". reflexivity. }
  repeat match goal with
         | |- (if ?c then _ else _) = _ => destruct c
         end;
    try reflexivity;
    try (apply Hsized; left; eexists; reflexivity);
    try (apply Hsized; right; eexists; reflexivity).
  - destruct (Hstr "command") as [s ->]; [discriminate|reflexivity].
  - destruct (Hstr "url") as [s ->]; [discriminate|reflexivity].
Qed.

Lemma assistant_content_raises (content : list ContentBlock)
  (id name : string) (input : dict) :
  In (ToolUseBlock id name input) content ->
  (exists exc, _summarize_tool_input name input = Raise exc) ->
  forall acc, exists exc, assistant_content content acc = Raise exc.
Proof.
  intros Hin [exc Hexc].
  induction content as [|block content IH]; intros acc; [destruct Hin|].
  destruct Hin as [->|Hin].
  - cbn [assistant_content]. rewrite Hexc. exists exc. reflexivity.
  - destruct block as [text|thinking|id' name' input'|id' c e|repr];
      cbn [assistant_content]; try (apply IH; exact Hin).
    destruct (_summarize_tool_input name' input') as [[]|exc'];
      [apply IH; exact Hin|exists exc'; reflexivity].
Qed.

Lemma consume_raises_on_message (log_file : option string)
  (raised : option exn) (model : string) (content : list ContentBlock)
  (post : list Message) :
  (forall acc, exists exc, assistant_content content acc = Raise exc) ->
  forall (pre : list Message) (st : loop_state) (w : world),
    no_result pre ->
    exists class_name message w',
      consume host log_file (pre ++ AssistantMessage model content :: post)
        raised st w = (Raise (Exn class_name message), w').
Proof.
  intros Hbad. induction pre as [|m pre IH]; intros st w Hno.
  - cbn [app consume]. destruct (Hbad []) as [exc Hexc]. rewrite Hexc.
    destruct (assistant_content_raise_kind _ _ _ Hexc) as (c0 & m0 & ->).
    eexists. eexists. eexists. reflexivity.
  - assert (Hrest : no_result pre).
    { intros m' Hin. apply Hno. right. exact Hin. }
    destruct m as [mdl c|c|sub data|rm|]; cbn [app consume].
    + destruct (assistant_content c []) as [texts|exc] eqn:Hc.
      * apply IH. exact Hrest.
      * destruct (assistant_content_raise_kind _ _ _ Hc) as (c0 & m0 & ->).
        eexists. eexists. eexists. reflexivity.
    + apply IH. exact Hrest.
    + apply IH. exact Hrest.
    + exfalso. apply (Hno (Result rm) (or_introl eq_refl) rm). reflexivity.
    + apply IH. exact Hrest.
Qed.

(** X27.  A tool use whose input makes the logger's summary raise (a
    shell command that is not a string, say) in an assistant message
    that comes before any result event ends the session: [run_agent]
    returns no result, whatever the agent answers afterwards. *)
Theorem run_agent_tool_summary_error (instance : instance)
  (repo_dir model : string) (max_turns : nat) (log_dir : option string)
  (project_dir : string) (w : world)
  (pre : list Message) (mdl : string) (content : list ContentBlock)
  (post : list Message) (id name : string) (input : dict) :
  has_required_fields instance ->
  (forall dir, log_dir = Some dir -> makedirs_ok host dir = true) ->
  (forall p o,
     yielded (query host p o) = pre ++ AssistantMessage mdl content :: post) ->
  no_result pre ->
  In (ToolUseBlock id name input) content ->
  (exists exc, _summarize_tool_input name input = Raise exc) ->
  fst (run_agent host instance repo_dir model max_turns log_dir project_dir w)
  = Ok None.
Proof.
  intros Hfields Hdir Hstream Hpre Hin Hbad.
  unfold run_agent, session.
  destruct Hfields as (iid & repo & commit & Hid & Hrepo & Hcommit).
  rewrite Hid.
  destruct (build_user_prompt_ok instance
              (path_join (path_join (abspath host project_dir) "tmp")
                 ("docker_build_" ++ iid)))
    as [user_prompt Hprompt].
  { exists iid, repo, commit. tauto. }
  rewrite Hprompt.
  destruct (open_trajectory_log_ok host iid user_prompt log_dir w Hdir)
    as (log_file & w0 & Hopen).
  rewrite Hopen, Hstream.
  match goal with
  | |- context [consume host log_file _ ?rs ?st w0] =>
      destruct (consume_raises_on_message log_file rs mdl content post
                  (assistant_content_raises content id name input Hin Hbad)
                  pre st w0 Hpre) as (c0 & m0 & w1 & ->)
  end.
  reflexivity.
Qed.

End CheckFacts.

Lemma validate_output_stable_witness :
  exists d',
    validate_output Sample.record = Ok (Some d')
    /\ validate_output d' = Ok (Some d')
    /\ PyDict.keys d' = PyDict.keys Sample.record.
Proof.
  destruct (validate_output Sample.record) as [[d'|]|exc] eqn:Hv;
    [|vm_compute in Hv; discriminate|vm_compute in Hv; discriminate].
  exists d'. split; [reflexivity|].
  destruct (validate_output_stable Sample.record d' Hv) as (H1 & H2 & _).
  split; assumption.
Defined.

Lemma summarize_tool_input_plain_witness :
  _summarize_tool_input "TodoWrite"
    [("todos", PList [PDict [("content", PStr "build the image")]])]
  = Ok tt.
Proof.
  apply summarize_tool_input_plain. intros key v H. cbn [PyDict.get] in H.
  destruct (String.eqb "todos" key) eqn:E; [|discriminate].
  apply String.eqb_eq in E. subst key. injection H as <-.
  right. split; [reflexivity|]. eexists. reflexivity.
Defined.

Lemma run_agent_tool_summary_error_witness :
  fst (sample_run with_list_command (Sample.descriptor "demo-1")) = Ok None.
Proof.
  unfold sample_run.
  apply (run_agent_tool_summary_error (json := Json.decoder)
           (unidiff := HeaderReader.reader)
           (Sample.host with_list_command Sample.all_succeed [] None)
           (Sample.descriptor "demo-1") "./repo/demo-1"
           "claude-sonnet-4-5-20250929" 100 (Some "./logs") "." []
           [] "m"
           [ToolUseBlock "t1" "Bash" [("command", PList [PStr "ls"])]]
           [ AssistantMessage "m"
               [TextBlock (Sample.wrapped Sample.marked_text)];
             Result (Sample.final_result false) ]
           "t1" "Bash" [("command", PList [PStr "ls"])]).
  - exists "demo-1", "octo/demo", "0123456789abcdef". repeat split.
  - intros dir _. reflexivity.
  - intros p o. reflexivity.
  - intros m [].
  - left. reflexivity.
  - eexists. reflexivity.
Defined.

(* ================================================================== *)
(** ** The user prompt *)

Module PromptFacts.

Lemma contains_here (v t : string) : PyStr.contains v (v ++ t) = true.
Proof.
  rewrite PyStrFacts.contains_unfold.
  assert (H : String.prefix v (v ++ t) = true).
  { apply PyStrFacts.prefix_app. induction v as [|c v IH]; [reflexivity|].
    apply String.prefix_correct. simpl.
    apply String.prefix_correct in IH. rewrite IH. reflexivity. }
  rewrite H. reflexivity.
Qed.

Lemma contains_cons (v : string) (c : ascii) (s : string) :
  PyStr.contains v s = true -> PyStr.contains v (String c s) = true.
Proof.
  intros H. rewrite PyStrFacts.contains_unfold.
  destruct (String.prefix v (String c s)); [reflexivity|exact H].
Qed.

Ltac find_value :=
  repeat first
    [ apply contains_here
    | apply contains_cons
    | apply PyStrFacts.contains_app_r ].

End PromptFacts.

Section PromptVerbatim.
Context {unidiff : Unidiff}.

(** X28.  A prompt that [build_user_prompt] returns holds the build
    directory, the detected language and each of the fields [repo],
    [instance_id], [base_commit], [problem_statement], [test_patch]
    and [patch] of the instance as they are: the values are put into
    the template and are not themselves read as templates. *)
Theorem build_user_prompt_verbatim (instance : instance)
  (build_dir prompt : string) :
  build_user_prompt instance build_dir = Ok prompt ->
  PyStr.contains build_dir prompt = true
  /\ (forall test_patch,
        PyDict.get "test_patch" instance = Some test_patch ->
        PyStr.contains (detect_language (get_modified_files test_patch))
          prompt = true)
  /\ forall key value,
       In key ["repo"; "instance_id"; "base_commit"; "problem_statement";
               "test_patch"; "patch"] ->
       PyDict.get key instance = Some value ->
       PyStr.contains value prompt = true.
Proof.
  unfold build_user_prompt.
  destruct (PyDict.get "repo" instance) as [repo|] eqn:Hrepo;
    [|discriminate].
  destruct (PyDict.get "instance_id" instance) as [iid|] eqn:Hid;
    [|discriminate].
  destruct (PyDict.get "base_commit" instance) as [commit|] eqn:Hcommit;
    [|discriminate].
  remember (match PyDict.get "test_patch" instance with
            | Some v => v
            | None => ""
            end) as test_patch eqn:Htest.
  remember (match PyDict.get "patch" instance with
            | Some v => v
            | None => ""
            end) as patch eqn:Hpatch.
  remember (match PyDict.get "problem_statement" instance with
            | Some v => v
            | None => ""
            end) as problem_statement eqn:Hproblem.
  remember (detect_language (get_modified_files test_patch))
    as language eqn:Hlanguage.
  remember (match get_modified_files test_patch with
            | [] => "- (none detected)"
            | _ :: _ =>
                PyStr.join nl
                  (map (fun f => ("- `" ++ f ++ "`")%string)
                     (get_modified_files test_patch))
            end) as test_files_list eqn:Hlist.
  clear Hlist. intros H.
  let t := eval vm_compute in USER_PROMPT_TEMPLATE in
  change USER_PROMPT_TEMPLATE with t in H.
  cbv -[String.append] in H. injection H as <-.
  split; [PromptFacts.find_value|]. split.
  - intros tp Htp. rewrite Htp in Htest. subst tp. rewrite <- Hlanguage.
    PromptFacts.find_value.
  - intros key value Hkey Hget.
    destruct Hkey as [<-|[<-|[<-|[<-|[<-|[<-|[]]]]]]].
    + rewrite Hrepo in Hget. injection Hget as <-.
      PromptFacts.find_value.
    + rewrite Hid in Hget. injection Hget as <-.
      PromptFacts.find_value.
    + rewrite Hcommit in Hget. injection Hget as <-.
      PromptFacts.find_value.
    + rewrite Hget in Hproblem. subst value. PromptFacts.find_value.
    + rewrite Hget in Htest. subst value. PromptFacts.find_value.
    + rewrite Hget in Hpatch. subst value. PromptFacts.find_value.
Qed.

End PromptVerbatim.

Lemma build_user_prompt_verbatim_witness :
  exists prompt,
    build_user_prompt (unidiff := HeaderReader.reader) braced_descriptor
      "/work/tmp/docker_build_demo-1"
    = Ok prompt
    /\ PyStr.contains "Calling f({repo}) fails with {0} and }{" prompt = true.
Proof.
  destruct (build_user_prompt (unidiff := HeaderReader.reader)
              braced_descriptor "/work/tmp/docker_build_demo-1")
    as [prompt|exc] eqn:Hprompt; [|vm_compute in Hprompt; discriminate].
  exists prompt. split; [reflexivity|].
  destruct (build_user_prompt_verbatim (unidiff := HeaderReader.reader)
              braced_descriptor "/work/tmp/docker_build_demo-1" prompt
              Hprompt) as (_ & _ & Hfields).
  apply (Hfields "problem_statement"); [simpl; tauto|reflexivity].
Defined.

(* ================================================================== *)
(** ** The extraction on the answer that the prompt asks for *)

Module AnswerFacts.
Import Re.

Lemma match_here_lits (word : string) :
  forall (p : pattern) (s : string) (cap : capture),
    match_here (lits word ++ p) (word ++ s) cap
    = match_here p s (pushes word cap).
Proof.
  induction word as [|c word IH]; intros p s cap.
  - simpl. rewrite ReFacts.pushes_nil. reflexivity.
  - change (lits (String c word) ++ p) with (Lit c :: (lits word ++ p)).
    change (String c word ++ s)%string with (String c (word ++ s)).
    cbn [match_here]. unfold lit_matches. rewrite Ascii.eqb_refl.
    rewrite IH, ReFacts.pushes_push. reflexivity.
Qed.

Lemma match_here_lit (a c : ascii) (p : pattern) (s : string)
  (cap : capture) :
  match_here (Lit a :: p) (String c s) cap
  = if lit_matches a c then match_here p s (push c cap) else None.
Proof. reflexivity. Qed.

Lemma match_here_open (p : pattern) (s : string) (cap : capture) :
  match_here (GroupOpen :: p) s cap = match_here p s (open_group cap).
Proof. reflexivity. Qed.

Lemma match_here_close (p : pattern) (s : string) (cap : capture) :
  match_here (GroupClose :: p) s cap = match_here p s (close_group cap).
Proof. reflexivity. Qed.

Lemma match_here_spaces_then (p : pattern) (s : string) (r : capture) :
  (forall c s', s = String c s' -> PyStr.isspace c = false) ->
  forall (ws : string) (cap : capture),
    PyStr.all_space ws = true ->
    match_here p s (pushes ws cap) = Some r ->
    match_here (Spaces :: p) (ws ++ s) cap = Some r.
Proof.
  intros Hs. induction ws as [|x ws IH]; intros cap Hws Hp.
  - rewrite ReFacts.pushes_nil in Hp. cbn [append].
    rewrite ReFacts.match_here_spaces. destruct s as [|c s']; [exact Hp|].
    rewrite (Hs c s' eq_refl). exact Hp.
  - cbn [PyStr.all_space] in Hws. apply andb_true_iff in Hws.
    destruct Hws as [Hx Hws]. cbn [append].
    rewrite ReFacts.match_here_spaces, Hx.
    rewrite (IH (push x cap) Hws); [reflexivity|].
    rewrite ReFacts.pushes_push. exact Hp.
Qed.

(** Steps over the white space [ws] when a character that is no white
    space follows it. *)
Ltac over_spaces :=
  apply match_here_spaces_then;
  [ let c := fresh "c" in
    let s := fresh "s" in
    let H := fresh "H" in
    intros c s H; cbn [append] in H; injection H as <- _; reflexivity
  | reflexivity
  | ].

Lemma match_here_lazy (p : pattern) (s : string) (r : capture) :
  forall (m : string) (cap : capture),
    (forall m1 c m2, m = (m1 ++ String c m2)%string ->
       match_here p (String c m2 ++ s) (pushes m1 cap) = None) ->
    match_here p s (pushes m cap) = Some r ->
    match_here (LazyAny :: p) (m ++ s) cap = Some r.
Proof.
  induction m as [|x m IH]; intros cap Hnot Hp.
  - rewrite ReFacts.pushes_nil in Hp. cbn [append].
    rewrite ReFacts.match_here_any, Hp. reflexivity.
  - cbn [append]. rewrite ReFacts.match_here_any.
    pose proof (Hnot "" x m eq_refl) as Hfirst.
    rewrite ReFacts.pushes_nil in Hfirst. cbn [append] in Hfirst.
    rewrite Hfirst. apply IH.
    + intros m1 c m2 Hm. rewrite ReFacts.pushes_push.
      apply Hnot. rewrite Hm. reflexivity.
    + rewrite ReFacts.pushes_push. exact Hp.
Qed.

(** White space and then a backtick do not come where a text without
    backticks, followed by a closing brace, stands. *)
Lemma no_fence_inside (rest tail : string) :
  forall (m ws : string),
    PyStr.contains "`" m = false ->
    PyStr.all_space ws = true ->
    (m ++ String "}" rest)%string <> (ws ++ String "`" tail)%string.
Proof.
  induction m as [|y m IH]; intros ws Hm Hws H.
  - destruct ws as [|x ws]; cbn [append] in H; [discriminate|].
    injection H as <- _. cbn [PyStr.all_space] in Hws. discriminate.
  - rewrite PathFacts.contains_char_cons in Hm.
    apply orb_false_iff in Hm. destruct Hm as [Hy Hm].
    destruct ws as [|x ws]; cbn [append] in H.
    + injection H as -> _. discriminate.
    + injection H as _ H. cbn [PyStr.all_space] in Hws.
      apply andb_true_iff in Hws. exact (IH ws Hm (proj2 Hws) H).
Qed.

Lemma after_star_not_inside (c : ascii) (m rest : string) (cap : capture) :
  PyStr.contains "`" m = false ->
  match_here after_star (String c m ++ String "}" rest) cap = None.
Proof.
  intros Hm. unfold after_star. cbn [append]. rewrite match_here_lit.
  destruct (lit_matches "}" c); [|reflexivity].
  rewrite match_here_close.
  destruct (match_here (Spaces :: lits "```"
                          ++ Spaces :: lits "</SHOVEL_OUTPUT_JSON>")
              (m ++ String "}" rest) (close_group (push c cap)))
    as [r|] eqn:Hmatch; [|reflexivity].
  exfalso. apply ReFacts.match_here_sound in Hmatch.
  destruct Hmatch as [left_over Hmatch].
  apply ReFacts.matches_spaces_inv in Hmatch.
  destruct Hmatch as (ws & s' & Hsplit & Hws & Hmatch).
  apply ReFacts.matches_lits_inv in Hmatch.
  destruct Hmatch as (fence & s'' & -> & Hfence & _).
  apply ReFacts.lower_backticks in Hfence. subst fence.
  exact (no_fence_inside rest _ m ws Hm Hws Hsplit).
Qed.

Lemma not_less_than (c : ascii) :
  Ascii.eqb "<" c = false -> lit_matches "<" c = false.
Proof.
  destruct c as [[] [] [] [] [] [] [] []]; vm_compute; intros H;
    first [reflexivity | discriminate H].
Qed.

Lemma search_past (text : string) :
  forall before : string,
    PyStr.contains "<" before = false ->
    search marker_re (before ++ text) = search marker_re text.
Proof.
  induction before as [|c before IH]; intros H; [reflexivity|].
  rewrite PathFacts.contains_char_cons in H. apply orb_false_iff in H.
  destruct H as [Hc H]. cbn [append]. rewrite ReFacts.search_unfold.
  change marker_re
    with (Lit "<" :: (lits "SHOVEL_OUTPUT_JSON>" ++ [Spaces] ++ fenced_re
                        ++ [Spaces] ++ lits "</SHOVEL_OUTPUT_JSON>")).
  cbn [match_here]. rewrite (not_less_than c Hc). apply IH. exact H.
Qed.

(** The wrapper pattern, started on the answer that the prompt asks
    for, captures the record text. *)
Lemma match_wrapped_answer (body after : string) :
  PyStr.contains "`" body = false ->
  match_here marker_re
    (wrapped_answer ("{" ++ body ++ "}") ++ after) Before
  = Some (After ("{" ++ body ++ "}")%string).
Proof.
  intros Hbody. unfold wrapped_answer. rewrite !ReFacts.append_assoc.
  change marker_re
    with (lits "<SHOVEL_OUTPUT_JSON>"
            ++ Spaces
            :: (lits "```json"
                  ++ Spaces :: GroupOpen :: Lit "{" :: LazyAny :: after_star)).
  rewrite match_here_lits.
  over_spaces.
  rewrite match_here_lits.
  over_spaces.
  rewrite match_here_open.
  change (Lit "{" :: LazyAny :: after_star)
    with (lits "{" ++ LazyAny :: after_star).
  rewrite match_here_lits.
  apply match_here_lazy.
  - intros m1 c m2 Hsplit.
    apply after_star_not_inside.
    assert (H : PyStr.contains "`" (m1 ++ String c m2) = false)
      by (rewrite <- Hsplit; exact Hbody).
    rewrite PathFacts.contains_char_app, PathFacts.contains_char_cons in H.
    apply orb_false_iff in H. destruct H as [_ H].
    apply orb_false_iff in H. tauto.
  - change after_star
      with (lits "}"
              ++ GroupClose :: Spaces
              :: lits "```" ++ Spaces :: lits "</SHOVEL_OUTPUT_JSON>" ++ []).
    rewrite match_here_lits, match_here_close.
    over_spaces.
    rewrite match_here_lits.
    over_spaces.
    rewrite match_here_lits. reflexivity.
Qed.

End AnswerFacts.

Section RoundTrip.
Context {json : JsonDecoder}.

(** X29.  The extraction gives back the record of an answer in the
    format that the system prompt asks for: when the text before the
    wrapper has no [<], the record text between the braces has no
    backtick and the record text loads as a mapping, that mapping is
    the result, whatever follows the wrapper. *)
Theorem parse_wrapped_answer (before body after : string) (d : dict) :
  PyStr.contains "<" before = false ->
  PyStr.contains "`" body = false ->
  json_loads ("{" ++ body ++ "}") = Some (PDict d) ->
  _parse_output_from_final_assistant_text
    (before ++ wrapped_answer ("{" ++ body ++ "}") ++ after)
  = Some d.
Proof.
  intros Hbefore Hbody Hloads.
  unfold _parse_output_from_final_assistant_text, extraction_candidates.
  rewrite (AnswerFacts.search_past _ before Hbefore).
  rewrite (ReFacts.search_unfold Re.marker_re).
  rewrite (AnswerFacts.match_wrapped_answer body after Hbody).
  cbn [Re.group1 app].
  destruct (Re.search Re.fenced_re _); cbn [app];
    rewrite (try_candidates_accept _ _ d Hloads); reflexivity.
Qed.

End RoundTrip.

Lemma parse_wrapped_answer_witness :
  sample_parse
    ("Here it is:" ++ nl
     ++ wrapped_answer ("{" ++ (Sample.q "from" ++ ": " ++ Sample.q "wrapper")
                        ++ "}")
     ++ nl ++ "That is all.")
  = Some [("from", PStr "wrapper")].
Proof.
  apply (parse_wrapped_answer (json := Json.decoder)
           ("Here it is:" ++ nl)
           (Sample.q "from" ++ ": " ++ Sample.q "wrapper")
           (nl ++ "That is all.") [("from", PStr "wrapper")]).
  - reflexivity.
  - reflexivity.
  - reflexivity.
Defined.
